(** * Analytics aggregation of [netlify/functions/analytics-data.js]

    A shallow embedding of the serverless analytics function and the
    properties of its aggregators: day bucketing, post classification,
    hashtag and audience ranking, the engagement join, the message series
    and the request handler.

    Modelling conventions.
    - A JavaScript string is a [string]; every character is one code unit.
    - A JavaScript number that counts something is a [Z].
    - [undefined] and [null] are [None]; an optional chain [a?.b] is a match
      on an [option].
    - A plain object used as a dictionary is an association list of its own
      properties in insertion order ([Js.Obj]); enumeration follows the
      language's own-key order, integer-like keys first.  Keys that are also
      members of [Object.prototype] are outside the dictionary model and are
      excluded by an explicit hypothesis where keys come from the input.
    - [Date] values are milliseconds since the epoch in a zone with a fixed
      offset; the locale formatters, the date parser, the system clock and
      [fetch] are the fields of a [Runtime]. *)

From Stdlib Require Import ZArith NArith List String Ascii Bool Lia.
From Stdlib Require Import Permutation Sorted DecimalString FinFun.
Import ListNotations.

Set Implicit Arguments.

Open Scope string_scope.
Open Scope list_scope.

(* ================================================================== *)
(** * JavaScript strings, dictionaries and sorting                    *)
(* ================================================================== *)

Module Js.

(** ** Truthiness and defaults *)

(** [Boolean(s)] for a value that is a string or missing. *)
Definition truthy (o : option string) : bool :=
  match o with
  | None => false
  | Some s => negb (String.eqb s EmptyString)
  end.

(** [a || b] where both sides are a string or missing. *)
Definition or_else (a b : option string) : option string :=
  if truthy a then a else b.

(** [a || "literal"]. *)
Definition or_default (a : option string) (d : string) : string :=
  match a with
  | Some s => if String.eqb s EmptyString then d else s
  | None => d
  end.

(** [(n || 0)] for a counter that may be missing. *)
Definition or_zero (o : option Z) : Z :=
  match o with
  | Some n => if Z.eqb n 0 then 0%Z else n
  | None => 0%Z
  end.

(** ** [String.prototype.includes] *)

Fixpoint includes (s sub : string) : bool :=
  String.prefix sub s
  || match s with
     | EmptyString => false
     | String _ rest => includes rest sub
     end.

(** ** [String.prototype.substring(0, n)] *)

Fixpoint take (n : nat) (s : string) : string :=
  match n, s with
  | O, _ => EmptyString
  | S _, EmptyString => EmptyString
  | S k, String c rest => String c (take k rest)
  end.

(** ** The regular expression [/#[\w]+/g]

    [\w] without the unicode flag is [A-Za-z0-9_]. *)

Definition is_word (c : ascii) : bool :=
  let n := nat_of_ascii c in
  (Nat.leb 65 n && Nat.leb n 90)
  || (Nat.leb 97 n && Nat.leb n 122)
  || (Nat.leb 48 n && Nat.leb n 57)
  || Nat.eqb n 95.

Definition is_hash (c : ascii) : bool := Ascii.eqb c "#"%char.

(** The word read so far after a [#], if the scanner is inside one. *)
Definition flush (cur : option string) : list string :=
  match cur with
  | Some w => if String.eqb w EmptyString then [] else [String "#" w]
  | None => []
  end.

(** One left-to-right pass.  [cur = Some w] means a [#] followed by the
    word characters [w] has just been read.  A match needs at least one
    word character and is extended greedily; the search resumes right
    after it.  [#] is not a word character, so a [#] always closes the
    running match and opens a new candidate. *)
Fixpoint scan (cur : option string) (s : string) : list string :=
  match s with
  | EmptyString => flush cur
  | String c rest =>
      if is_word c then
        match cur with
        | Some w => scan (Some (w ++ String c EmptyString)%string) rest
        | None => scan None rest
        end
      else
        (flush cur ++ scan (if is_hash c then Some EmptyString else None) rest)%list
  end.

(** [content.match(/#[\w]+/g) || []]. *)
Definition match_hashtags (content : string) : list string :=
  scan None content.

(** ** Array indices among property keys

    A key is an array index when it is the canonical decimal form of an
    integer in [0, 2^32 - 2]. *)

Definition digit_of (c : ascii) : option N :=
  let n := N_of_ascii c in
  if N.leb 48 n && N.leb n 57 then Some (n - 48)%N else None.

Fixpoint digits_value (acc : N) (s : string) : option N :=
  match s with
  | EmptyString => Some acc
  | String c rest =>
      match digit_of c with
      | Some d => digits_value (10 * acc + d)%N rest
      | None => None
      end
  end.

Definition array_index (k : string) : option N :=
  match k with
  | EmptyString => None
  | String c rest =>
      if Ascii.eqb c "0"%char && negb (String.eqb rest EmptyString) then None
      else if Nat.ltb 10 (String.length k) then None
      else
        match digits_value 0 k with
        | Some n => if N.leb n 4294967294 then Some n else None
        | None => None
        end
  end.

Definition is_index (k : string) : bool :=
  match array_index k with Some _ => true | None => false end.

(** ** [Array.prototype.sort] with a comparator

    The sort is stable.  For a comparator that is a total preorder every
    stable sort returns the same array, so insertion from the right is a
    faithful model.  [cmp a b <= 0] keeps [a] in front of [b]. *)

Section Sort.
Variable A : Type.
Variable cmp : A -> A -> Z.

Fixpoint insert (x : A) (l : list A) : list A :=
  match l with
  | [] => [x]
  | y :: l' => if (cmp x y <=? 0)%Z then x :: l else y :: insert x l'
  end.

Fixpoint sort (l : list A) : list A :=
  match l with
  | [] => []
  | x :: l' => insert x (sort l')
  end.
End Sort.

(** ** Plain objects as dictionaries *)

Section Obj.
Variable V : Type.

(** Own properties in insertion order; keys are pairwise distinct. *)
Definition Obj := list (string * V).

(** [o[k]] for an own property. *)
Fixpoint get (k : string) (o : Obj) : option V :=
  match o with
  | [] => None
  | (k', v) :: o' => if String.eqb k k' then Some v else get k o'
  end.

(** [o[k] = v]: an existing property keeps its place, a new one goes
    last. *)
Fixpoint set (k : string) (v : V) (o : Obj) : Obj :=
  match o with
  | [] => [(k, v)]
  | (k', v') :: o' =>
      if String.eqb k k' then (k', v) :: o' else (k', v') :: set k v o'
  end.

(** In-place update of the value stored under [k], if any. *)
Fixpoint update (k : string) (f : V -> V) (o : Obj) : Obj :=
  match o with
  | [] => []
  | (k', v') :: o' =>
      if String.eqb k k' then (k', f v') :: o' else (k', v') :: update k f o'
  end.

Definition index_of_entry (e : string * V) : N :=
  match array_index (fst e) with Some n => n | None => 0%N end.

Definition cmp_index (a b : string * V) : Z :=
  (Z.of_N (index_of_entry a) - Z.of_N (index_of_entry b))%Z.

(** [Object.entries(o)]: array-index keys in ascending numeric order,
    then the other keys in insertion order. *)
Definition entries (o : Obj) : list (string * V) :=
  sort cmp_index (filter (fun e => is_index (fst e)) o)
  ++ filter (fun e => negb (is_index (fst e))) o.

(** [Object.values(o)]. *)
Definition values (o : Obj) : list V := map snd (entries o).
End Obj.

(** Member names of [Object.prototype]; a dictionary lookup of one of
    these finds an inherited value instead of [undefined]. *)
Definition prototype_names : list string :=
  [ "constructor"; "__defineGetter__"; "__defineSetter__"; "hasOwnProperty";
    "__lookupGetter__"; "__lookupSetter__"; "isPrototypeOf";
    "propertyIsEnumerable"; "toString"; "valueOf"; "__proto__";
    "toLocaleString" ]%string.

Definition plain_key (k : string) : Prop := ~ In k prototype_names.

Definition plain_keyb (k : string) : bool :=
  negb (existsb (String.eqb k) prototype_names).

End Js.


(* ================================================================== *)
(** * Data model                                                      *)
(* ================================================================== *)

(** ** Changelog events *)

Record MediaItem := { mediaType : option string }.

Record ShareCommentary := { text : option string }.

(** The value under ["com.linkedin.ugc.ShareContent"]. *)
Record ShareContent := {
  media : option (list MediaItem);
  shareCommentary : option ShareCommentary
}.

Record SpecificContent := { shareContent : option ShareContent }.

Record Activity := {
  object : option string;
  specificContent : option SpecificContent
}.

Record Event := {
  resourceName : string;
  method : string;
  capturedAt : Z;
  actor : option string;
  owner : option string;
  resourceId : string;
  activity : option Activity
}.

Module Changelog.
Record t := { elements : option (list Event) }.
End Changelog.

(** ** Snapshot rows: flat dictionaries of strings *)

Definition Row := list (string * string).

Fixpoint field (name : string) (r : Row) : option string :=
  match r with
  | [] => None
  | (k, v) :: r' => if String.eqb name k then Some v else field name r'
  end.

Module Snapshot.
Record element := { snapshotData : option (list Row) }.
Record t := { elements : option (list element) }.
End Snapshot.

(** [data?.elements || []] *)
Definition changelog_elements (changelogData : option Changelog.t) : list Event :=
  match changelogData with
  | Some d => match Changelog.elements d with Some es => es | None => [] end
  | None => []
  end.

(** [data?.elements?.[0]?.snapshotData || []] *)
Definition snapshot_rows (data : option Snapshot.t) : list Row :=
  match data with
  | Some d =>
      match Snapshot.elements d with
      | Some (e :: _) =>
          match Snapshot.snapshotData e with Some rows => rows | None => [] end
      | _ => []
      end
  | None => []
  end.

Definition is_create (resource : string) (e : Event) : bool :=
  String.eqb (resourceName e) resource && String.eqb (method e) "CREATE".

(** [e => e.resourceName === "ugcPosts" && e.method === "CREATE"] *)
Definition is_post_create (e : Event) : bool := is_create "ugcPosts" e.

(** [data?.elements?.filter(isPostCreate) || []] *)
Definition changelog_posts (changelogData : option Changelog.t) : list Event :=
  match changelogData with
  | Some d =>
      match Changelog.elements d with
      | Some es => filter is_post_create es
      | None => []
      end
  | None => []
  end.

(** [post.activity?.specificContent?.["com.linkedin.ugc.ShareContent"]] *)
Definition share_content (post : Event) : option ShareContent :=
  match activity post with
  | Some a =>
      match specificContent a with
      | Some sc => shareContent sc
      | None => None
      end
  | None => None
  end.

(** [content?.shareCommentary?.text] *)
Definition commentary_text (content : option ShareContent) : option string :=
  match content with
  | Some c =>
      match shareCommentary c with
      | Some sc => text sc
      | None => None
      end
  | None => None
  end.

(** [element.activity?.object] *)
Definition activity_object (e : Event) : option string :=
  match activity e with
  | Some a => object a
  | None => None
  end.

(** ** JSON values, for the response body *)

Unset Elimination Schemes.
Inductive Json :=
| JNull
| JNum (n : Z)
| JStr (s : string)
| JArr (items : list Json)
| JObj (fields : list (string * Json)).
Set Elimination Schemes.

Fixpoint json_field (k : string) (fields : list (string * Json)) : option Json :=
  match fields with
  | [] => None
  | (k', v) :: rest => if String.eqb k k' then Some v else json_field k rest
  end.

Definition json_keys (j : Json) : list string :=
  match j with
  | JObj fields => map fst fields
  | _ => []
  end.

Definition json_get (k : string) (j : Json) : option Json :=
  match j with
  | JObj fields => json_field k fields
  | _ => None
  end.

(* ================================================================== *)
(** * Runtime: dates, clock and network                                *)
(* ================================================================== *)

Inductive FetchResult (A : Type) :=
| NetworkError                 (* [fetch] rejects *)
| HttpError (status : Z)       (* [response.ok] is false *)
| HttpJson (payload : A)       (* success, body parsed *)
| HttpBadBody.                 (* success, [response.json()] rejects *)

Arguments NetworkError {A}.
Arguments HttpError {A} status.
Arguments HttpJson {A} payload.
Arguments HttpBadBody {A}.

Record Runtime := {
  (** offset of the local zone from UTC, in milliseconds *)
  tzOffset : Z;
  (** day of the month of a local day number *)
  dayOfMonth : Z -> Z;
  (** [toLocaleDateString('en-US', {month: 'short', day: 'numeric'})] *)
  formatShort : Z -> string;
  (** [toLocaleDateString()] in the default locale *)
  formatDefault : Z -> string;
  (** [toISOString()] of an instant *)
  formatISO : Z -> string;
  (** [new Date(string)]: the instant, or [None] for an invalid date *)
  parseDate : string -> option Z;
  (** successive readings of the system clock *)
  clock : nat -> Z;
  (** [fetch(url, {headers})] against the two proxy endpoints *)
  fetchSnapshot : string -> list (string * string) -> FetchResult Snapshot.t;
  fetchChangelog : string -> list (string * string) -> FetchResult Changelog.t
}.

Definition msPerDay : Z := 86400000.

Section Dates.
Variable rt : Runtime.

(** Local day number of an instant. *)
Definition dayOf (t : Z) : Z := ((t + tzOffset rt) / msPerDay)%Z.

Definition getDate (t : Z) : Z := dayOfMonth rt (dayOf t).

(** [d.setDate(n)]: the day of the month becomes [n], overflowing into
    the neighbouring months; the time of day is kept. *)
Definition setDate (t n : Z) : Z := (t + (n - getDate t) * msPerDay)%Z.

(** A [Date] is an instant or invalid. *)
Definition toLocaleDateString (d : option Z) : string :=
  match d with
  | Some t => formatDefault rt (dayOf t)
  | None => "Invalid Date"
  end.

Definition toShortDateString (d : option Z) : string :=
  match d with
  | Some t => formatShort rt (dayOf t)
  | None => "Invalid Date"
  end.
End Dates.

(** ** Effects: the clock and the log of upstream requests *)

Record FetchCall := {
  call_url : string;
  call_headers : list (string * string)
}.

Record World := {
  tick : nat;                   (* clock readings made so far *)
  requests : list FetchCall     (* upstream requests issued so far *)
}.

Definition M (A : Type) : Type := World -> A * World.

Definition ret {A} (x : A) : M A := fun w => (x, w).

Definition bind {A B} (c : M A) (k : A -> M B) : M B :=
  fun w => let (x, w') := c w in k x w'.

Declare Scope monad_scope.
Delimit Scope monad_scope with monad.
Notation "x <- c ;; k" := (bind c (fun x => k))
  (at level 61, c at next level, right associativity) : monad_scope.
Open Scope monad_scope.

(** [new Date()] and [Date.now()]. *)
Definition now (rt : Runtime) : M Z :=
  fun w => (clock rt (tick w), {| tick := S (tick w); requests := requests w |}).

Definition log_request (c : FetchCall) : M unit :=
  fun w => (tt, {| tick := tick w; requests := requests w ++ [c] |}).

(* ================================================================== *)
(** * The aggregators                                                 *)
(* ================================================================== *)

(** [timeRange === "7d" ? 7 : timeRange === "30d" ? 30 : 90] *)
Definition days_of_range (timeRange : string) : nat :=
  if String.eqb timeRange "7d" then 7
  else if String.eqb timeRange "30d" then 30
  else 90.

(** ** Posts and engagement trend *)

Module DayBucket.
Record t := { date : string; posts : Z; likes : Z; comments : Z; shares : Z }.
End DayBucket.

Module TrendPoint.
Record t := {
  date : string; posts : Z; likes : Z; comments : Z; totalEngagement : Z
}.
End TrendPoint.

(** The loop [for (let i = n - 1; i >= 0; i--)] that both day series start
    with: a fresh [new Date()] is moved back [i] days and turned into an
    empty bucket by [mk].  The argument is [i + 1]. *)
Fixpoint date_range {A : Type} (rt : Runtime) (mk : Z -> A) (n : nat) : M (list A) :=
  match n with
  | O => ret []
  | S i =>
      date <- now rt ;;
      let date' := setDate rt date (getDate rt date - Z.of_nat i) in
      rest <- date_range rt mk i ;;
      ret (mk date' :: rest)
  end.

(** [dateRange.find(day => day.date === label)] followed by a mutation of
    the bucket found: the first bucket with that label is replaced in
    place, the array is left alone when there is none. *)
Fixpoint bump_day {A : Type} (key : A -> string) (label : string) (f : A -> A)
    (dateRange : list A) : list A :=
  match dateRange with
  | [] => []
  | day :: rest =>
      if String.eqb (key day) label then f day :: rest
      else day :: bump_day key label f rest
  end.

Definition empty_day (rt : Runtime) (date : Z) : DayBucket.t :=
  {| DayBucket.date := toShortDateString rt (Some date);
     DayBucket.posts := 0; DayBucket.likes := 0;
     DayBucket.comments := 0; DayBucket.shares := 0 |}.

Definition incr_posts (d : DayBucket.t) : DayBucket.t :=
  {| DayBucket.date := DayBucket.date d; DayBucket.posts := DayBucket.posts d + 1;
     DayBucket.likes := DayBucket.likes d; DayBucket.comments := DayBucket.comments d;
     DayBucket.shares := DayBucket.shares d |}.

Definition incr_likes (d : DayBucket.t) : DayBucket.t :=
  {| DayBucket.date := DayBucket.date d; DayBucket.posts := DayBucket.posts d;
     DayBucket.likes := DayBucket.likes d + 1; DayBucket.comments := DayBucket.comments d;
     DayBucket.shares := DayBucket.shares d |}.

Definition incr_comments (d : DayBucket.t) : DayBucket.t :=
  {| DayBucket.date := DayBucket.date d; DayBucket.posts := DayBucket.posts d;
     DayBucket.likes := DayBucket.likes d; DayBucket.comments := DayBucket.comments d + 1;
     DayBucket.shares := DayBucket.shares d |}.

Definition incr_shares (d : DayBucket.t) : DayBucket.t :=
  {| DayBucket.date := DayBucket.date d; DayBucket.posts := DayBucket.posts d;
     DayBucket.likes := DayBucket.likes d; DayBucket.comments := DayBucket.comments d;
     DayBucket.shares := DayBucket.shares d + 1 |}.

(** The body of the [if (dayData)] block. *)
Definition count_activity (element : Event) (dayData : DayBucket.t) : DayBucket.t :=
  if is_create "ugcPosts" element then incr_posts dayData
  else if is_create "socialActions/likes" element then incr_likes dayData
  else if is_create "socialActions/comments" element then incr_comments dayData
  else if is_create "socialActions/shares" element then incr_shares dayData
  else dayData.

(** One round of [elements.forEach]. *)
Definition trend_step (rt : Runtime) (dateRange : list DayBucket.t)
    (element : Event) : list DayBucket.t :=
  let elementDate := toShortDateString rt (Some (capturedAt element)) in
  bump_day DayBucket.date elementDate (count_activity element) dateRange.

Definition trend_point (day : DayBucket.t) : TrendPoint.t :=
  {| TrendPoint.date := DayBucket.date day;
     TrendPoint.posts := DayBucket.posts day;
     TrendPoint.likes := DayBucket.likes day;
     TrendPoint.comments := DayBucket.comments day;
     TrendPoint.totalEngagement :=
       DayBucket.likes day + DayBucket.comments day + DayBucket.shares day |}.

Definition calculatePostsEngagementsTrend (rt : Runtime)
    (changelogData : option Changelog.t) (timeRange : string)
    : M (list TrendPoint.t) :=
  let elements := changelog_elements changelogData in
  let days := days_of_range timeRange in
  dateRange <- date_range rt (empty_day rt) days ;;
  let counted := fold_left (trend_step rt) elements dateRange in
  ret (map trend_point counted).

(** ** Connections growth *)

Module GrowthPoint.
Record t := { date : string; totalConnections : Z; newConnections : Z }.
End GrowthPoint.

(** [conn["Connected On"] || conn.connectedOn] *)
Definition connected_on (conn : Row) : option string :=
  Js.or_else (field "Connected On" conn) (field "connectedOn" conn).

(** [new Date(conn["Connected On"] || conn.connectedOn)]; a missing value
    gives an invalid date. *)
Definition connection_date (rt : Runtime) (conn : Row) : option Z :=
  match connected_on conn with
  | Some s => parseDate rt s
  | None => None
  end.

(** [dateA.getTime() - dateB.getTime()]; a [NaN] result counts as [0]. *)
Definition by_connection_date (rt : Runtime) (a b : Row) : Z :=
  match connection_date rt a, connection_date rt b with
  | Some ta, Some tb => ta - tb
  | _, _ => 0
  end.

Definition Z_length {A} (l : list A) : Z := Z.of_nat (List.length l).

(** The loop [for (d = new Date(startDate); d <= endDate; d.setDate(d.getDate() + 1))].
    [None] when the fuel runs out before the loop condition fails. *)
Fixpoint growth_loop (rt : Runtime) (fuel : nat) (sortedConnections : list Row)
    (endDate d cumulativeCount : Z) : option (list GrowthPoint.t) :=
  match fuel with
  | O => None
  | S fuel' =>
      if (d <=? endDate)%Z then
        let dateStr := toLocaleDateString rt (Some d) in
        let connectionsOnDate :=
          Z_length (filter (fun conn =>
            String.eqb (toLocaleDateString rt (connection_date rt conn)) dateStr)
            sortedConnections) in
        let cumulativeCount' := (cumulativeCount + connectionsOnDate)%Z in
        match growth_loop rt fuel' sortedConnections endDate
                (setDate rt d (getDate rt d + 1)) cumulativeCount' with
        | Some rest =>
            Some ({| GrowthPoint.date := toShortDateString rt (Some d);
                     GrowthPoint.totalConnections := cumulativeCount';
                     GrowthPoint.newConnections := connectionsOnDate |} :: rest)
        | None => None
        end
      else Some []
  end.

(** Enough rounds for the loop to leave by its own condition. *)
Definition growth_fuel (startDate endDate : Z) : nat :=
  S (S (Z.to_nat ((endDate - startDate) / msPerDay))).

Definition calculateConnectionsGrowth (rt : Runtime)
    (connectionsData : option Snapshot.t) (timeRange : string)
    : M (option (list GrowthPoint.t)) :=
  let connections := snapshot_rows connectionsData in
  let sortedConnections :=
    Js.sort (by_connection_date rt)
      (filter (fun conn => Js.truthy (connected_on conn)) connections) in
  let days := days_of_range timeRange in
  endDate <- now rt ;;
  startDate0 <- now rt ;;
  let startDate := setDate rt startDate0 (getDate rt endDate - Z.of_nat days) in
  ret (growth_loop rt (growth_fuel startDate endDate) sortedConnections
         endDate startDate 0).

(** ** Post types *)

Inductive PostType := TextOnly | Image | Video | Article | ExternalLink.

Definition type_name (ty : PostType) : string :=
  match ty with
  | TextOnly => "Text Only"
  | Image => "Image"
  | Video => "Video"
  | Article => "Article"
  | ExternalLink => "External Link"
  end.

Module RankedEntry.
Record t := { name : string; value : Z }.
End RankedEntry.

(** The object literal that [typeCounts] starts from. *)
Definition typeCounts0 : Js.Obj Z :=
  [ ("Text Only", 0%Z); ("Image", 0%Z); ("Video", 0%Z); ("Article", 0%Z);
    ("External Link", 0%Z) ].

(** The branch taken by the body of [posts.forEach]. *)
Definition classify (post : Event) : PostType :=
  let content := share_content post in
  let media := match content with Some c => media c | None => None end in
  match media with
  | Some (first :: _) =>
      let mediaType := Js.or_default (mediaType first) "IMAGE" in
      if Js.includes mediaType "VIDEO" then Video
      else if Js.includes mediaType "IMAGE" then Image
      else ExternalLink
  | _ =>
      if match commentary_text content with
         | Some t => Js.includes t "http"
         | None => false
         end
      then ExternalLink
      else TextOnly
  end.

(** [typeCounts[name]++] *)
Definition count_type (typeCounts : Js.Obj Z) (post : Event) : Js.Obj Z :=
  Js.update (type_name (classify post)) (fun n => n + 1)%Z typeCounts.

Definition ranked (e : string * Z) : RankedEntry.t :=
  {| RankedEntry.name := fst e; RankedEntry.value := snd e |}.

Definition calculatePostTypesBreakdown (changelogData : option Changelog.t)
    : list RankedEntry.t :=
  let posts := changelog_posts changelogData in
  let typeCounts := fold_left count_type posts typeCounts0 in
  map ranked (filter (fun e => (0 <? snd e)%Z) (Js.entries typeCounts)).

(** ** Top hashtags *)

Module HashtagCount.
Record t := { hashtag : string; count : Z }.
End HashtagCount.

(** [counts[k] = (counts[k] || 0) + 1] *)
Definition tally (counts : Js.Obj Z) (k : string) : Js.Obj Z :=
  Js.set k (Js.or_zero (Js.get k counts) + 1)%Z counts.

Definition tally_hashtags (counts : Js.Obj Z) (content : string) : Js.Obj Z :=
  fold_left tally (Js.match_hashtags content) counts.

(** [post.ShareCommentary || ""] *)
Definition snapshot_commentary (post : Row) : string :=
  Js.or_default (field "ShareCommentary" post) "".

(** [post.activity?.specificContent?.[...]?.shareCommentary?.text || ""] *)
Definition changelog_commentary (post : Event) : string :=
  Js.or_default (commentary_text (share_content post)) "".

(** [([, a], [, b]) => b - a] *)
Definition by_count_desc (a b : string * Z) : Z := (snd b - snd a)%Z.

(** [Object.entries(counts).sort(byCountDesc).slice(0, 10)] *)
Definition top10 (counts : Js.Obj Z) : list (string * Z) :=
  firstn 10 (Js.sort by_count_desc (Js.entries counts)).

Definition hashtag_count (e : string * Z) : HashtagCount.t :=
  {| HashtagCount.hashtag := fst e; HashtagCount.count := snd e |}.

Definition hashtag_table (postsData : option Snapshot.t)
    (changelogData : option Changelog.t) : Js.Obj Z :=
  let snapshotPosts := snapshot_rows postsData in
  let fromSnapshot :=
    fold_left (fun counts post => tally_hashtags counts (snapshot_commentary post))
      snapshotPosts [] in
  let changelogPosts := changelog_posts changelogData in
  fold_left (fun counts post => tally_hashtags counts (changelog_commentary post))
    changelogPosts fromSnapshot.

Definition calculateTopHashtags (postsData : option Snapshot.t)
    (changelogData : option Changelog.t) : list HashtagCount.t :=
  map hashtag_count (top10 (hashtag_table postsData changelogData)).

(** ** Engagement per post *)

Module PostEngagement.
Record t := {
  postId : string; content : string;
  likes : Z; comments : Z; shares : Z; createdAt : Z
}.
End PostEngagement.

Module PostSummary.
Record t := {
  postId : string; content : string;
  likes : Z; comments : Z; shares : Z; createdAt : Z;
  totalEngagement : Z
}.
End PostSummary.

Definition seed_post (engagementMap : Js.Obj PostEngagement.t) (post : Event)
    : Js.Obj PostEngagement.t :=
  Js.set (resourceId post)
    {| PostEngagement.postId := resourceId post;
       PostEngagement.content :=
         Js.or_default (commentary_text (share_content post)) "Post content";
       PostEngagement.likes := 0; PostEngagement.comments := 0;
       PostEngagement.shares := 0;
       PostEngagement.createdAt := capturedAt post |}
    engagementMap.

Definition add_like (p : PostEngagement.t) : PostEngagement.t :=
  {| PostEngagement.postId := PostEngagement.postId p;
     PostEngagement.content := PostEngagement.content p;
     PostEngagement.likes := PostEngagement.likes p + 1;
     PostEngagement.comments := PostEngagement.comments p;
     PostEngagement.shares := PostEngagement.shares p;
     PostEngagement.createdAt := PostEngagement.createdAt p |}.

Definition add_comment (p : PostEngagement.t) : PostEngagement.t :=
  {| PostEngagement.postId := PostEngagement.postId p;
     PostEngagement.content := PostEngagement.content p;
     PostEngagement.likes := PostEngagement.likes p;
     PostEngagement.comments := PostEngagement.comments p + 1;
     PostEngagement.shares := PostEngagement.shares p;
     PostEngagement.createdAt := PostEngagement.createdAt p |}.

Definition add_share (p : PostEngagement.t) : PostEngagement.t :=
  {| PostEngagement.postId := PostEngagement.postId p;
     PostEngagement.content := PostEngagement.content p;
     PostEngagement.likes := PostEngagement.likes p;
     PostEngagement.comments := PostEngagement.comments p;
     PostEngagement.shares := PostEngagement.shares p + 1;
     PostEngagement.createdAt := PostEngagement.createdAt p |}.

(** The body of the second [elements.forEach]. *)
Definition count_engagement (engagementMap : Js.Obj PostEngagement.t)
    (element : Event) : Js.Obj PostEngagement.t :=
  match activity_object element with
  | Some postId =>
      if negb (String.eqb postId "") then
        match Js.get postId engagementMap with
        | Some _ =>
            if is_create "socialActions/likes" element
            then Js.update postId add_like engagementMap
            else if is_create "socialActions/comments" element
            then Js.update postId add_comment engagementMap
            else if is_create "socialActions/shares" element
            then Js.update postId add_share engagementMap
            else engagementMap
        | None => engagementMap
        end
      else engagementMap
  | None => engagementMap
  end.

(** [{...post, totalEngagement: ..., content: ...}] *)
Definition summarize (post : PostEngagement.t) : PostSummary.t :=
  {| PostSummary.postId := PostEngagement.postId post;
     PostSummary.content :=
       (Js.take 50 (PostEngagement.content post)
        ++ (if (50 <? String.length (PostEngagement.content post))%nat
            then "..." else ""))%string;
     PostSummary.likes := PostEngagement.likes post;
     PostSummary.comments := PostEngagement.comments post;
     PostSummary.shares := PostEngagement.shares post;
     PostSummary.createdAt := PostEngagement.createdAt post;
     PostSummary.totalEngagement :=
       PostEngagement.likes post + PostEngagement.comments post
       + PostEngagement.shares post |}.

(** [(a, b) => b.totalEngagement - a.totalEngagement] *)
Definition by_engagement_desc (a b : PostSummary.t) : Z :=
  (PostSummary.totalEngagement b - PostSummary.totalEngagement a)%Z.

Definition engagement_table (changelogData : option Changelog.t)
    : Js.Obj PostEngagement.t :=
  let elements := changelog_elements changelogData in
  let userPosts := filter is_post_create elements in
  let seeded := fold_left seed_post userPosts [] in
  fold_left count_engagement elements seeded.

Definition calculateEngagementPerPost (changelogData : option Changelog.t)
    : list PostSummary.t :=
  firstn 10
    (Js.sort by_engagement_desc
       (map summarize (Js.values (engagement_table changelogData)))).

(** ** Messages sent and received *)

Module MessageDay.
Record t := { date : string; sent : Z; received : Z }.
End MessageDay.

(** [elements.find(e => e.owner)?.owner] *)
Definition currentUserId_of (elements : list Event) : option string :=
  match find (fun e => Js.truthy (owner e)) elements with
  | Some e => owner e
  | None => None
  end.

(** [a === b] on identifiers that may be missing. *)
Definition same_id (a b : option string) : bool :=
  match a, b with
  | Some x, Some y => String.eqb x y
  | None, None => true
  | _, _ => false
  end.

Definition empty_message_day (rt : Runtime) (date : Z) : MessageDay.t :=
  {| MessageDay.date := toLocaleDateString rt (Some date);
     MessageDay.sent := 0; MessageDay.received := 0 |}.

Definition count_message (currentUserId : option string) (message : Event)
    (dayData : MessageDay.t) : MessageDay.t :=
  if same_id (actor message) currentUserId then
    {| MessageDay.date := MessageDay.date dayData;
       MessageDay.sent := MessageDay.sent dayData + 1;
       MessageDay.received := MessageDay.received dayData |}
  else
    {| MessageDay.date := MessageDay.date dayData;
       MessageDay.sent := MessageDay.sent dayData;
       MessageDay.received := MessageDay.received dayData + 1 |}.

Definition message_step (rt : Runtime) (currentUserId : option string)
    (dateRange : list MessageDay.t) (message : Event) : list MessageDay.t :=
  let messageDate := toLocaleDateString rt (Some (capturedAt message)) in
  bump_day MessageDay.date messageDate (count_message currentUserId message) dateRange.

(** [e => e.resourceName === "messages" && e.capturedAt >= last30Days] *)
Definition recent_message (last30Days : Z) (e : Event) : bool :=
  String.eqb (resourceName e) "messages" && (last30Days <=? capturedAt e)%Z.

(** [new Date(day.date).toLocaleDateString('en-US', ...)] *)
Definition message_point (rt : Runtime) (day : MessageDay.t) : MessageDay.t :=
  {| MessageDay.date := toShortDateString rt (parseDate rt (MessageDay.date day));
     MessageDay.sent := MessageDay.sent day;
     MessageDay.received := MessageDay.received day |}.

Definition calculateMessagesSentReceived (rt : Runtime)
    (changelogData : option Changelog.t) : M (list MessageDay.t) :=
  let elements := changelog_elements changelogData in
  let currentUserId := currentUserId_of elements in
  t <- now rt ;;
  let last30Days := (t - 30 * 24 * 60 * 60 * 1000)%Z in
  dateRange <- date_range rt (empty_message_day rt) 30 ;;
  let counted :=
    fold_left (message_step rt currentUserId)
      (filter (recent_message last30Days) elements) dateRange in
  ret (map (message_point rt) counted).

(** ** Audience distribution *)

Module Audience.
Record t := {
  industries : list RankedEntry.t;
  positions : list RankedEntry.t;
  locations : list RankedEntry.t
}.
End Audience.

(** [conn.Industry || "Unknown"] and its two siblings. *)
Definition audience_key (fieldName : string) (conn : Row) : string :=
  Js.or_default (field fieldName conn) "Unknown".

Definition audience_table (fieldName : string) (connections : list Row)
    : Js.Obj Z :=
  fold_left (fun counts conn => tally counts (audience_key fieldName conn))
    connections [].

Definition calculateAudienceDistribution (connectionsData : option Snapshot.t)
    : Audience.t :=
  let connections := snapshot_rows connectionsData in
  {| Audience.industries := map ranked (top10 (audience_table "Industry" connections));
     Audience.positions := map ranked (top10 (audience_table "Position" connections));
     Audience.locations := map ranked (top10 (audience_table "Location" connections)) |}.

(** ** The static table of score impacts *)

Definition impact (description impactText : string) (tips : list string) : Json :=
  JObj [ ("description", JStr description); ("impact", JStr impactText);
         ("tips", JArr (map JStr tips)) ].

Definition getScoreImpacts : Json :=
  JObj [
    ("profileCompleteness",
      impact "A complete profile increases visibility and credibility"
        "Affects profile visibility and professional brand scores"
        ["Add a professional headline"; "Complete work experience"; "Add relevant skills"]);
    ("postingActivity",
      impact "Regular posting keeps you visible in your network's feed"
        "Directly affects engagement quality and professional brand"
        ["Post 3-5 times per week"; "Share industry insights"; "Engage with others' content"]);
    ("engagementQuality",
      impact "High engagement indicates valuable content and strong network"
        "Influences audience relevance and mutual interactions"
        ["Ask questions in posts"; "Share personal experiences"; "Respond to comments quickly"]);
    ("networkGrowth",
      impact "Growing your network expands your reach and opportunities"
        "Affects audience relevance and engagement rate calculations"
        ["Connect with industry peers"; "Attend virtual events"; "Engage before connecting"]);
    ("audienceRelevance",
      impact "A relevant audience is more likely to engage with your content"
        "Improves engagement rate and professional brand perception"
        ["Connect with industry professionals"; "Join relevant groups"; "Share industry-specific content"]);
    ("contentDiversity",
      impact "Varied content types keep your audience engaged"
        "Enhances engagement quality and professional brand"
        ["Mix text, images, and videos"; "Share articles and insights"; "Use polls and questions"]);
    ("engagementRate",
      impact "High engagement relative to network size shows content quality"
        "Key metric for LinkedIn algorithm and visibility"
        ["Post when audience is active"; "Create conversation-starting content"; "Use relevant hashtags"]);
    ("mutualInteractions",
      impact "Engaging with others builds relationships and visibility"
        "Improves network growth and audience relevance"
        ["Like and comment on others' posts"; "Share valuable content"; "Start conversations"]);
    ("profileVisibility",
      impact "High visibility indicates strong personal brand"
        "Affects all other scores through increased exposure"
        ["Optimize profile for search"; "Use keywords in headline"; "Stay active and consistent"]);
    ("professionalBrand",
      impact "Strong professional brand attracts the right opportunities"
        "Influences all engagement and growth metrics"
        ["Define your expertise area"; "Share thought leadership"; "Maintain consistent messaging"])
  ].

(** ** The object literals returned by the aggregators, as JSON *)

Definition json_of_trend_point (p : TrendPoint.t) : Json :=
  JObj [ ("date", JStr (TrendPoint.date p));
         ("posts", JNum (TrendPoint.posts p));
         ("likes", JNum (TrendPoint.likes p));
         ("comments", JNum (TrendPoint.comments p));
         ("totalEngagement", JNum (TrendPoint.totalEngagement p)) ].

Definition json_of_growth_point (p : GrowthPoint.t) : Json :=
  JObj [ ("date", JStr (GrowthPoint.date p));
         ("totalConnections", JNum (GrowthPoint.totalConnections p));
         ("newConnections", JNum (GrowthPoint.newConnections p)) ].

Definition json_of_ranked (e : RankedEntry.t) : Json :=
  JObj [ ("name", JStr (RankedEntry.name e)); ("value", JNum (RankedEntry.value e)) ].

Definition json_of_hashtag (h : HashtagCount.t) : Json :=
  JObj [ ("hashtag", JStr (HashtagCount.hashtag h));
         ("count", JNum (HashtagCount.count h)) ].

Definition json_of_summary (s : PostSummary.t) : Json :=
  JObj [ ("postId", JStr (PostSummary.postId s));
         ("content", JStr (PostSummary.content s));
         ("likes", JNum (PostSummary.likes s));
         ("comments", JNum (PostSummary.comments s));
         ("shares", JNum (PostSummary.shares s));
         ("createdAt", JNum (PostSummary.createdAt s));
         ("totalEngagement", JNum (PostSummary.totalEngagement s)) ].

Definition json_of_message_day (d : MessageDay.t) : Json :=
  JObj [ ("date", JStr (MessageDay.date d));
         ("sent", JNum (MessageDay.sent d));
         ("received", JNum (MessageDay.received d)) ].

Definition json_of_audience (a : Audience.t) : Json :=
  JObj [ ("industries", JArr (map json_of_ranked (Audience.industries a)));
         ("positions", JArr (map json_of_ranked (Audience.positions a)));
         ("locations", JArr (map json_of_ranked (Audience.locations a))) ].

(* ================================================================== *)
(** * Upstream fetch and the request handler                          *)
(* ================================================================== *)

(** ** [URLSearchParams], for keys and values that need no escaping *)

(** Split at every [sep]; [cur] is the piece being read. *)
Fixpoint split_on (sep : ascii) (cur : string) (s : string) : list string :=
  match s with
  | EmptyString => [cur]
  | String c rest =>
      if Ascii.eqb c sep then cur :: split_on sep "" rest
      else split_on sep (cur ++ String c "")%string rest
  end.

(** Split at the first [=]. *)
Fixpoint key_value (key : string) (s : string) : string * string :=
  match s with
  | EmptyString => (key, "")
  | String c rest =>
      if Ascii.eqb c "="%char then (key, rest)
      else key_value (key ++ String c "")%string rest
  end.

(** [new URLSearchParams(text)] *)
Definition parse_params (s : string) : list (string * string) :=
  map (key_value "")
    (filter (fun piece => negb (String.eqb piece "")) (split_on "&"%char "" s)).

(** [params.toString()] *)
Definition params_toString (params : list (string * string)) : string :=
  String.concat "&" (map (fun p => (fst p ++ "=" ++ snd p)%string) params).

(** ** [fetchLinkedInData]

    The body sits in a [try]; a rejected [fetch], a status that is not
    ok and a body that does not parse all give [null]. *)
Definition fetchLinkedInData {A : Type}
    (fetch : string -> list (string * string) -> FetchResult A)
    (authorization endpoint : string) (domain : option string)
    (extraParams : string) : M (option A) :=
  let url := ("/.netlify/functions/" ++ endpoint)%string in
  let params :=
    (match domain with
     | Some d => if String.eqb d "" then [] else [("domain", d)]
     | None => []
     end)
    ++ (if String.eqb extraParams "" then [] else parse_params extraParams) in
  let query := params_toString params in
  let url := if String.eqb query "" then url else (url ++ "?" ++ query)%string in
  let headers := [("Authorization", authorization); ("LinkedIn-Version", "202312")] in
  _ <- log_request {| call_url := url; call_headers := headers |} ;;
  ret (match fetch url headers with
       | HttpJson payload => Some payload
       | NetworkError | HttpError _ | HttpBadBody => None
       end).

(** ** [handler] *)

Module Request.
Record t := {
  httpMethod : string;
  headers : Row;
  queryStringParameters : option Row
}.
End Request.

Module Response.
Record t := {
  statusCode : Z;
  headers : list (string * string);
  body : option Json
}.
End Response.

(** [growth_loop] always returns a list ([growth_loop_total]); the second
    arm is never taken. *)
Definition json_of_growth (g : option (list GrowthPoint.t)) : Json :=
  match g with
  | Some points => JArr (map json_of_growth_point points)
  | None => JNull
  end.

(** No aggregator raises on the typed inputs of this model, so the
    [catch] arm with status 500 is not part of the embedding. *)
Definition handler (rt : Runtime) (event : Request.t) : M Response.t :=
  if String.eqb (Request.httpMethod event) "OPTIONS" then
    ret {| Response.statusCode := 200;
           Response.headers :=
             [ ("Access-Control-Allow-Origin", "*");
               ("Access-Control-Allow-Headers", "Content-Type, Authorization");
               ("Access-Control-Allow-Methods", "GET, OPTIONS") ];
           Response.body := None |}
  else
    let authorization := field "authorization" (Request.headers event) in
    let timeRange :=
      match Request.queryStringParameters event with
      | Some q => match field "timeRange" q with Some r => r | None => "30d" end
      | None => "30d"
      end in
    if negb (Js.truthy authorization) then
      ret {| Response.statusCode := 401;
             Response.headers := [];
             Response.body := Some (JObj [("error", JStr "No authorization token")]) |}
    else
      let token := Js.or_default authorization "" in
      profileData <- fetchLinkedInData (fetchSnapshot rt) token "linkedin-snapshot" (Some "PROFILE") "" ;;
      connectionsData <- fetchLinkedInData (fetchSnapshot rt) token "linkedin-snapshot" (Some "CONNECTIONS") "" ;;
      postsData <- fetchLinkedInData (fetchSnapshot rt) token "linkedin-snapshot" (Some "MEMBER_SHARE_INFO") "" ;;
      changelogData <- fetchLinkedInData (fetchChangelog rt) token "linkedin-changelog" None "count=200" ;;
      skillsData <- fetchLinkedInData (fetchSnapshot rt) token "linkedin-snapshot" (Some "SKILLS") "" ;;
      positionsData <- fetchLinkedInData (fetchSnapshot rt) token "linkedin-snapshot" (Some "POSITIONS") "" ;;
      postsEngagementsTrend <- calculatePostsEngagementsTrend rt changelogData timeRange ;;
      connectionsGrowth <- calculateConnectionsGrowth rt connectionsData timeRange ;;
      let postTypesBreakdown := calculatePostTypesBreakdown changelogData in
      let topHashtags := calculateTopHashtags postsData changelogData in
      let engagementPerPost := calculateEngagementPerPost changelogData in
      messagesSentReceived <- calculateMessagesSentReceived rt changelogData ;;
      let audienceDistribution := calculateAudienceDistribution connectionsData in
      lastUpdated <- now rt ;;
      ret {| Response.statusCode := 200;
             Response.headers :=
               [ ("Content-Type", "application/json");
                 ("Access-Control-Allow-Origin", "*");
                 ("Access-Control-Allow-Headers", "Content-Type, Authorization") ];
             Response.body := Some (JObj
               [ ("postsEngagementsTrend", JArr (map json_of_trend_point postsEngagementsTrend));
                 ("connectionsGrowth", json_of_growth connectionsGrowth);
                 ("postTypesBreakdown", JArr (map json_of_ranked postTypesBreakdown));
                 ("topHashtags", JArr (map json_of_hashtag topHashtags));
                 ("engagementPerPost", JArr (map json_of_summary engagementPerPost));
                 ("messagesSentReceived", JArr (map json_of_message_day messagesSentReceived));
                 ("audienceDistribution", json_of_audience audienceDistribution);
                 ("scoreImpacts", getScoreImpacts);
                 ("timeRange", JStr timeRange);
                 ("lastUpdated", JStr (formatISO rt lastUpdated)) ]) |}.

(* ================================================================== *)
(** * A reference runtime: UTC, locale en-US                           *)
(* ================================================================== *)

(** Year, month and day of a day number counted from 1970-01-01, in the
    proleptic Gregorian calendar. *)
Definition civil_from_days (day : Z) : Z * Z * Z :=
  let z := (day + 719468)%Z in
  let era := (z / 146097)%Z in
  let doe := (z - era * 146097)%Z in
  let yoe := ((doe - doe / 1460 + doe / 36524 - doe / 146096) / 365)%Z in
  let doy := (doe - (365 * yoe + yoe / 4 - yoe / 100))%Z in
  let mp := ((5 * doy + 2) / 153)%Z in
  let d := (doy - (153 * mp + 2) / 5 + 1)%Z in
  let m := (if mp <? 10 then mp + 3 else mp - 9)%Z in
  let y := (yoe + era * 400 + (if m <=? 2 then 1 else 0))%Z in
  (y, m, d).

Definition days_from_civil (y m d : Z) : Z :=
  let y' := (if m <=? 2 then y - 1 else y)%Z in
  let era := (y' / 400)%Z in
  let yoe := (y' - era * 400)%Z in
  let mp := (if 2 <? m then m - 3 else m + 9)%Z in
  let doy := ((153 * mp + 2) / 5 + d - 1)%Z in
  let doe := (yoe * 365 + yoe / 4 - yoe / 100 + doy)%Z in
  (era * 146097 + doe - 719468)%Z.

Definition month_names : list string :=
  [ "Jan"; "Feb"; "Mar"; "Apr"; "May"; "Jun";
    "Jul"; "Aug"; "Sep"; "Oct"; "Nov"; "Dec" ].

Definition decimal (n : Z) : string :=
  NilZero.string_of_uint (N.to_uint (Z.to_N n)).

Definition pad2 (n : Z) : string :=
  if (n <? 10)%Z then ("0" ++ decimal n)%string else decimal n.

Definition pad3 (n : Z) : string :=
  if (n <? 10)%Z then ("00" ++ decimal n)%string
  else if (n <? 100)%Z then ("0" ++ decimal n)%string
  else decimal n.

(** "Jan 5" *)
Definition en_US_short (day : Z) : string :=
  let '(_, m, d) := civil_from_days day in
  (nth (Z.to_nat (m - 1)) month_names "" ++ " " ++ decimal d)%string.

(** "1/5/2024" *)
Definition en_US_date (day : Z) : string :=
  let '(y, m, d) := civil_from_days day in
  (decimal m ++ "/" ++ decimal d ++ "/" ++ decimal y)%string.

(** "2024-01-05T10:20:30.000Z" *)
Definition iso_instant (t : Z) : string :=
  let '(y, m, d) := civil_from_days (t / msPerDay) in
  let ms := (t mod msPerDay)%Z in
  (decimal y ++ "-" ++ pad2 m ++ "-" ++ pad2 d ++ "T"
   ++ pad2 (ms / 3600000) ++ ":" ++ pad2 ((ms / 60000) mod 60) ++ ":"
   ++ pad2 ((ms / 1000) mod 60) ++ "." ++ pad3 (ms mod 1000) ++ "Z")%string.

(** [new Date("M/D/YYYY")]: local midnight of that day.  Other spellings
    are not covered by this reference parser. *)
Definition parse_en_US_date (s : string) : option Z :=
  match map (Js.digits_value 0) (split_on "/"%char "" s) with
  | [Some m; Some d; Some y] =>
      if ((1 <=? Z.of_N m) && (Z.of_N m <=? 12) && (1 <=? Z.of_N d) && (Z.of_N d <=? 31))%Z
      then Some (days_from_civil (Z.of_N y) (Z.of_N m) (Z.of_N d) * msPerDay)%Z
      else None
  | _ => None
  end.

(** A runtime in UTC whose clock stands at [t] and whose upstream calls
    answer with the given payloads. *)
Definition utc_runtime (t : Z)
    (snapshots : string -> FetchResult Snapshot.t)
    (changelog : FetchResult Changelog.t) : Runtime :=
  {| tzOffset := 0;
     dayOfMonth := fun day => snd (civil_from_days day);
     formatShort := en_US_short;
     formatDefault := en_US_date;
     formatISO := iso_instant;
     parseDate := parse_en_US_date;
     clock := fun _ => t;
     fetchSnapshot := fun url _ => snapshots url;
     fetchChangelog := fun _ _ => changelog |}.

(** Every upstream call fails. *)
Definition offline (t : Z) : Runtime :=
  utc_runtime t (fun _ => NetworkError) NetworkError.

Definition world0 : World := {| tick := 0; requests := [] |}.

(** 2024-03-15T12:00:00.000Z *)
Definition noon_2024_03_15 : Z := 1710504000000.

(* ================================================================== *)
(** * Vocabulary of the properties                                    *)
(* ================================================================== *)

(** Number of elements that satisfy [p]. *)
Definition count_where {A : Type} (p : A -> bool) (l : list A) : Z :=
  Z_length (filter p l).

(** Number of occurrences of a token. *)
Definition occurrences (k : string) (tokens : list string) : Z :=
  count_where (String.eqb k) tokens.

(** Position of the first occurrence of [k], the length if there is none. *)
Fixpoint first_seen (names : list string) (k : string) : nat :=
  match names with
  | [] => O
  | n :: rest => if String.eqb k n then O else S (first_seen rest k)
  end.

Section Ranking.
Variable A : Type.
Variable key : A -> string.
Variable cnt : A -> Z.

(** Sorted by count, largest first. *)
Definition non_increasing (out : list A) : Prop :=
  forall i j a b, (i < j)%nat ->
    nth_error out i = Some a -> nth_error out j = Some b ->
    (cnt b <= cnt a)%Z.

End Ranking.

(** [x] stands somewhere in front of [y]. *)
Definition before {A : Type} (l : list A) (x y : A) : Prop :=
  exists l1 l2 l3, l = l1 ++ x :: l2 ++ y :: l3.

(** Every hashtag occurrence of both sources, snapshot first. *)
Definition all_hashtags (postsData : option Snapshot.t)
    (changelogData : option Changelog.t) : list string :=
  flat_map (fun post => Js.match_hashtags (snapshot_commentary post))
    (snapshot_rows postsData)
  ++ flat_map (fun post => Js.match_hashtags (changelog_commentary post))
       (changelog_posts changelogData).

(** Index of the first bucket that carries [label]. *)
Fixpoint route (labels : list string) (label : string) : option nat :=
  match labels with
  | [] => None
  | l :: rest =>
      if String.eqb l label then Some O else option_map S (route rest label)
  end.

Definition routed_to (labels : list string) (i : nat) (label : string) : bool :=
  match route labels label with
  | Some j => Nat.eqb j i
  | None => false
  end.

(** The clock readings [lo, lo + n) all fall on the local day [today]. *)
Definition same_day (rt : Runtime) (today : Z) (lo n : nat) : Prop :=
  forall k, (lo <= k < lo + n)%nat -> dayOf rt (clock rt k) = today.

(** The [n] consecutive local days that end with [today], oldest first. *)
Definition days_until (today : Z) (n : nat) : list Z :=
  map (fun j => (today - Z.of_nat (n - 1 - j))%Z) (seq 0 n).

(** A dictionary that holds exactly the tally of [names]: one entry per
    distinct name, in first-seen order, with its number of occurrences. *)
Definition tallied (names : list string) (o : Js.Obj Z) : Prop :=
  NoDup (map fst o)
  /\ (forall k c, In (k, c) o -> c = occurrences k names /\ In k names)
  /\ (forall k, In k names -> In k (map fst o))
  /\ (forall k1 k2, before (map fst o) k1 k2 ->
        (first_seen names k1 < first_seen names k2)%nat).

(** Every character is a word character. *)
Fixpoint all_word (s : string) : bool :=
  match s with
  | EmptyString => true
  | String c rest => Js.is_word c && all_word rest
  end.

(** The values tallied by the audience distribution for one field. *)
Definition audience_names (fieldName : string)
    (connectionsData : option Snapshot.t) : list string :=
  map (audience_key fieldName) (snapshot_rows connectionsData).


(* ================================================================== *)
(** * Sample inputs                                                   *)
(* ================================================================== *)

Definition me : string := "urn:li:person:me".
Definition peer : string := "urn:li:person:peer".

Definition commentary (s : string) : option Activity :=
  Some {| object := None;
          specificContent := Some {| shareContent := Some
            {| media := None; shareCommentary := Some {| text := Some s |} |} |} |}.

Definition post_event (id : string) (t : Z) (content : option Activity) : Event :=
  {| resourceName := "ugcPosts"; method := "CREATE"; capturedAt := t;
     actor := Some me; owner := Some me; resourceId := id; activity := content |}.

Definition reaction_event (kind id target : string) (t : Z) : Event :=
  {| resourceName := kind; method := "CREATE"; capturedAt := t;
     actor := Some peer; owner := Some me; resourceId := id;
     activity := Some {| object := Some target; specificContent := None |} |}.

Definition message_event (id : string) (from : option string) (t : Z) : Event :=
  {| resourceName := "messages"; method := "CREATE"; capturedAt := t;
     actor := from; owner := Some me; resourceId := id; activity := None |}.

Definition changelog_of (events : list Event) : option Changelog.t :=
  Some {| Changelog.elements := Some events |}.

Definition snapshot_of (rows : list Row) : option Snapshot.t :=
  Some {| Snapshot.elements := Some [ {| Snapshot.snapshotData := Some rows |} ] |}.

(** Two legacy posts and one changelog post that share a hashtag. *)
Definition tagged_posts : option Snapshot.t :=
  snapshot_of [ [("ShareCommentary", "Launch day #rocq #proofs")];
                [("ShareCommentary", "Notes on #rocq, again #rocq")] ].

Definition tagged_changelog : option Changelog.t :=
  changelog_of [ post_event "urn:li:share:1" noon_2024_03_15
                   (commentary "Slides are up #proofs") ].


(** Connections with ordinary field values; the second has no industry. *)
Definition plain_connections : option Snapshot.t :=
  snapshot_of [ [("Industry", "Software"); ("Position", "Engineer"); ("Location", "Paris")];
                [("Position", "Engineer"); ("Location", "Berlin")];
                [("Industry", "Software"); ("Position", "Designer"); ("Location", "Paris")] ].

(** The state of a post's media as the classifier looks at it. *)
Definition first_media (post : Event) : option MediaItem :=
  match share_content post with
  | Some c => match media c with Some (first :: _) => Some first | _ => None end
  | None => None
  end.

Definition text_has_link (post : Event) : bool :=
  match commentary_text (share_content post) with
  | Some t => Js.includes t "http"
  | None => false
  end.

(** The type the classifier reads off a media item: the declared type, or
    ["IMAGE"] when none is declared. *)
Definition effective_type (item : MediaItem) : string :=
  Js.or_default (mediaType item) "IMAGE".

(** The declared type contains [s]; an undeclared type contains nothing. *)
Definition declared_type_contains (item : MediaItem) (s : string) : bool :=
  match mediaType item with
  | Some t => Js.includes t s
  | None => false
  end.

(** The rule in the words of the specification: it inspects the declared
    type of the first media item. *)
Definition classify_as_stated (post : Event) : PostType :=
  match first_media post with
  | Some first =>
      if declared_type_contains first "VIDEO" then Video
      else if declared_type_contains first "IMAGE" then Image
      else ExternalLink
  | None => if text_has_link post then ExternalLink else TextOnly
  end.

Definition type_eqb (a b : PostType) : bool :=
  match a, b with
  | TextOnly, TextOnly | Image, Image | Video, Video
  | Article, Article | ExternalLink, ExternalLink => true
  | _, _ => false
  end.

Definition all_types : list PostType :=
  [TextOnly; Image; Video; Article; ExternalLink].

(** Number of posts that the classifier puts into [ty]. *)
Definition classified_as (ty : PostType) (posts : list Event) : Z :=
  count_where (fun post => type_eqb (classify post) ty) posts.

(** A post with one media item that declares no type. *)
Definition untyped_media_post : Event :=
  post_event "urn:li:share:7" noon_2024_03_15
    (Some {| object := None;
             specificContent := Some {| shareContent := Some
               {| media := Some [ {| mediaType := None |} ];
                  shareCommentary := Some {| text := Some "Team photo" |} |} |} |}).

(** A video, a link in plain text and a plain text post, with a like in
    between. *)
Definition mixed_changelog : option Changelog.t :=
  changelog_of
    [ post_event "urn:li:share:1" noon_2024_03_15
        (Some {| object := None;
                 specificContent := Some {| shareContent := Some
                   {| media := Some [ {| mediaType := Some "urn:li:VIDEO" |} ];
                      shareCommentary := None |} |} |});
      reaction_event "socialActions/likes" "urn:li:like:1" "urn:li:share:1"
        noon_2024_03_15;
      post_event "urn:li:share:2" noon_2024_03_15
        (commentary "Read this: https://example.org");
      post_event "urn:li:share:3" noon_2024_03_15 (commentary "Hello");
      untyped_media_post ].

(** [e] names the post [id] as the object of its activity. *)
Definition refers_to (id : string) (e : Event) : bool :=
  same_id (activity_object e) (Some id).

(** Number of [kind] CREATE events that refer to the post [id]. *)
Definition engagements (kind id : string) (events : list Event) : Z :=
  count_where (fun e => is_create kind e && refers_to id e) events.

(** What the join credits to a post: the empty identifier never gets
    anything. *)
Definition credited (kind id : string) (events : list Event) : Z :=
  if String.eqb id "" then 0%Z else engagements kind id events.

(** An event that is no post creation and whose object, if any, is not the
    identifier of a post created in [events]. *)
Definition orphan (events : list Event) (e : Event) : bool :=
  negb (is_post_create e)
  && match activity_object e with
     | Some id =>
         negb (existsb (fun p => is_post_create p && String.eqb (resourceId p) id)
                 events)
     | None => true
     end.

(** Identifiers used as dictionary keys stay clear of [Object.prototype]. *)
Definition plain_ids (events : list Event) : Prop :=
  Forall (fun e =>
    Js.plain_key (resourceId e)
    /\ match activity_object e with
       | Some id => Js.plain_key id
       | None => True
       end) events.

(** The state of the join after the events [seen]: one record per seeded
    post, carrying what the events credit to it. *)
Definition joined (seen : list Event) (m : Js.Obj PostEngagement.t) : Prop :=
  NoDup (map fst m)
  /\ forall k v, In (k, v) m ->
       PostEngagement.postId v = k
       /\ PostEngagement.likes v = credited "socialActions/likes" k seen
       /\ PostEngagement.comments v = credited "socialActions/comments" k seen
       /\ PostEngagement.shares v = credited "socialActions/shares" k seen.

(** A post with an empty identifier and a like that names it. *)
Definition unnamed_post_changelog : list Event :=
  [ post_event "" noon_2024_03_15 (commentary "Hello");
    reaction_event "socialActions/likes" "urn:li:like:1" "" noon_2024_03_15 ].

(** One post, two likes for it on the next day, and a like for a post
    that the changelog does not contain. *)
Definition liked_post_changelog : list Event :=
  [ post_event "urn:li:share:1" noon_2024_03_15 (commentary "Hello #rocq");
    reaction_event "socialActions/likes" "urn:li:like:1" "urn:li:share:1"
      (noon_2024_03_15 + msPerDay);
    reaction_event "socialActions/likes" "urn:li:like:2" "urn:li:share:1"
      (noon_2024_03_15 + msPerDay);
    reaction_event "socialActions/likes" "urn:li:like:3" "urn:li:share:9"
      (noon_2024_03_15 + msPerDay) ].

(** One round of a loop that routes an event to the first bucket with its
    label and updates that bucket. *)
Definition bucket_step {A : Type} (key : A -> string) (label_of : Event -> string)
    (g : Event -> A -> A) (l : list A) (e : Event) : list A :=
  bump_day key (label_of e) (g e) l.

(** The label under which the trend looks for an event's bucket. *)
Definition short_label (rt : Runtime) (e : Event) : string :=
  toShortDateString rt (Some (capturedAt e)).

(** Number of [kind] CREATE events that land in bucket [i] of a series
    whose buckets carry [labels]. *)
Definition day_events (rt : Runtime) (labels : list string) (i : nat)
    (kind : string) (events : list Event) : Z :=
  count_where
    (fun e => routed_to labels i (short_label rt e) && is_create kind e) events.

(** A share of an older post, captured at the reference instant. *)
Definition share_today : option Changelog.t :=
  changelog_of
    [ reaction_event "socialActions/shares" "urn:li:share:5" "urn:li:share:1"
        noon_2024_03_15 ].

(** The label under which the message series looks for an event's day. *)
Definition locale_label (rt : Runtime) (e : Event) : string :=
  toLocaleDateString rt (Some (capturedAt e)).

(** [Date.now() - 30 days], read from the clock of the world [w]. *)
Definition message_cutoff (rt : Runtime) (w : World) : Z :=
  (clock rt (tick w) - 30 * 24 * 60 * 60 * 1000)%Z.

(** The day keys of the thirty message buckets. *)
Definition message_keys (rt : Runtime) (w : World) : list string :=
  map MessageDay.date
    (fst (date_range rt (empty_message_day rt) 30
            {| tick := S (tick w); requests := requests w |})).



(** The six upstream requests of one run, in the order they are issued. *)
Definition upstream_urls : list string :=
  [ "/.netlify/functions/linkedin-snapshot?domain=PROFILE";
    "/.netlify/functions/linkedin-snapshot?domain=CONNECTIONS";
    "/.netlify/functions/linkedin-snapshot?domain=MEMBER_SHARE_INFO";
    "/.netlify/functions/linkedin-changelog?count=200";
    "/.netlify/functions/linkedin-snapshot?domain=SKILLS";
    "/.netlify/functions/linkedin-snapshot?domain=POSITIONS" ].

(** The fields of the analytics object. *)
Definition analytics_fields : list string :=
  [ "postsEngagementsTrend"; "connectionsGrowth"; "postTypesBreakdown";
    "topHashtags"; "engagementPerPost"; "messagesSentReceived";
    "audienceDistribution"; "scoreImpacts"; "timeRange"; "lastUpdated" ].

Definition unauthorized : Response.t :=
  {| Response.statusCode := 401;
     Response.headers := [];
     Response.body := Some (JObj [("error", JStr "No authorization token")]) |}.

Definition get_request (headers : Row) (range : option string) : Request.t :=
  {| Request.httpMethod := "GET";
     Request.headers := headers;
     Request.queryStringParameters :=
       match range with
       | Some r => Some [("timeRange", r)]
       | None => None
       end |}.




(** The URL that [fetchLinkedInData] asks for. *)
Definition request_url (endpoint : string) (domain : option string)
    (extraParams : string) : string :=
  let url := ("/.netlify/functions/" ++ endpoint)%string in
  let params :=
    (match domain with
     | Some d => if String.eqb d "" then [] else [("domain", d)]
     | None => []
     end)
    ++ (if String.eqb extraParams "" then [] else parse_params extraParams) in
  let query := params_toString params in
  if String.eqb query "" then url else (url ++ "?" ++ query)%string.

(** The headers that [fetchLinkedInData] sends. *)
Definition request_headers (authorization : string) : list (string * string) :=
  [("Authorization", authorization); ("LinkedIn-Version", "202312")].

(* ================================================================== *)
(** * Vocabulary of the further properties                            *)
(* ================================================================== *)

(** Sum of a list of counters. *)
Definition total (l : list Z) : Z := fold_right Z.add 0%Z l.

(** Number of connections filed under [name] for the field [fieldName];
    a missing or empty field files the connection under ["Unknown"]. *)
Definition rows_with (fieldName name : string) (rows : list Row) : Z :=
  count_where (fun conn => String.eqb name (audience_key fieldName conn)) rows.

(** The list that the audience distribution reports for a field. *)
Definition audience_list (fieldName : string) (a : Audience.t)
    : list RankedEntry.t :=
  if String.eqb fieldName "Industry" then Audience.industries a
  else if String.eqb fieldName "Position" then Audience.positions a
  else Audience.locations a.

Definition audience_fields : list string := ["Industry"; "Position"; "Location"].

(** The text that the engagement ranking starts from for a post. *)
Definition post_text (post : Event) : string :=
  Js.or_default (commentary_text (share_content post)) "Post content".

(** Everything the join credits to a post. *)
Definition credited_total (id : string) (events : list Event) : Z :=
  (credited "socialActions/likes" id events
   + credited "socialActions/comments" id events
   + credited "socialActions/shares" id events)%Z.

(** The record of a post was seeded from one of its creation events and
    kept that event's identifier, text and capture time. *)
Definition seeded_from (events : list Event) (v : PostEngagement.t) : Prop :=
  exists p, In p events /\ is_post_create p = true
            /\ PostEngagement.postId v = resourceId p
            /\ PostEngagement.content v = post_text p
            /\ PostEngagement.createdAt v = capturedAt p.

(** A post whose text has 60 characters. *)
Definition long_post_changelog : list Event :=
  [ post_event "urn:li:share:4" noon_2024_03_15
      (commentary "0123456789012345678901234567890123456789012345678901234567890") ;
    post_event "urn:li:share:5" noon_2024_03_15 None ].

(** The day labels of the trend buckets, as built from the clock of [w]. *)
Definition trend_keys (rt : Runtime) (timeRange : string) (w : World)
    : list string :=
  map DayBucket.date
    (fst (date_range rt (empty_day rt) (days_of_range timeRange) w)).

(** Some bucket carries [label]. *)
Definition has_label (labels : list string) (label : string) : bool :=
  existsb (String.eqb label) labels.

(** The event is one of the four kinds that the trend counts. *)
Definition trend_kind (e : Event) : bool :=
  is_create "ugcPosts" e || is_create "socialActions/likes" e
  || is_create "socialActions/comments" e || is_create "socialActions/shares" e.

(** The event is a like, a comment or a share. *)
Definition engagement_kind (e : Event) : bool :=
  is_create "socialActions/likes" e
  || is_create "socialActions/comments" e || is_create "socialActions/shares" e.

(** A post of last year's March 15 next to one of this year's. *)
Definition anniversary_changelog : list Event :=
  [ post_event "urn:li:share:1" noon_2024_03_15 (commentary "Today");
    post_event "urn:li:share:0" (noon_2024_03_15 - 366 * msPerDay)
      (commentary "A year ago");
    reaction_event "socialActions/comments" "urn:li:comment:1" "urn:li:share:1"
      (noon_2024_03_15 - msPerDay);
    reaction_event "socialActions/likes" "urn:li:like:9" "urn:li:share:1"
      (noon_2024_03_15 - 40 * msPerDay);
    message_event "urn:li:msg:1" (Some peer) noon_2024_03_15 ].

(** Running totals of a list of counters, starting from [acc]. *)
Fixpoint prefix_sums (acc : Z) (l : list Z) : list Z :=
  match l with
  | [] => []
  | x :: rest => (acc + x)%Z :: prefix_sums (acc + x)%Z rest
  end.

(** The first day of the growth series, as an instant. *)
Definition growth_start (rt : Runtime) (timeRange : string) (w : World) : Z :=
  setDate rt (clock rt (S (tick w)))
    (getDate rt (clock rt (tick w)) - Z.of_nat (days_of_range timeRange)).

(** The connection has a date and it falls on the local day of [d]. *)
Definition connected_on_day (rt : Runtime) (d : Z) (conn : Row) : bool :=
  Js.truthy (connected_on conn)
  && String.eqb (toLocaleDateString rt (connection_date rt conn))
       (toLocaleDateString rt (Some d)).

(** Three connections made in March 2024, one undated, one made in 2023. *)
Definition dated_connections : option Snapshot.t :=
  snapshot_of [ [("First Name", "Ada"); ("Connected On", "3/14/2024")];
                [("First Name", "Lin"); ("connectedOn", "3/10/2024")];
                [("First Name", "Sam")];
                [("First Name", "Kim"); ("Connected On", "3/14/2024")];
                [("First Name", "Joe"); ("Connected On", "1/5/2023")] ].

(** What [fetchLinkedInData] makes of an upstream answer. *)
Definition fetched {A : Type} (r : FetchResult A) : option A :=
  match r with
  | HttpJson payload => Some payload
  | NetworkError | HttpError _ | HttpBadBody => None
  end.

(** The answer to the snapshot request for [domain], as the handler sees
    it when it holds [token]. *)
Definition snapshot_answer (rt : Runtime) (token domain : string)
    : option Snapshot.t :=
  fetched (fetchSnapshot rt
             (request_url "linkedin-snapshot" (Some domain) "")
             (request_headers token)).

(** The answer to the changelog request. *)
Definition changelog_answer (rt : Runtime) (token : string)
    : option Changelog.t :=
  fetched (fetchChangelog rt
             (request_url "linkedin-changelog" None "count=200")
             (request_headers token)).

(** The [timeRange] that the handler works with. *)
Definition requested_range (event : Request.t) : string :=
  match Request.queryStringParameters event with
  | Some q => match field "timeRange" q with Some r => r | None => "30d" end
  | None => "30d"
  end.

(** The same runtime with other answers to the snapshot requests. *)
Definition with_snapshots (rt : Runtime)
    (answers : string -> list (string * string) -> FetchResult Snapshot.t)
    : Runtime :=
  {| tzOffset := tzOffset rt;
     dayOfMonth := dayOfMonth rt;
     formatShort := formatShort rt;
     formatDefault := formatDefault rt;
     formatISO := formatISO rt;
     parseDate := parseDate rt;
     clock := clock rt;
     fetchSnapshot := answers;
     fetchChangelog := fetchChangelog rt |}.

(** The world after the upstream requests of a run that holds [token]. *)
Definition after_requests (token : string) (w : World) : World :=
  {| tick := tick w;
     requests := requests w
       ++ map (fun url => {| call_url := url;
                             call_headers := request_headers token |})
            upstream_urls |}.

(** The analytics object and the final world of an authorized run, in
    terms of the upstream answers. *)
Definition analytics_run (rt : Runtime) (token timeRange : string) (w : World)
    : list (string * Json) * World :=
  let log := changelog_answer rt token in
  let connections := snapshot_answer rt token "CONNECTIONS" in
  let posts := snapshot_answer rt token "MEMBER_SHARE_INFO" in
  let trend :=
    calculatePostsEngagementsTrend rt log timeRange (after_requests token w) in
  let growth := calculateConnectionsGrowth rt connections timeRange (snd trend) in
  let messages := calculateMessagesSentReceived rt log (snd growth) in
  ([ ("postsEngagementsTrend", JArr (map json_of_trend_point (fst trend)));
     ("connectionsGrowth", json_of_growth (fst growth));
     ("postTypesBreakdown", JArr (map json_of_ranked (calculatePostTypesBreakdown log)));
     ("topHashtags", JArr (map json_of_hashtag (calculateTopHashtags posts log)));
     ("engagementPerPost", JArr (map json_of_summary (calculateEngagementPerPost log)));
     ("messagesSentReceived", JArr (map json_of_message_day (fst messages)));
     ("audienceDistribution",
        json_of_audience (calculateAudienceDistribution connections));
     ("scoreImpacts", getScoreImpacts);
     ("timeRange", JStr timeRange);
     ("lastUpdated", JStr (formatISO rt (clock rt (tick (snd messages))))) ],
   {| tick := S (tick (snd messages)); requests := requests (snd messages) |}).

Definition ok_response (fields : list (string * Json)) : Response.t :=
  {| Response.statusCode := 200;
     Response.headers :=
       [ ("Content-Type", "application/json");
         ("Access-Control-Allow-Origin", "*");
         ("Access-Control-Allow-Headers", "Content-Type, Authorization") ];
     Response.body := Some (JObj fields) |}.

(** A runtime whose changelog request fails while the snapshots answer. *)
Definition changelog_down : Runtime :=
  utc_runtime noon_2024_03_15
    (fun url =>
       if String.eqb url "/.netlify/functions/linkedin-snapshot?domain=CONNECTIONS"
       then match plain_connections with
            | Some d => HttpJson d
            | None => HttpBadBody
            end
       else HttpError 404)
    (HttpError 500).

Definition token_request : Request.t :=
  get_request [("authorization", "Bearer abc")] (Some "7d").

(** The answer to a CORS preflight. *)
Definition preflight : Response.t :=
  {| Response.statusCode := 200;
     Response.headers :=
       [ ("Access-Control-Allow-Origin", "*");
         ("Access-Control-Allow-Headers", "Content-Type, Authorization");
         ("Access-Control-Allow-Methods", "GET, OPTIONS") ];
     Response.body := None |}.

(* ================================================================== *)
(** * Lists, sorting and dictionaries                                 *)
(* ================================================================== *)

Lemma Z_length_nil (A : Type) : Z_length (@nil A) = 0%Z.
Proof. reflexivity. Qed.

Lemma Z_length_cons (A : Type) (x : A) (l : list A) :
  Z_length (x :: l) = (Z_length l + 1)%Z.
Proof. unfold Z_length; simpl List.length; lia. Qed.

Lemma Z_length_nonneg (A : Type) (l : list A) : (0 <= Z_length l)%Z.
Proof. unfold Z_length; lia. Qed.

Lemma count_where_cons (A : Type) (p : A -> bool) (x : A) (l : list A) :
  count_where p (x :: l)
  = (count_where p l + if p x then 1 else 0)%Z.
Proof.
  unfold count_where; simpl; destruct (p x).
  - apply Z_length_cons.
  - lia.
Qed.

Lemma count_where_app (A : Type) (p : A -> bool) (l1 l2 : list A) :
  count_where p (l1 ++ l2) = (count_where p l1 + count_where p l2)%Z.
Proof.
  unfold count_where, Z_length; rewrite filter_app, length_app; lia.
Qed.

Lemma count_where_nonneg (A : Type) (p : A -> bool) (l : list A) :
  (0 <= count_where p l)%Z.
Proof. apply Z_length_nonneg. Qed.

(** ** Order of appearance *)






(** ** The stable sort *)

Section SortFacts.
Variable A : Type.
Variable cmp : A -> A -> Z.

Lemma insert_perm (x : A) (l : list A) : Permutation (Js.insert cmp x l) (x :: l).
Proof.
  induction l as [|y l IH]; simpl.
  - apply Permutation_refl.
  - destruct (cmp x y <=? 0)%Z.
    + apply Permutation_refl.
    + eapply perm_trans; [apply perm_skip, IH | apply perm_swap].
Qed.

Lemma sort_perm (l : list A) : Permutation (Js.sort cmp l) l.
Proof.
  induction l as [|x l IH]; simpl.
  - apply perm_nil.
  - eapply perm_trans; [apply insert_perm | apply perm_skip, IH].
Qed.

Lemma sort_In (l : list A) (x : A) : In x (Js.sort cmp l) <-> In x l.
Proof.
  split; apply Permutation_in; [|apply Permutation_sym]; apply sort_perm.
Qed.

Lemma sort_length (l : list A) : List.length (Js.sort cmp l) = List.length l.
Proof. apply Permutation_length, sort_perm. Qed.



Hypothesis cmp_total : forall a b, (cmp a b <= 0)%Z \/ (cmp b a <= 0)%Z.
Hypothesis cmp_trans :
  forall a b c, (cmp a b <= 0)%Z -> (cmp b c <= 0)%Z -> (cmp a c <= 0)%Z.

Lemma insert_sorted (x : A) (l : list A) :
  StronglySorted (fun a b => (cmp a b <= 0)%Z) l ->
  StronglySorted (fun a b => (cmp a b <= 0)%Z) (Js.insert cmp x l).
Proof.
  induction 1 as [|y l Hs IH Hy]; simpl.
  - constructor; constructor.
  - destruct (cmp x y <=? 0)%Z eqn:Hc.
    + apply Z.leb_le in Hc.
      constructor; [constructor; assumption|].
      constructor; [exact Hc|].
      eapply Forall_impl; [|exact Hy]; intros z Hz; eapply cmp_trans; eassumption.
    + apply Z.leb_gt in Hc.
      constructor; [exact IH|].
      rewrite Forall_forall; intros z Hz.
      apply (Permutation_in _ (insert_perm x l)) in Hz.
      destruct Hz as [<-|Hz].
      * destruct (cmp_total y x); [assumption|lia].
      * rewrite Forall_forall in Hy; auto.
Qed.

Lemma sort_sorted (l : list A) :
  StronglySorted (fun a b => (cmp a b <= 0)%Z) (Js.sort cmp l).
Proof.
  induction l; simpl; [constructor | apply insert_sorted; assumption].
Qed.
End SortFacts.

Lemma in_firstn (A : Type) (n : nat) (l : list A) (x : A) :
  In x (firstn n l) -> In x l.
Proof.
  revert l; induction n as [|n IH]; intros [|y l]; simpl; try tauto.
  intros [H|H]; [left; exact H | right; apply IH, H].
Qed.

Lemma sorted_firstn (A : Type) (R : A -> A -> Prop) (n : nat) (l : list A) :
  StronglySorted R l -> StronglySorted R (firstn n l).
Proof.
  intros H; revert n; induction H as [|x l Hs IH Hx]; intros [|n]; simpl;
    try constructor.
  - apply IH.
  - rewrite Forall_forall in *; intros y Hy; apply Hx.
    eapply in_firstn; eassumption.
Qed.

Lemma sorted_nth (A : Type) (R : A -> A -> Prop) (l : list A) :
  StronglySorted R l ->
  forall i j a b, (i < j)%nat ->
    nth_error l i = Some a -> nth_error l j = Some b -> R a b.
Proof.
  induction 1 as [|x l Hs IH Hx]; intros i j a b Hij Hi Hj.
  - destruct i; discriminate.
  - destruct j as [|j]; [lia|]. simpl in Hj.
    destruct i as [|i]; simpl in Hi.
    + injection Hi as <-. rewrite Forall_forall in Hx.
      apply Hx; eapply nth_error_In; eassumption.
    + apply (IH i j); auto; lia.
Qed.

(** ** Dictionaries *)

Section ObjFacts.
Variable V : Type.
Implicit Types (o : Js.Obj V) (k : string) (v : V).

Lemma get_None o k : Js.get k o = None <-> ~ In k (map fst o).
Proof.
  induction o as [|[k' v'] o IH]; simpl.
  - tauto.
  - destruct (String.eqb_spec k k') as [->|Hne].
    + split; [discriminate | intros H; exfalso; apply H; left; reflexivity].
    + rewrite IH; split; [intros H [E|I]; [congruence | tauto] | tauto].
Qed.

Lemma get_In o k v : Js.get k o = Some v -> In (k, v) o.
Proof.
  induction o as [|[k' v'] o IH]; simpl; [discriminate|].
  destruct (String.eqb_spec k k') as [->|Hne].
  - intros [= ->]; left; reflexivity.
  - intros H; right; apply IH, H.
Qed.

Lemma In_get o k v : NoDup (map fst o) -> In (k, v) o -> Js.get k o = Some v.
Proof.
  induction o as [|[k' v'] o IH]; simpl; [tauto|].
  intros Hnd [E|I]; inversion_clear Hnd as [|? ? Hk Hnd'].
  - injection E as -> ->; rewrite String.eqb_refl; reflexivity.
  - destruct (String.eqb_spec k k') as [->|Hne].
    + exfalso; apply Hk; change k' with (fst (k', v)); apply in_map, I.
    + apply IH; assumption.
Qed.

Lemma set_present o k v :
  In k (map fst o) -> map fst (Js.set k v o) = map fst o.
Proof.
  induction o as [|[k' v'] o IH]; simpl; [tauto|].
  destruct (String.eqb_spec k k') as [->|Hne]; simpl; [reflexivity|].
  intros [E|I]; [congruence|]; rewrite IH by exact I; reflexivity.
Qed.

Lemma set_fresh o k v : ~ In k (map fst o) -> Js.set k v o = o ++ [(k, v)].
Proof.
  induction o as [|[k' v'] o IH]; simpl; [reflexivity|].
  destruct (String.eqb_spec k k') as [->|Hne]; [tauto|].
  intros H; rewrite IH by tauto; reflexivity.
Qed.

Lemma In_set o k v k' v' :
  NoDup (map fst o) -> In (k', v') (Js.set k v o) ->
  (k' = k /\ v' = v) \/ (k' <> k /\ In (k', v') o).
Proof.
  induction o as [|[k0 v0] o IH]; simpl.
  - intros _ [[= <- <-]|[]]; left; split; reflexivity.
  - intros Hnd; inversion_clear Hnd as [|? ? Hk Hnd'].
    destruct (String.eqb_spec k k0) as [->|Hne]; simpl.
    + intros [[= <- <-]|I]; [left; split; reflexivity|].
      right; split; [|right; exact I].
      intros ->; apply Hk; change k0 with (fst (k0, v')); apply in_map, I.
    + intros [[= <- <-]|I]; [right; split; [congruence | left; reflexivity]|].
      destruct (IH Hnd' I) as [?|[? ?]]; [left; assumption | right; split; auto].
Qed.

Lemma update_keys o k (f : V -> V) : map fst (Js.update k f o) = map fst o.
Proof.
  induction o as [|[k' v'] o IH]; simpl; [reflexivity|].
  destruct (String.eqb k k'); simpl; [reflexivity | rewrite IH; reflexivity].
Qed.

Lemma get_update_same o k (f : V -> V) :
  Js.get k (Js.update k f o) = option_map f (Js.get k o).
Proof.
  induction o as [|[k' v'] o IH]; simpl; [reflexivity|].
  destruct (String.eqb k k') eqn:E; simpl; rewrite E; [reflexivity | exact IH].
Qed.

Lemma get_update_other o k k' (f : V -> V) :
  k' <> k -> Js.get k' (Js.update k f o) = Js.get k' o.
Proof.
  intros Hne; induction o as [|[k0 v0] o IH]; simpl; [reflexivity|].
  destruct (String.eqb_spec k k0) as [->|Hk]; simpl.
  - destruct (String.eqb_spec k' k0); [congruence | reflexivity].
  - destruct (String.eqb k' k0); [reflexivity | exact IH].
Qed.

(** Enumeration only reorders. *)
Lemma entries_perm o : Permutation (Js.entries o) o.
Proof.
  unfold Js.entries.
  eapply perm_trans; [apply Permutation_app_tail, sort_perm|].
  induction o as [|e o IH]; simpl; [apply perm_nil|].
  destruct (Js.is_index (fst e)); simpl.
  - apply perm_skip, IH.
  - eapply perm_trans; [apply Permutation_sym, Permutation_middle|].
    apply perm_skip, IH.
Qed.

Lemma entries_In o e : In e (Js.entries o) <-> In e o.
Proof.
  split; apply Permutation_in; [|apply Permutation_sym]; apply entries_perm.
Qed.

(** Without integer-like keys enumeration is insertion order. *)
Lemma entries_insertion_order o :
  (forall k, In k (map fst o) -> Js.is_index k = false) -> Js.entries o = o.
Proof.
  intros H; unfold Js.entries.
  assert (E1 : filter (fun e => Js.is_index (fst e)) o = []).
  { induction o as [|e o IH]; [reflexivity|]; simpl.
    rewrite (H (fst e)) by (left; reflexivity).
    apply IH; intros k Hk; apply H; right; exact Hk. }
  assert (E2 : filter (fun e => negb (Js.is_index (fst e))) o = o).
  { induction o as [|e o IH]; [reflexivity|]; simpl.
    rewrite (H (fst e)) by (left; reflexivity); simpl; f_equal.
    apply IH; [intros k Hk; apply H; right; exact Hk|].
    simpl in E1; rewrite (H (fst e)) in E1 by (left; reflexivity); exact E1. }
  rewrite E1, E2; reflexivity.
Qed.
End ObjFacts.

(** ** First occurrences and occurrence counts *)

Lemma first_seen_app names l k :
  In k names -> first_seen (names ++ l) k = first_seen names k.
Proof.
  induction names as [|n names IH]; simpl; [tauto|].
  destruct (String.eqb_spec k n) as [->|Hne]; [reflexivity|].
  intros [E|I]; [congruence | rewrite IH by exact I; reflexivity].
Qed.

Lemma first_seen_bound names k :
  In k names -> (first_seen names k < List.length names)%nat.
Proof.
  induction names as [|n names IH]; simpl; [tauto|].
  destruct (String.eqb_spec k n) as [->|Hne]; [lia|].
  intros [E|I]; [congruence | specialize (IH I); lia].
Qed.

Lemma first_seen_fresh names k :
  ~ In k names -> first_seen (names ++ [k]) k = List.length names.
Proof.
  induction names as [|n names IH]; simpl.
  - rewrite String.eqb_refl; reflexivity.
  - destruct (String.eqb_spec k n) as [->|Hne]; [tauto|].
    intros H; rewrite IH by tauto; reflexivity.
Qed.

Lemma occurrences_snoc k k' names :
  occurrences k (names ++ [k'])
  = (occurrences k names + if String.eqb k k' then 1 else 0)%Z.
Proof.
  unfold occurrences; rewrite count_where_app, count_where_cons.
  change (count_where (String.eqb k) []) with 0%Z; lia.
Qed.

Lemma occurrences_pos k names : In k names -> (0 < occurrences k names)%Z.
Proof.
  induction names as [|n names IH]; simpl; [tauto|].
  unfold occurrences in *; rewrite count_where_cons.
  destruct (String.eqb_spec k n) as [->|Hne].
  - intros _; pose proof (count_where_nonneg (String.eqb n) names); lia.
  - intros [E|I]; [congruence | specialize (IH I); lia].
Qed.

Lemma occurrences_zero k names : ~ In k names -> occurrences k names = 0%Z.
Proof.
  induction names as [|n names IH]; simpl; [reflexivity|].
  unfold occurrences in *; rewrite count_where_cons.
  destruct (String.eqb_spec k n) as [->|Hne]; [tauto|].
  intros H; rewrite IH by tauto; reflexivity.
Qed.

Lemma before_snoc (A : Type) (l : list A) (x a b : A) :
  before (l ++ [x]) a b -> before l a b \/ (In a l /\ b = x).
Proof.
  intros (l1 & l2 & l3 & H).
  destruct l3 as [|z l3 _] using rev_ind.
  - right.
    replace (l1 ++ a :: l2 ++ [b]) with ((l1 ++ a :: l2) ++ [b]) in H
      by (rewrite <- app_assoc; reflexivity).
    apply app_inj_tail in H; destruct H as [-> ->].
    split; [apply in_or_app; right; left|]; reflexivity.
  - left.
    replace (l1 ++ a :: l2 ++ b :: l3 ++ [z])
      with ((l1 ++ a :: l2 ++ b :: l3) ++ [z]) in H
      by (rewrite <- !app_assoc; simpl; rewrite <- app_assoc; reflexivity).
    apply app_inj_tail in H; destruct H as [-> _].
    exists l1, l2, l3; reflexivity.
Qed.

Lemma before_In_l (A : Type) (l : list A) (a b : A) : before l a b -> In a l.
Proof. intros (l1 & l2 & l3 & ->); apply in_or_app; right; left; reflexivity. Qed.

Lemma before_In_r (A : Type) (l : list A) (a b : A) : before l a b -> In b l.
Proof.
  intros (l1 & l2 & l3 & ->); apply in_or_app; right; right.
  apply in_or_app; right; left; reflexivity.
Qed.

Lemma NoDup_app_snoc (A : Type) (l : list A) (x : A) :
  NoDup l -> ~ In x l -> NoDup (l ++ [x]).
Proof.
  induction 1 as [|y l Hy Hnd IH]; simpl; intros Hx.
  - constructor; [simpl; tauto | constructor].
  - constructor.
    + intros H; apply in_app_or in H; destruct H as [H|[H|[]]]; [tauto|].
      apply Hx; left; symmetry; exact H.
    + apply IH; tauto.
Qed.

(** ** The tally *)

Lemma tallied_nil : tallied [] [].
Proof.
  split; [constructor|]; split; [simpl; tauto|]; split; [simpl; tauto|].
  intros k1 k2 (l1 & l2 & l3 & H); destruct l1; discriminate.
Qed.

Lemma tallied_step names o k :
  tallied names o -> tallied (names ++ [k]) (tally o k).
Proof.
  intros (Hnd & Hcnt & Hall & Hord); unfold tally.
  destruct (Js.get k o) as [c|] eqn:Hget.
  - (* the name is known: its counter is rewritten in place *)
    pose proof (@get_In _ _ _ _ Hget) as Hin.
    destruct (Hcnt _ _ Hin) as [Hc Hk].
    assert (Hkeys : In k (map fst o)) by (apply Hall, Hk).
    assert (Hpos := occurrences_pos _ _ Hk).
    assert (Hz : Js.or_zero (Some c) = c).
    { simpl; destruct (Z.eqb_spec c 0); [lia | reflexivity]. }
    rewrite Hz.
    split; [|split; [|split]].
    + rewrite set_present by exact Hkeys; exact Hnd.
    + intros k0 c0 H.
      destruct (@In_set _ _ _ _ _ _ Hnd H) as [[-> ->]|[Hne Hin']].
      * rewrite occurrences_snoc, String.eqb_refl.
        split; [lia | apply in_or_app; left; exact Hk].
      * destruct (Hcnt _ _ Hin') as [-> Hk0].
        rewrite occurrences_snoc.
        split; [|apply in_or_app; left; exact Hk0].
        destruct (String.eqb_spec k0 k); [congruence | lia].
    + intros k' Hk'; rewrite set_present by exact Hkeys.
      apply in_app_or in Hk'; destruct Hk' as [Hk'|[<-|[]]]; auto.
    + intros k1 k2; rewrite set_present by exact Hkeys; intros Hb.
      assert (In k1 names /\ In k2 names) as [H1 H2].
      { split.
        - apply before_In_l in Hb. apply in_map_iff in Hb.
          destruct Hb as ([k' c'] & <- & Hb); apply (Hcnt _ _ Hb).
        - apply before_In_r in Hb. apply in_map_iff in Hb.
          destruct Hb as ([k' c'] & <- & Hb); apply (Hcnt _ _ Hb). }
      rewrite !first_seen_app by assumption; apply Hord, Hb.
  - (* a new name: it goes last *)
    apply get_None in Hget.
    assert (Hk : ~ In k names) by (intros Hk; apply Hget, Hall, Hk).
    rewrite set_fresh by exact Hget; simpl Js.or_zero.
    assert (Hsub : forall k', In k' (map fst o) -> In k' names).
    { intros k' Hk'; apply in_map_iff in Hk'.
      destruct Hk' as ([k0 c0] & <- & Hin); apply (Hcnt _ _ Hin). }
    split; [|split; [|split]].
    + rewrite map_app; simpl.
      apply NoDup_app_snoc; assumption.
    + intros k0 c0 H.
      apply in_app_or in H; destruct H as [Hin|[[= <- <-]|[]]].
      * destruct (Hcnt _ _ Hin) as [-> Hk0].
        rewrite occurrences_snoc.
        split; [|apply in_or_app; left; exact Hk0].
        destruct (String.eqb_spec k0 k); [congruence | lia].
      * rewrite occurrences_snoc, String.eqb_refl, occurrences_zero by exact Hk.
        split; [reflexivity | apply in_or_app; right; left; reflexivity].
    + intros k' Hk'; rewrite map_app; apply in_or_app.
      apply in_app_or in Hk'; destruct Hk' as [Hk'|[<-|[]]].
      * left; apply Hall, Hk'.
      * right; left; reflexivity.
    + intros k1 k2; rewrite map_app; simpl; intros Hb.
      apply before_snoc in Hb; destruct Hb as [Hb|[H1 ->]].
      * rewrite !first_seen_app; [apply Hord, Hb | |].
        -- apply Hsub; eapply before_In_r; eassumption.
        -- apply Hsub; eapply before_In_l; eassumption.
      * rewrite first_seen_fresh by exact Hk.
        rewrite first_seen_app by (apply Hsub, H1).
        apply first_seen_bound, Hsub, H1.
Qed.

Lemma tallied_fold tokens :
  forall names o, tallied names o ->
    tallied (names ++ tokens) (fold_left tally tokens o).
Proof.
  induction tokens as [|k tokens IH]; intros names o H; simpl.
  - rewrite app_nil_r; exact H.
  - replace (names ++ k :: tokens) with ((names ++ [k]) ++ tokens)
      by (rewrite <- app_assoc; reflexivity).
    apply IH, tallied_step, H.
Qed.

(** ** Ranking a tally *)

Lemma by_count_desc_total (a b : string * Z) :
  (by_count_desc a b <= 0)%Z \/ (by_count_desc b a <= 0)%Z.
Proof. unfold by_count_desc; lia. Qed.

Lemma by_count_desc_trans (a b c : string * Z) :
  (by_count_desc a b <= 0)%Z -> (by_count_desc b c <= 0)%Z ->
  (by_count_desc a c <= 0)%Z.
Proof. unfold by_count_desc; lia. Qed.


Lemma top10_In (o : Js.Obj Z) (e : string * Z) : In e (top10 o) -> In e o.
Proof.
  unfold top10; intros H; apply in_firstn in H.
  apply (proj1 (sort_In _ _ _)) in H; apply (proj1 (entries_In _ _)) in H; exact H.
Qed.




Lemma top10_counts (names : list string) (o : Js.Obj Z) (e : string * Z) :
  tallied names o -> In e (top10 o) ->
  snd e = occurrences (fst e) names /\ In (fst e) names.
Proof.
  intros (_ & Hcnt & _) H; apply top10_In in H.
  destruct e as [k c]; apply (Hcnt _ _ H).
Qed.

(** Projection to the output records keeps the order facts. *)
Section Projection.
Variables (A B : Type) (f : A -> B).
Variables (keyA : A -> string) (cntA : A -> Z) (keyB : B -> string) (cntB : B -> Z).
Hypothesis key_f : forall a, keyB (f a) = keyA a.
Hypothesis cnt_f : forall a, cntB (f a) = cntA a.


End Projection.

(** ** Hashtag tokens *)

Lemma all_word_snoc (w : string) (c : ascii) :
  all_word w = true -> Js.is_word c = true ->
  all_word (w ++ String c "")%string = true.
Proof.
  induction w as [|d w IH]; simpl; intros Hw Hc.
  - rewrite Hc; reflexivity.
  - apply andb_true_iff in Hw; destruct Hw as [Hd Hw].
    rewrite Hd, IH by assumption; reflexivity.
Qed.

Lemma flush_shape (cur : option string) (h : string) :
  (forall w, cur = Some w -> all_word w = true) ->
  In h (Js.flush cur) ->
  exists w, h = String "#" w /\ w <> "" /\ all_word w = true.
Proof.
  destruct cur as [w|]; simpl; [|tauto].
  intros Hw; destruct (String.eqb_spec w ""); simpl; [tauto|].
  intros [<-|[]]; exists w; auto.
Qed.

(** A token is a [#] followed by one or more word characters. *)
Lemma scan_shape (s : string) :
  forall cur h,
    (forall w, cur = Some w -> all_word w = true) ->
    In h (Js.scan cur s) ->
    exists w, h = String "#" w /\ w <> "" /\ all_word w = true.
Proof.
  induction s as [|c s IH]; intros cur h Hcur Hin; simpl in Hin.
  - eapply flush_shape; eassumption.
  - destruct (Js.is_word c) eqn:Hc.
    + destruct cur as [w|].
      * apply (IH _ h) in Hin; [exact Hin|].
        intros w' [= <-]; apply all_word_snoc; [apply Hcur; reflexivity | exact Hc].
      * apply (IH None h); [discriminate | exact Hin].
    + apply in_app_or in Hin; destruct Hin as [Hin|Hin].
      * eapply flush_shape; eassumption.
      * apply (IH _ h) in Hin; [exact Hin|].
        destruct (Js.is_hash c); [intros w [= <-]; reflexivity | discriminate].
Qed.

Lemma match_hashtags_shape (content h : string) :
  In h (Js.match_hashtags content) ->
  exists w, h = String "#" w /\ w <> "" /\ all_word w = true.
Proof. apply scan_shape; discriminate. Qed.


Lemma hash_plain_key (w : string) : Js.plain_key (String "#" w).
Proof.
  unfold Js.plain_key, Js.prototype_names; simpl.
  intros H; repeat (destruct H as [H|H]; [discriminate H|]); exact H.
Qed.

Lemma fold_tally_flat_map (A : Type) (f : A -> list string) (l : list A) :
  forall o,
    fold_left (fun counts x => fold_left tally (f x) counts) l o
    = fold_left tally (flat_map f l) o.
Proof.
  induction l as [|x l IH]; intros o; simpl; [reflexivity|].
  rewrite fold_left_app; apply IH.
Qed.

Lemma hashtag_table_tallied postsData changelogData :
  tallied (all_hashtags postsData changelogData)
    (hashtag_table postsData changelogData).
Proof.
  unfold hashtag_table, all_hashtags, tally_hashtags.
  rewrite !fold_tally_flat_map, <- fold_left_app.
  apply (tallied_fold _ tallied_nil).
Qed.

Lemma all_hashtags_shape postsData changelogData h :
  In h (all_hashtags postsData changelogData) ->
  exists w, h = String "#" w /\ w <> "" /\ all_word w = true.
Proof.
  unfold all_hashtags; intros H; apply in_app_or in H.
  destruct H as [H|H]; apply in_flat_map in H; destruct H as (x & _ & H);
    eapply match_hashtags_shape; eassumption.
Qed.

Lemma audience_table_tallied fieldName connections :
  tallied (map (audience_key fieldName) connections)
    (audience_table fieldName connections).
Proof.
  unfold audience_table.
  assert (E : forall o,
    fold_left (fun counts conn => tally counts (audience_key fieldName conn))
      connections o
    = fold_left tally (map (audience_key fieldName) connections) o).
  { induction connections as [|c l IH]; intros o; simpl; [reflexivity | apply IH]. }
  rewrite E; apply (tallied_fold _ tallied_nil).
Qed.


(* ================================================================== *)
(** * Ranked outputs                                                  *)
(* ================================================================== *)

Example match_hashtags_sample :
  Js.match_hashtags "a #b1 ##c_d! # #e#f" = ["#b1"; "#c_d"; "#e"; "#f"].
Proof. reflexivity. Qed.

Lemma top10_nil : top10 [] = [].
Proof. reflexivity. Qed.


Lemma plain_keyb_sound (k : string) : Js.plain_keyb k = true -> Js.plain_key k.
Proof.
  intros H Hin; unfold Js.plain_keyb in H; apply negb_true_iff in H.
  assert (E : existsb (String.eqb k) Js.prototype_names = true).
  { apply existsb_exists; exists k; split; [exact Hin | apply String.eqb_refl]. }
  congruence.
Qed.

Lemma plain_connections_keys :
  forall f, In f ["Industry"; "Position"; "Location"] ->
    Forall Js.plain_key (audience_names f plain_connections).
Proof.
  intros f [<-|[<-|[<-|[]]]]; repeat constructor; apply plain_keyb_sound;
    reflexivity.
Qed.



(* ================================================================== *)
(** * Hashtag counts                                                  *)
(* ================================================================== *)

(** C8.  The count reported for a hashtag is the number of occurrences of
    that token in the commentary of the snapshot posts and of the changelog
    posts taken together; a token is a [#] followed by one or more word
    characters, and every occurrence counts. *)
Theorem top_hashtag_counts postsData changelogData (e : HashtagCount.t) :
  In e (calculateTopHashtags postsData changelogData) ->
  HashtagCount.count e
    = occurrences (HashtagCount.hashtag e) (all_hashtags postsData changelogData)
  /\ exists w, HashtagCount.hashtag e = String "#" w
               /\ w <> "" /\ all_word w = true.
Proof.
  unfold calculateTopHashtags; intros H.
  apply in_map_iff in H; destruct H as (p & <- & Hp).
  destruct (@top10_counts _ _ _ (hashtag_table_tallied postsData changelogData) Hp)
    as [Hc Hin].
  split; [exact Hc|].
  eapply all_hashtags_shape; exact Hin.
Qed.

Lemma top_hashtag_counts_witness :
  calculateTopHashtags tagged_posts tagged_changelog
    = [ {| HashtagCount.hashtag := "#rocq"; HashtagCount.count := 3 |};
        {| HashtagCount.hashtag := "#proofs"; HashtagCount.count := 2 |} ]
  /\ occurrences "#rocq" (all_hashtags tagged_posts tagged_changelog) = 3%Z.
Proof.
  split; [reflexivity|].
  destruct (@top_hashtag_counts tagged_posts tagged_changelog
              {| HashtagCount.hashtag := "#rocq"; HashtagCount.count := 3 |})
    as [H _].
  - left; reflexivity.
  - symmetry; exact H.
Defined.

(* ================================================================== *)
(** * Post types                                                      *)
(* ================================================================== *)

Lemma classify_not_article (post : Event) : classify post <> Article.
Proof.
  unfold classify.
  destruct (share_content post) as [c|]; [destruct (media c) as [[|first rest]|]|];
    repeat match goal with |- context [if ?b then _ else _] => destruct b end;
    discriminate.
Qed.

Lemma classified_as_article (posts : list Event) : classified_as Article posts = 0%Z.
Proof.
  unfold classified_as; induction posts as [|p posts IH]; [reflexivity|].
  rewrite count_where_cons, IH.
  pose proof (classify_not_article p); destruct (classify p); simpl; congruence.
Qed.

(** The five counters after the loop over the posts. *)
Lemma type_counts_fold (posts : list Event) :
  forall a b c d e,
    fold_left count_type posts
      [ ("Text Only", a); ("Image", b); ("Video", c); ("Article", d);
        ("External Link", e) ]
    = [ ("Text Only", a + classified_as TextOnly posts);
        ("Image", b + classified_as Image posts);
        ("Video", c + classified_as Video posts);
        ("Article", d + classified_as Article posts);
        ("External Link", e + classified_as ExternalLink posts) ]%Z.
Proof.
  induction posts as [|p posts IH]; intros a b c d e.
  - simpl; unfold classified_as, count_where; rewrite !Z_length_nil, !Z.add_0_r.
    reflexivity.
  - simpl fold_left; unfold count_type at 2.
    unfold classified_as; rewrite !count_where_cons.
    fold (classified_as TextOnly posts) (classified_as Image posts)
      (classified_as Video posts) (classified_as Article posts)
      (classified_as ExternalLink posts).
    destruct (classify p); simpl; rewrite IH;
      repeat match goal with
             | |- _ :: _ = _ :: _ => f_equal
             | |- (_, _) = (_, _) => f_equal
             end; lia.
Qed.

Lemma classified_partition (posts : list Event) :
  (classified_as TextOnly posts + classified_as Image posts
   + classified_as Video posts + classified_as Article posts
   + classified_as ExternalLink posts)%Z = Z_length posts.
Proof.
  unfold classified_as; induction posts as [|p posts IH]; [reflexivity|].
  rewrite !count_where_cons, Z_length_cons, <- IH.
  destruct (classify p); simpl; lia.
Qed.

Lemma breakdown_table (changelogData : option Changelog.t) :
  calculatePostTypesBreakdown changelogData
  = map ranked
      (filter (fun e => (0 <? snd e)%Z)
         (map (fun ty => (type_name ty,
                          classified_as ty (changelog_posts changelogData)))
            all_types)).
Proof.
  unfold calculatePostTypesBreakdown, typeCounts0.
  rewrite type_counts_fold, !Z.add_0_l.
  rewrite entries_insertion_order; [reflexivity|].
  simpl; intros k [<-|[<-|[<-|[<-|[<-|[]]]]]]; reflexivity.
Qed.

(** C4, as amended.  The classifier puts every post into exactly one
    category, by priority: with media, the type of the first item -- read
    as ["IMAGE"] when the item declares none -- decides between Video
    (contains ["VIDEO"]), Image (contains ["IMAGE"]) and External Link;
    without media, commentary that contains ["http"] gives External Link
    and anything else Text Only.  The breakdown lists, in the fixed order
    of the categories, exactly those with a positive number of posts,
    each with that number. *)
Theorem post_types_rule changelogData :
  (forall post,
     (forall first, first_media post = Some first ->
        (Js.includes (effective_type first) "VIDEO" = true ->
           classify post = Video)
        /\ (Js.includes (effective_type first) "VIDEO" = false ->
            Js.includes (effective_type first) "IMAGE" = true ->
            classify post = Image)
        /\ (Js.includes (effective_type first) "VIDEO" = false ->
            Js.includes (effective_type first) "IMAGE" = false ->
            classify post = ExternalLink))
     /\ (first_media post = None ->
         (text_has_link post = true -> classify post = ExternalLink)
         /\ (text_has_link post = false -> classify post = TextOnly)))
  /\ (let posts := changelog_posts changelogData in
      calculatePostTypesBreakdown changelogData
      = map ranked
          (filter (fun e => (0 <? snd e)%Z)
             (map (fun ty => (type_name ty, classified_as ty posts)) all_types))
      /\ (classified_as TextOnly posts + classified_as Image posts
          + classified_as Video posts + classified_as Article posts
          + classified_as ExternalLink posts)%Z = Z_length posts)
  /\ (forall e, In e (calculatePostTypesBreakdown changelogData) ->
        (0 < RankedEntry.value e)%Z).
Proof.
  split; [|split].
  - intros post; unfold first_media, text_has_link, effective_type, classify.
    destruct (share_content post) as [c|]; simpl;
      [destruct (media c) as [[|item rest]|]|];
      (split;
       [ intros first E; try discriminate E; injection E as <-;
         repeat split; intros;
         repeat match goal with
                | H : Js.includes _ _ = _ |- _ => rewrite H; clear H
                end; reflexivity
       | intros E; try discriminate E; split; intros H;
         try discriminate H; try rewrite H; reflexivity ]).
  - split; [apply breakdown_table | apply classified_partition].
  - intros e He; rewrite breakdown_table in He.
    apply in_map_iff in He; destruct He as (p & <- & Hp).
    apply filter_In in Hp; destruct Hp as [_ Hp]; simpl.
    apply Z.ltb_lt, Hp.
Qed.

Lemma post_types_rule_witness :
  calculatePostTypesBreakdown mixed_changelog
    = [ {| RankedEntry.name := "Text Only"; RankedEntry.value := 1 |};
        {| RankedEntry.name := "Image"; RankedEntry.value := 1 |};
        {| RankedEntry.name := "Video"; RankedEntry.value := 1 |};
        {| RankedEntry.name := "External Link"; RankedEntry.value := 1 |} ]
  /\ classify untyped_media_post = Image.
Proof.
  split; [reflexivity|].
  destruct (post_types_rule mixed_changelog) as [H _].
  destruct (H untyped_media_post) as [Hm _].
  destruct (Hm {| mediaType := None |} eq_refl) as (_ & Himg & _).
  apply Himg; reflexivity.
Defined.

(** C4 as stated fails: a media item that declares no type is read as an
    image, where the rule on the declared type gives External Link. *)
Lemma untyped_media_is_image :
  is_post_create untyped_media_post = true
  /\ first_media untyped_media_post = Some {| mediaType := None |}
  /\ classify untyped_media_post = Image
  /\ classify_as_stated untyped_media_post = ExternalLink
  /\ calculatePostTypesBreakdown (changelog_of [untyped_media_post])
     = [ {| RankedEntry.name := "Image"; RankedEntry.value := 1 |} ].
Proof. repeat split. Qed.

(** C10.  The category "Article" never appears in the breakdown: no post
    is classified as an article, so its counter stays at zero and the
    filter on positive counts drops it. *)
Theorem article_never_reported changelogData :
  classified_as Article (changelog_posts changelogData) = 0%Z
  /\ ~ In "Article"
         (map RankedEntry.name (calculatePostTypesBreakdown changelogData)).
Proof.
  split; [apply classified_as_article|].
  rewrite breakdown_table, map_map; simpl.
  rewrite classified_as_article; simpl.
  intros H.
  repeat match type of H with
         | context [if ?b then _ else _] => destruct b; simpl in H
         end;
    repeat (destruct H as [H|H]; [discriminate H|]); exact H.
Qed.

(* ================================================================== *)
(** * Engagement per post                                             *)
(* ================================================================== *)

Section ObjMore.
Variable V : Type.
Implicit Types (o : Js.Obj V) (k : string) (v : V).

Lemma set_keys o k v k' :
  In k' (map fst (Js.set k v o)) <-> k' = k \/ In k' (map fst o).
Proof.
  induction o as [|[k0 v0] o IH]; simpl.
  - split; [intros [E|[]]; left; congruence | intros [E|[]]; left; congruence].
  - destruct (String.eqb_spec k k0) as [->|Hne]; simpl.
    + split; [intros [E|I]; [right; left; exact E | right; right; exact I]|].
      intros [E|[E|I]]; [left; congruence | left; exact E | right; exact I].
    + rewrite IH; tauto.
Qed.

Lemma set_NoDup o k v : NoDup (map fst o) -> NoDup (map fst (Js.set k v o)).
Proof.
  intros Hnd; destruct (in_dec string_dec k (map fst o)) as [Hin|Hout].
  - rewrite set_present by exact Hin; exact Hnd.
  - rewrite set_fresh by exact Hout; rewrite map_app; simpl.
    apply NoDup_app_snoc; assumption.
Qed.

Lemma In_update o k (f : V -> V) k' v' :
  NoDup (map fst o) -> In (k', v') (Js.update k f o) ->
  (k' = k /\ exists v0, In (k, v0) o /\ v' = f v0)
  \/ (k' <> k /\ In (k', v') o).
Proof.
  induction o as [|[k0 v0] o IH]; simpl; [tauto|].
  intros Hnd; inversion_clear Hnd as [|? ? Hk Hnd'].
  destruct (String.eqb_spec k k0) as [->|Hne]; simpl.
  - intros [[= <- <-]|I].
    + left; split; [reflexivity|]; exists v0; split; [left|]; reflexivity.
    + right; split; [|right; exact I].
      intros ->; apply Hk; change k0 with (fst (k0, v')); apply in_map, I.
  - intros [[= <- <-]|I].
    + right; split; [congruence | left; reflexivity].
    + destruct (IH Hnd' I) as [[-> (v1 & H1 & ->)]|[? ?]].
      * left; split; [reflexivity|]; exists v1; split; [right; exact H1 | reflexivity].
      * right; split; [assumption | right; assumption].
Qed.

Lemma entries_singleton (e : string * V) : Js.entries [e] = [e].
Proof.
  unfold Js.entries; simpl; destruct (Js.is_index (fst e)); reflexivity.
Qed.

Lemma values_In o v : In v (Js.values o) <-> exists k, In (k, v) o.
Proof.
  unfold Js.values; rewrite in_map_iff; split.
  - intros ([k v'] & <- & H); exists k; apply entries_In, H.
  - intros (k & H); exists (k, v); split; [reflexivity | apply entries_In, H].
Qed.
End ObjMore.

Lemma is_create_exclusive (a b : string) (e : Event) :
  a <> b -> is_create a e = true -> is_create b e = false.
Proof.
  unfold is_create; intros Hne H.
  apply andb_true_iff in H; destruct H as [H _]; apply String.eqb_eq in H.
  destruct (String.eqb_spec (resourceName e) b); [congruence | reflexivity].
Qed.

(** ** Seeding *)

Lemma seed_fold (posts : list Event) :
  forall m,
    joined [] m ->
    joined [] (fold_left seed_post posts m)
    /\ forall k, In k (map fst (fold_left seed_post posts m)) <->
         In k (map fst m) \/ exists p, In p posts /\ resourceId p = k.
Proof.
  induction posts as [|p posts IH]; intros m Hj; simpl.
  - split; [exact Hj|]; intros k; split; [tauto | intros [H|(p & [] & _)]; exact H].
  - destruct Hj as [Hnd Hv].
    assert (Hj' : joined [] (seed_post m p)).
    { split; [apply set_NoDup, Hnd|].
      intros k v Hin; unfold seed_post in Hin.
      destruct (@In_set _ _ _ _ _ _ Hnd Hin) as [[-> ->]|[_ Hin']].
      - simpl; unfold credited, engagements, count_where; simpl.
        destruct (String.eqb (resourceId p) ""); repeat split; reflexivity.
      - apply Hv, Hin'. }
    destruct (IH _ Hj') as [H1 H2]; split; [exact H1|].
    intros k; rewrite H2; unfold seed_post; rewrite set_keys; split.
    + intros [[->|H]|(q & Hq & E)].
      * right; exists p; split; [left|]; reflexivity.
      * left; exact H.
      * right; exists q; split; [right; exact Hq | exact E].
    + intros [H|(q & [<-|Hq] & E)].
      * left; right; exact H.
      * left; left; symmetry; exact E.
      * right; exists q; split; assumption.
Qed.

Lemma joined_nil : joined [] [].
Proof. split; [constructor | simpl; tauto]. Qed.

(** ** Counting *)

Lemma credited_snoc (kind id : string) (seen : list Event) (e : Event) :
  credited kind id (seen ++ [e])
  = (credited kind id seen
     + if negb (String.eqb id "") && is_create kind e && refers_to id e
       then 1 else 0)%Z.
Proof.
  unfold credited, engagements; destruct (String.eqb id ""); simpl; [reflexivity|].
  rewrite count_where_app, count_where_cons.
  change (count_where _ []) with 0%Z; lia.
Qed.

Lemma refers_to_object (id : string) (e : Event) :
  refers_to id e = true <-> activity_object e = Some id.
Proof.
  unfold refers_to, same_id; destruct (activity_object e) as [x|].
  - rewrite String.eqb_eq; split; congruence.
  - split; discriminate.
Qed.

Lemma count_engagement_keys (m : Js.Obj PostEngagement.t) (e : Event) :
  map fst (count_engagement m e) = map fst m.
Proof.
  unfold count_engagement.
  destruct (activity_object e) as [id|]; [|reflexivity].
  destruct (negb (String.eqb id "")); [|reflexivity].
  destruct (Js.get id m); [|reflexivity].
  repeat match goal with |- context [if ?b then _ else _] => destruct b end;
    try apply update_keys; reflexivity.
Qed.

Lemma joined_unchanged (seen : list Event) (m : Js.Obj PostEngagement.t) (e : Event) :
  joined seen m ->
  (forall k, In k (map fst m) -> k <> "" -> refers_to k e = true ->
     is_create "socialActions/likes" e = false
     /\ is_create "socialActions/comments" e = false
     /\ is_create "socialActions/shares" e = false) ->
  joined (seen ++ [e]) m.
Proof.
  intros [Hnd Hv] Hno; split; [exact Hnd|].
  intros k v Hin; destruct (Hv _ _ Hin) as (Hid & Hl & Hc & Hs).
  rewrite !credited_snoc, <- Hl, <- Hc, <- Hs.
  assert (Hkey : In k (map fst m))
    by (change k with (fst (k, v)); apply in_map, Hin).
  destruct (String.eqb_spec k "") as [->|Hne]; simpl.
  - repeat split; try assumption; lia.
  - destruct (refers_to k e) eqn:Hr.
    + destruct (Hno k Hkey Hne Hr) as (-> & -> & ->); simpl.
      repeat split; try assumption; lia.
    + rewrite !andb_false_r; repeat split; try assumption; lia.
Qed.

Lemma joined_step (seen : list Event) (m : Js.Obj PostEngagement.t) (e : Event) :
  joined seen m -> joined (seen ++ [e]) (count_engagement m e).
Proof.
  intros Hj; unfold count_engagement.
  destruct (activity_object e) as [id|] eqn:Hobj.
  2:{ apply joined_unchanged; [exact Hj|].
      intros k _ _ Hr; apply refers_to_object in Hr; congruence. }
  destruct (String.eqb_spec id "") as [->|Hid]; simpl.
  { apply joined_unchanged; [exact Hj|].
    intros k _ Hne Hr; apply refers_to_object in Hr; congruence. }
  destruct (Js.get id m) as [v0|] eqn:Hget.
  2:{ apply joined_unchanged; [exact Hj|].
      intros k Hk _ Hr; apply refers_to_object in Hr.
      apply get_None in Hget; congruence. }
  assert (Hupd : forall kind f,
    is_create kind e = true ->
    (forall v, PostEngagement.postId (f v) = PostEngagement.postId v) ->
    (forall v, PostEngagement.likes (f v)
       = (PostEngagement.likes v
          + if String.eqb kind "socialActions/likes" then 1 else 0)%Z) ->
    (forall v, PostEngagement.comments (f v)
       = (PostEngagement.comments v
          + if String.eqb kind "socialActions/comments" then 1 else 0)%Z) ->
    (forall v, PostEngagement.shares (f v)
       = (PostEngagement.shares v
          + if String.eqb kind "socialActions/shares" then 1 else 0)%Z) ->
    joined (seen ++ [e]) (Js.update id f m)).
  { intros kind f Hkind Hfid Hfl Hfc Hfs; destruct Hj as [Hnd Hv].
    split; [rewrite update_keys; exact Hnd|].
    assert (Hx : forall other, is_create other e
                 = String.eqb kind other).
    { intros other; destruct (String.eqb_spec kind other) as [<-|Hne];
        [exact Hkind | eapply is_create_exclusive; eassumption]. }
    intros k v Hin.
    destruct (@In_update _ _ _ _ _ _ Hnd Hin) as [[-> (v1 & H1 & ->)]|[Hne Hin']].
    - destruct (Hv _ _ H1) as (E0 & El & Ec & Es).
      rewrite Hfid, Hfl, Hfc, Hfs, !credited_snoc, El, Ec, Es, !Hx.
      assert (Hr : refers_to id e = true) by (apply refers_to_object, Hobj).
      rewrite Hr, !andb_true_r.
      destruct (String.eqb_spec id ""); [contradiction|]; simpl.
      repeat split; try assumption; reflexivity.
    - destruct (Hv _ _ Hin') as (E0 & El & Ec & Es).
      rewrite !credited_snoc, El, Ec, Es.
      assert (Hr : refers_to k e = false).
      { destruct (refers_to k e) eqn:Hr; [|reflexivity].
        apply refers_to_object in Hr; congruence. }
      rewrite Hr, !andb_false_r; repeat split; try assumption; lia. }
  destruct (is_create "socialActions/likes" e) eqn:Hl;
    [apply (Hupd "socialActions/likes"); try exact Hl; intros v; simpl; lia || reflexivity|].
  destruct (is_create "socialActions/comments" e) eqn:Hc;
    [apply (Hupd "socialActions/comments"); try exact Hc; intros v; simpl; lia || reflexivity|].
  destruct (is_create "socialActions/shares" e) eqn:Hs;
    [apply (Hupd "socialActions/shares"); try exact Hs; intros v; simpl; lia || reflexivity|].
  apply joined_unchanged; [exact Hj|]; intros; repeat split; assumption.
Qed.

Lemma joined_fold (events : list Event) :
  forall seen m, joined seen m ->
    joined (seen ++ events) (fold_left count_engagement events m).
Proof.
  induction events as [|e events IH]; intros seen m H; simpl.
  - rewrite app_nil_r; exact H.
  - replace (seen ++ e :: events) with ((seen ++ [e]) ++ events)
      by (rewrite <- app_assoc; reflexivity).
    apply IH, joined_step, H.
Qed.

Lemma count_fold_keys (events : list Event) :
  forall m, map fst (fold_left count_engagement events m) = map fst m.
Proof.
  induction events as [|e events IH]; intros m; simpl; [reflexivity|].
  rewrite IH; apply count_engagement_keys.
Qed.

(** ** The table and its ranking *)

Lemma engagement_table_joined changelogData :
  let events := changelog_elements changelogData in
  joined events (engagement_table changelogData)
  /\ forall k, In k (map fst (engagement_table changelogData)) <->
       exists p, In p events /\ is_post_create p = true /\ resourceId p = k.
Proof.
  intros events; unfold engagement_table; fold events.
  destruct (seed_fold (filter is_post_create events) joined_nil) as [Hs Hk].
  split.
  - apply (@joined_fold events [] _ Hs).
  - intros k; rewrite count_fold_keys, Hk; simpl; split.
    + intros [[]|(p & Hp & E)]; apply filter_In in Hp.
      exists p; tauto.
    + intros (p & Hp & Hc & E); right; exists p; split; [|exact E].
      apply filter_In; tauto.
Qed.

Lemma filter_implied (A : Type) (p q : A -> bool) (l : list A) :
  (forall x, In x l -> p x = true -> q x = true) ->
  filter p (filter q l) = filter p l.
Proof.
  induction l as [|x l IH]; intros H; simpl; [reflexivity|].
  destruct (q x) eqn:Hq; simpl.
  - destruct (p x); rewrite IH; auto; intros y Hy; apply H; right; exact Hy.
  - destruct (p x) eqn:Hp.
    + rewrite (H x (or_introl eq_refl) Hp) in Hq; discriminate.
    + apply IH; intros y Hy; apply H; right; exact Hy.
Qed.

Lemma fold_skip_orphans (events l : list Event) :
  forall m,
    (forall k, In k (map fst m) ->
       exists p, In p events /\ is_post_create p = true /\ resourceId p = k) ->
    fold_left count_engagement (filter (fun e => negb (orphan events e)) l) m
    = fold_left count_engagement l m.
Proof.
  induction l as [|e l IH]; intros m Hm; simpl; [reflexivity|].
  assert (Hm' : forall k, In k (map fst (count_engagement m e)) ->
            exists p, In p events /\ is_post_create p = true /\ resourceId p = k)
    by (rewrite count_engagement_keys; exact Hm).
  destruct (orphan events e) eqn:Ho; simpl.
  - rewrite IH by exact Hm.
    f_equal.
    unfold orphan in Ho; apply andb_true_iff in Ho; destruct Ho as [_ Ho].
    unfold count_engagement.
    destruct (activity_object e) as [id|]; [|reflexivity].
    destruct (negb (String.eqb id "")); [|reflexivity].
    destruct (Js.get id m) eqn:Hget; [|reflexivity].
    exfalso.
    assert (Hk : In id (map fst m)).
    { destruct (in_dec string_dec id (map fst m)) as [H|H]; [exact H|].
      apply get_None in H; congruence. }
    destruct (Hm _ Hk) as (p & Hp & Hc & E).
    apply negb_true_iff in Ho.
    assert (Hex : existsb (fun p => is_post_create p && String.eqb (resourceId p) id)
                    events = true).
    { apply existsb_exists; exists p; split; [exact Hp|].
      rewrite Hc, E, String.eqb_refl; reflexivity. }
    congruence.
  - apply IH, Hm'.
Qed.

Lemma orphans_ignored (events : list Event) :
  engagement_table
    (changelog_of (filter (fun e => negb (orphan events e)) events))
  = engagement_table (changelog_of events).
Proof.
  unfold engagement_table; simpl changelog_elements.
  rewrite filter_implied.
  - apply fold_skip_orphans.
    intros k Hk.
    destruct (seed_fold (filter is_post_create events) joined_nil) as [_ H].
    apply H in Hk; destruct Hk as [[]|(p & Hp & E)].
    apply filter_In in Hp; exists p; tauto.
  - intros e _ He; unfold orphan; rewrite He; reflexivity.
Qed.

Lemma by_engagement_desc_total (a b : PostSummary.t) :
  (by_engagement_desc a b <= 0)%Z \/ (by_engagement_desc b a <= 0)%Z.
Proof. unfold by_engagement_desc; lia. Qed.

Lemma by_engagement_desc_trans (a b c : PostSummary.t) :
  (by_engagement_desc a b <= 0)%Z -> (by_engagement_desc b c <= 0)%Z ->
  (by_engagement_desc a c <= 0)%Z.
Proof. unfold by_engagement_desc; lia. Qed.

(** One post and two likes that name it. *)
Lemma liked_twice (p l1 l2 : Event) :
  is_post_create p = true ->
  resourceId p <> "" ->
  is_create "socialActions/likes" l1 = true ->
  is_create "socialActions/likes" l2 = true ->
  activity_object l1 = Some (resourceId p) ->
  activity_object l2 = Some (resourceId p) ->
  exists s,
    calculateEngagementPerPost (changelog_of [p; l1; l2]) = [s]
    /\ PostSummary.postId s = resourceId p
    /\ PostSummary.likes s = 2%Z
    /\ PostSummary.totalEngagement s = 2%Z.
Proof.
  intros Hp Hid H1 H2 O1 O2.
  assert (P1 : is_post_create l1 = false)
    by (apply (@is_create_exclusive "socialActions/likes"); [discriminate | exact H1]).
  assert (P2 : is_post_create l2 = false)
    by (apply (@is_create_exclusive "socialActions/likes"); [discriminate | exact H2]).
  assert (Hnone : forall m, count_engagement m p = m).
  { intros m; unfold count_engagement.
    destruct (activity_object p); [|reflexivity].
    destruct (negb _); [|reflexivity]; destruct (Js.get _ _); [|reflexivity].
    rewrite !(@is_create_exclusive "ugcPosts" _ p) by (discriminate || exact Hp).
    reflexivity. }
  unfold calculateEngagementPerPost, engagement_table; simpl changelog_elements.
  simpl filter; rewrite Hp, P1, P2; simpl fold_left.
  rewrite Hnone.
  unfold count_engagement at 2; rewrite O1.
  destruct (String.eqb_spec (resourceId p) ""); [contradiction|]; simpl negb; cbv iota.
  unfold seed_post at 1; simpl Js.get; rewrite String.eqb_refl, H1.
  simpl Js.set; simpl Js.update; rewrite String.eqb_refl.
  unfold count_engagement; rewrite O2.
  destruct (String.eqb_spec (resourceId p) ""); [contradiction|]; simpl negb; cbv iota.
  simpl Js.get; rewrite String.eqb_refl, H2.
  simpl Js.update; rewrite String.eqb_refl.
  unfold Js.values; rewrite entries_singleton; simpl.
  eexists; split; [reflexivity|]; simpl; repeat split.
Qed.

(** C5, as amended.  Only posts seeded from a ["ugcPosts"] CREATE event
    appear.  A like, comment or share CREATE event whose [activity.object]
    is a non-empty identifier equal to a seeded post's [resourceId] adds
    one to that post's counter; a post with the empty identifier is never
    credited.  Events that name no seeded post change nothing.  Each
    summary's [totalEngagement] is likes + comments + shares; the output is
    sorted by it, largest first, and has at most ten entries.  One post and
    two likes that name it give likes = 2 and totalEngagement = 2.
    Identifiers are taken to be distinct from the member names of
    [Object.prototype]. *)
Theorem engagement_per_post changelogData :
  let events := changelog_elements changelogData in
  let out := calculateEngagementPerPost changelogData in
  plain_ids events ->
  (List.length out <= 10)%nat
  /\ non_increasing PostSummary.totalEngagement out
  /\ (forall s, In s out ->
        (exists p, In p events /\ is_post_create p = true
                   /\ resourceId p = PostSummary.postId s)
        /\ PostSummary.likes s
           = credited "socialActions/likes" (PostSummary.postId s) events
        /\ PostSummary.comments s
           = credited "socialActions/comments" (PostSummary.postId s) events
        /\ PostSummary.shares s
           = credited "socialActions/shares" (PostSummary.postId s) events
        /\ PostSummary.totalEngagement s
           = (PostSummary.likes s + PostSummary.comments s
              + PostSummary.shares s)%Z)
  /\ calculateEngagementPerPost
       (changelog_of (filter (fun e => negb (orphan events e)) events)) = out
  /\ (forall p l1 l2,
        is_post_create p = true ->
        resourceId p <> "" ->
        Js.plain_key (resourceId p) ->
        is_create "socialActions/likes" l1 = true ->
        is_create "socialActions/likes" l2 = true ->
        activity_object l1 = Some (resourceId p) ->
        activity_object l2 = Some (resourceId p) ->
        exists s,
          calculateEngagementPerPost (changelog_of [p; l1; l2]) = [s]
          /\ PostSummary.postId s = resourceId p
          /\ PostSummary.likes s = 2%Z
          /\ PostSummary.totalEngagement s = 2%Z).
Proof.
  intros events out _.
  destruct (engagement_table_joined changelogData) as [[Hnd Hv] Hkeys].
  fold events in Hv, Hkeys.
  split; [subst out; unfold calculateEngagementPerPost; rewrite length_firstn; lia|].
  split.
  { intros i j a b Hij Hi Hj.
    assert (Hs : StronglySorted (fun x y => (by_engagement_desc x y <= 0)%Z) out).
    { apply sorted_firstn, sort_sorted;
        [apply by_engagement_desc_total | apply by_engagement_desc_trans]. }
    pose proof (sorted_nth Hs Hij Hi Hj) as H; unfold by_engagement_desc in H; lia. }
  split.
  { intros s Hs; subst out; unfold calculateEngagementPerPost in Hs.
    apply in_firstn in Hs; apply (proj1 (sort_In _ _ _)) in Hs.
    apply in_map_iff in Hs; destruct Hs as (v & <- & Hin).
    apply values_In in Hin; destruct Hin as (k & Hin).
    destruct (Hv _ _ Hin) as (Eid & El & Ec & Es); simpl.
    rewrite Eid; repeat split; try assumption.
    apply Hkeys; change k with (fst (k, v)); apply in_map, Hin. }
  split.
  { subst out; unfold calculateEngagementPerPost.
    rewrite orphans_ignored.
    unfold engagement_table, events, changelog_of; simpl changelog_elements.
    reflexivity. }
  intros p l1 l2 Hp Hid _; apply liked_twice; assumption.
Qed.

Lemma liked_post_plain_ids : plain_ids liked_post_changelog.
Proof.
  unfold plain_ids, liked_post_changelog.
  repeat constructor; simpl; try apply plain_keyb_sound; reflexivity.
Qed.

Lemma engagement_per_post_witness :
  calculateEngagementPerPost (changelog_of liked_post_changelog)
    = [ {| PostSummary.postId := "urn:li:share:1";
           PostSummary.content := "Hello #rocq";
           PostSummary.likes := 2; PostSummary.comments := 0;
           PostSummary.shares := 0;
           PostSummary.createdAt := noon_2024_03_15;
           PostSummary.totalEngagement := 2 |} ]
  /\ (List.length (calculateEngagementPerPost (changelog_of liked_post_changelog))
      <= 10)%nat.
Proof.
  split; [reflexivity|].
  exact (proj1 (@engagement_per_post (changelog_of liked_post_changelog)
                  liked_post_plain_ids)).
Defined.

(** C5 as stated fails: a like whose [activity.object] equals the empty
    [resourceId] of a seeded post is not credited to it. *)
Lemma empty_id_like_dropped :
  Forall2 (fun e kind => is_create kind e = true) unnamed_post_changelog
    ["ugcPosts"; "socialActions/likes"]
  /\ map resourceId (filter is_post_create unnamed_post_changelog) = [""]
  /\ map activity_object (filter (is_create "socialActions/likes") unnamed_post_changelog)
     = [Some ""]
  /\ engagements "socialActions/likes" "" unnamed_post_changelog = 1%Z
  /\ calculateEngagementPerPost (changelog_of unnamed_post_changelog)
     = [ {| PostSummary.postId := "";
            PostSummary.content := "Hello";
            PostSummary.likes := 0; PostSummary.comments := 0;
            PostSummary.shares := 0;
            PostSummary.createdAt := noon_2024_03_15;
            PostSummary.totalEngagement := 0 |} ].
Proof. repeat split; repeat constructor. Qed.

(* ================================================================== *)
(** * Dates and day buckets                                           *)
(* ================================================================== *)

Lemma setDate_back (rt : Runtime) (t i : Z) :
  setDate rt t (getDate rt t - i) = (t - i * msPerDay)%Z.
Proof. unfold setDate; ring. Qed.

Lemma setDate_next (rt : Runtime) (t : Z) :
  setDate rt t (getDate rt t + 1) = (t + msPerDay)%Z.
Proof. unfold setDate; ring. Qed.

Lemma dayOf_shift (rt : Runtime) (t i : Z) :
  dayOf rt (t + i * msPerDay) = (dayOf rt t + i)%Z.
Proof.
  unfold dayOf, msPerDay.
  replace (t + i * 86400000 + tzOffset rt)%Z
    with (t + tzOffset rt + i * 86400000)%Z by ring.
  apply Z.div_add; lia.
Qed.

Lemma days_of_range_values (timeRange : string) :
  days_of_range "7d" = 7%nat /\ days_of_range "30d" = 30%nat
  /\ days_of_range "90d" = 90%nat
  /\ (days_of_range timeRange = 7 \/ days_of_range timeRange = 30
      \/ days_of_range timeRange = 90)%nat.
Proof.
  repeat split; unfold days_of_range.
  destruct (String.eqb timeRange "7d"); [tauto|].
  destruct (String.eqb timeRange "30d"); tauto.
Qed.

(** The instants produced by the shared loop: reading number [j] moved
    back [n - 1 - j] days. *)
Lemma date_range_run (A : Type) (rt : Runtime) (mk : Z -> A) (n : nat) :
  forall w,
    date_range rt mk n w
    = (map (fun j => mk (clock rt (tick w + j)
                         - Z.of_nat (n - 1 - j) * msPerDay)%Z) (seq 0 n),
       {| tick := tick w + n; requests := requests w |}).
Proof.
  induction n as [|i IH]; intros w.
  - simpl; unfold ret; destruct w; simpl; rewrite Nat.add_0_r; reflexivity.
  - simpl date_range; unfold bind, now, ret; rewrite IH; simpl tick; simpl requests.
    f_equal.
    + rewrite setDate_back; simpl seq; simpl map.
      rewrite Nat.add_0_r, !Nat.sub_0_r; f_equal.
      rewrite <- seq_shift, map_map.
      apply map_ext; intros j.
      replace (tick w + S j)%nat with (S (tick w + j)) by lia.
      replace (i - S j)%nat with (i - 1 - j)%nat by lia.
      reflexivity.
    + f_equal; lia.
Qed.

Lemma date_range_length (A : Type) (rt : Runtime) (mk : Z -> A) (n : nat) w :
  List.length (fst (date_range rt mk n w)) = n.
Proof. rewrite date_range_run; simpl; rewrite length_map, length_seq; reflexivity. Qed.

(** With a clock that stays within one local day the loop yields the [n]
    consecutive days that end with that day. *)
Lemma date_range_days (A : Type) (rt : Runtime) (f : Z -> A) (n : nat) w today :
  same_day rt today (tick w) n ->
  fst (date_range rt (fun t => f (dayOf rt t)) n w) = map f (days_until today n).
Proof.
  intros Hday; rewrite date_range_run; simpl fst.
  unfold days_until; rewrite map_map; apply map_ext_in; intros j Hj.
  apply in_seq in Hj; f_equal.
  replace (clock rt (tick w + j) - Z.of_nat (n - 1 - j) * msPerDay)%Z
    with (clock rt (tick w + j) + (- Z.of_nat (n - 1 - j)) * msPerDay)%Z by ring.
  rewrite dayOf_shift, (Hday (tick w + j)%nat) by lia; ring.
Qed.

(** ** Routing events into the first bucket with their label *)

Section Buckets.
Variables (A : Type) (key : A -> string).
Variable label_of : Event -> string.
Variable g : Event -> A -> A.
Hypothesis g_key : forall e x, key (g e x) = key x.

Lemma bump_day_keys (label : string) (f : A -> A) (l : list A) :
  (forall x, key (f x) = key x) ->
  map key (bump_day key label f l) = map key l.
Proof.
  intros Hf; induction l as [|x l IH]; simpl; [reflexivity|].
  destruct (String.eqb (key x) label); simpl; [rewrite Hf | rewrite IH];
    reflexivity.
Qed.

Lemma bump_day_nth (label : string) (f : A -> A) (l : list A) (i : nat) :
  nth_error (bump_day key label f l) i
  = if routed_to (map key l) i label
    then option_map f (nth_error l i)
    else nth_error l i.
Proof.
  revert i; induction l as [|x l IH]; intros i; simpl.
  - unfold routed_to; simpl; reflexivity.
  - unfold routed_to; simpl.
    destruct (String.eqb (key x) label).
    + destruct i; reflexivity.
    + destruct i as [|i]; simpl.
      * destruct (route (map key l) label); reflexivity.
      * rewrite IH; unfold routed_to.
        destruct (route (map key l) label); reflexivity.
Qed.

Lemma bucket_fold_keys (events : list Event) :
  forall l, map key (fold_left (bucket_step key label_of g) events l) = map key l.
Proof.
  induction events as [|e events IH]; intros l; simpl; [reflexivity|].
  rewrite IH; apply bump_day_keys, g_key.
Qed.

(** Each bucket sees exactly the events routed to it, in order. *)
Lemma bucket_fold_nth (events : list Event) :
  forall l i,
    nth_error (fold_left (bucket_step key label_of g) events l) i
    = option_map
        (fun x =>
           fold_left
             (fun x e => if routed_to (map key l) i (label_of e) then g e x else x)
             events x)
        (nth_error l i).
Proof.
  induction events as [|e events IH]; intros l i; simpl.
  - destruct (nth_error l i); reflexivity.
  - rewrite IH; unfold bucket_step at 2; rewrite bump_day_nth.
    unfold bucket_step; rewrite bump_day_keys by apply g_key.
    destruct (routed_to (map key l) i (label_of e));
      destruct (nth_error l i); reflexivity.
Qed.
End Buckets.

(* ================================================================== *)
(** * Posts and engagement trend                                      *)
(* ================================================================== *)

Lemma kinds_exclusive (a b : string) (e : Event) :
  is_create a e = true -> is_create b e = true -> a = b.
Proof.
  unfold is_create; intros Ha Hb.
  apply andb_true_iff in Ha, Hb; destruct Ha as [Ha _], Hb as [Hb _].
  apply String.eqb_eq in Ha, Hb; congruence.
Qed.

Ltac split_kinds e :=
  destruct (is_create "ugcPosts" e) eqn:?K;
  destruct (is_create "socialActions/likes" e) eqn:?K;
  destruct (is_create "socialActions/comments" e) eqn:?K;
  destruct (is_create "socialActions/shares" e) eqn:?K;
  try (exfalso;
       match goal with
       | H1 : is_create ?a e = true, H2 : is_create ?b e = true |- _ =>
           assert (a = b) by (apply (kinds_exclusive _ _ _ H1 H2)); discriminate
       end).

Lemma count_activity_date (e : Event) (d : DayBucket.t) :
  DayBucket.date (count_activity e d) = DayBucket.date d.
Proof.
  unfold count_activity;
    repeat match goal with |- context [if ?b then _ else _] => destruct b end;
    reflexivity.
Qed.

(** What one bucket accumulates from the events routed to it. *)
Lemma day_bucket_fold (rt : Runtime) (labels : list string) (i : nat)
    (events : list Event) :
  forall d,
    let d' := fold_left
                (fun x e => if routed_to labels i (short_label rt e)
                            then count_activity e x else x) events d in
    DayBucket.date d' = DayBucket.date d
    /\ DayBucket.posts d'
       = (DayBucket.posts d + day_events rt labels i "ugcPosts" events)%Z
    /\ DayBucket.likes d'
       = (DayBucket.likes d + day_events rt labels i "socialActions/likes" events)%Z
    /\ DayBucket.comments d'
       = (DayBucket.comments d
          + day_events rt labels i "socialActions/comments" events)%Z
    /\ DayBucket.shares d'
       = (DayBucket.shares d + day_events rt labels i "socialActions/shares" events)%Z.
Proof.
  induction events as [|e events IH]; intros d; simpl.
  - unfold day_events, count_where; rewrite !Z_length_nil.
    repeat split; lia.
  - destruct (IH (if routed_to labels i (short_label rt e)
                  then count_activity e d else d)) as (Hd & Hp & Hl & Hc & Hs).
    rewrite Hd, Hp, Hl, Hc, Hs; unfold day_events; rewrite !count_where_cons.
    destruct (routed_to labels i (short_label rt e)); simpl.
    + rewrite count_activity_date; unfold count_activity.
      split_kinds e; simpl; repeat split; lia.
    + repeat split; lia.
Qed.

Lemma trend_run (rt : Runtime) changelogData timeRange w :
  fst (calculatePostsEngagementsTrend rt changelogData timeRange w)
  = map trend_point
      (fold_left
         (bucket_step DayBucket.date (short_label rt) count_activity)
         (changelog_elements changelogData)
         (fst (date_range rt (empty_day rt) (days_of_range timeRange) w))).
Proof.
  unfold calculatePostsEngagementsTrend, bind, ret.
  destruct (date_range rt (empty_day rt) (days_of_range timeRange) w); reflexivity.
Qed.

(** The trend has one entry per day of the range. *)
Lemma trend_entry_count (rt : Runtime) changelogData timeRange w :
  List.length (fst (calculatePostsEngagementsTrend rt changelogData timeRange w))
  = days_of_range timeRange.
Proof.
  rewrite trend_run, length_map.
  rewrite <- (length_map DayBucket.date), bucket_fold_keys
    by apply count_activity_date.
  rewrite length_map; apply date_range_length.
Qed.


Lemma date_range_nth (A : Type) (rt : Runtime) (mk : Z -> A) (n : nat) w i x :
  nth_error (fst (date_range rt mk n w)) i = Some x -> exists t, x = mk t.
Proof.
  rewrite date_range_run; simpl fst; rewrite nth_error_map.
  destruct (nth_error (seq 0 n) i); [|discriminate].
  intros [= <-]; eexists; reflexivity.
Qed.

(** C2, as amended.  Each entry of the trend is an object with the fields
    date, posts, likes, comments and totalEngagement.  The three counters
    are the numbers of post, like and comment CREATE events that land on
    the entry's day; the bucket's share counter is not a field of the
    entry, and totalEngagement, computed in the final projection, is
    likes + comments + that share counter. *)
Theorem trend_entry_fields (rt : Runtime) changelogData timeRange w i p :
  let out := fst (calculatePostsEngagementsTrend rt changelogData timeRange w) in
  let events := changelog_elements changelogData in
  let labels := map TrendPoint.date out in
  nth_error out i = Some p ->
  json_keys (json_of_trend_point p)
    = ["date"; "posts"; "likes"; "comments"; "totalEngagement"]
  /\ TrendPoint.posts p = day_events rt labels i "ugcPosts" events
  /\ TrendPoint.likes p = day_events rt labels i "socialActions/likes" events
  /\ TrendPoint.comments p = day_events rt labels i "socialActions/comments" events
  /\ TrendPoint.totalEngagement p
     = (TrendPoint.likes p + TrendPoint.comments p
        + day_events rt labels i "socialActions/shares" events)%Z.
Proof.
  intros out events labels Hp; split; [reflexivity|].
  subst out labels; rewrite trend_run in *; fold events in Hp |- *.
  set (range := fst (date_range rt (empty_day rt) (days_of_range timeRange) w)) in *.
  rewrite map_map.
  change (fun x => TrendPoint.date (trend_point x)) with DayBucket.date.
  rewrite bucket_fold_keys by apply count_activity_date.
  rewrite nth_error_map, bucket_fold_nth in Hp by apply count_activity_date.
  destruct (nth_error range i) as [d|] eqn:Hd; [|discriminate].
  simpl in Hp; injection Hp as <-.
  destruct (day_bucket_fold rt (map DayBucket.date range) i events d)
    as (_ & Hposts & Hlikes & Hcomments & Hshares).
  destruct (date_range_nth _ _ _ _ _ Hd) as (t & ->).
  simpl in Hposts, Hlikes, Hcomments, Hshares; simpl.
  rewrite Hposts, Hlikes, Hcomments, Hshares; repeat split; lia.
Qed.

Lemma trend_entry_fields_witness :
  nth_error
    (fst (calculatePostsEngagementsTrend (offline noon_2024_03_15)
            (changelog_of liked_post_changelog) "7d" world0)) 6
  = Some {| TrendPoint.date := "Mar 15"; TrendPoint.posts := 1;
            TrendPoint.likes := 0; TrendPoint.comments := 0;
            TrendPoint.totalEngagement := 0 |}
  /\ day_events (offline noon_2024_03_15)
       (map TrendPoint.date
          (fst (calculatePostsEngagementsTrend (offline noon_2024_03_15)
                  (changelog_of liked_post_changelog) "7d" world0)))
       6 "ugcPosts" liked_post_changelog = 1%Z.
Proof.
  assert (H : nth_error
    (fst (calculatePostsEngagementsTrend (offline noon_2024_03_15)
            (changelog_of liked_post_changelog) "7d" world0)) 6
    = Some {| TrendPoint.date := "Mar 15"; TrendPoint.posts := 1;
              TrendPoint.likes := 0; TrendPoint.comments := 0;
              TrendPoint.totalEngagement := 0 |}) by (vm_compute; reflexivity).
  split; [exact H|].
  destruct (@trend_entry_fields (offline noon_2024_03_15)
              (changelog_of liked_post_changelog) "7d" world0 6 _ H)
    as (_ & Hposts & _).
  symmetry; exact Hposts.
Defined.

(** C2 as stated fails: the entry of a day with one share has no field
    for the share counter; the share only shows in totalEngagement. *)
Lemma trend_entry_has_no_shares :
  let p := {| TrendPoint.date := "Mar 15"; TrendPoint.posts := 0;
              TrendPoint.likes := 0; TrendPoint.comments := 0;
              TrendPoint.totalEngagement := 1 |} in
  nth_error
    (fst (calculatePostsEngagementsTrend (offline noon_2024_03_15)
            share_today "7d" world0)) 6 = Some p
  /\ json_get "shares" (json_of_trend_point p) = None
  /\ ~ In "shares" (json_keys (json_of_trend_point p)).
Proof.
  split; [vm_compute; reflexivity|]; split; [reflexivity|].
  simpl; intros H; repeat (destruct H as [H|H]; [discriminate H|]); exact H.
Qed.

(* ================================================================== *)
(** * Connections growth                                              *)
(* ================================================================== *)

Lemma growth_loop_S (rt : Runtime) fuel sorted endDate d c :
  growth_loop rt (S fuel) sorted endDate d c
  = if (d <=? endDate)%Z then
      let dateStr := toLocaleDateString rt (Some d) in
      let connectionsOnDate :=
        Z_length (filter (fun conn =>
          String.eqb (toLocaleDateString rt (connection_date rt conn)) dateStr)
          sorted) in
      let c' := (c + connectionsOnDate)%Z in
      match growth_loop rt fuel sorted endDate (setDate rt d (getDate rt d + 1)) c' with
      | Some rest =>
          Some ({| GrowthPoint.date := toShortDateString rt (Some d);
                   GrowthPoint.totalConnections := c';
                   GrowthPoint.newConnections := connectionsOnDate |} :: rest)
      | None => None
      end
    else Some [].
Proof. reflexivity. Qed.

(** The loop leaves by its own condition, after one round per day from
    [d] up to [endDate]. *)
Lemma growth_loop_total (rt : Runtime) sorted endDate (fuel : nat) :
  forall d c,
    (endDate - d < Z.of_nat fuel * msPerDay)%Z ->
    exists l,
      growth_loop rt (S fuel) sorted endDate d c = Some l
      /\ Z.of_nat (List.length l)
         = (if (d <=? endDate)%Z then (endDate - d) / msPerDay + 1 else 0)%Z.
Proof.
  induction fuel as [|fuel IH]; intros d c Hfuel; rewrite growth_loop_S.
  - destruct (Z.leb_spec d endDate); [unfold msPerDay in Hfuel; lia|].
    exists []; split; reflexivity.
  - destruct (Z.leb_spec d endDate) as [Hle|Hgt].
    + cbv zeta; rewrite setDate_next.
      set (c' := (c + _)%Z).
      destruct (IH (d + msPerDay)%Z c') as (rest & -> & Hlen).
      { unfold msPerDay in *; lia. }
      eexists; split; [reflexivity|].
      simpl List.length; rewrite Nat2Z.inj_succ, Hlen.
      destruct (Z.leb_spec (d + msPerDay) endDate) as [Hle'|Hgt'].
      * replace (endDate - d)%Z with (endDate - (d + msPerDay) + 1 * msPerDay)%Z by ring.
        rewrite Z.div_add by (unfold msPerDay; lia); lia.
      * rewrite Z.div_small by (unfold msPerDay in *; lia); lia.
    + exists []; split; reflexivity.
Qed.

Lemma growth_run (rt : Runtime) connectionsData timeRange w :
  let endDate := clock rt (tick w) in
  let startDate :=
    setDate rt (clock rt (S (tick w)))
      (getDate rt endDate - Z.of_nat (days_of_range timeRange)) in
  fst (calculateConnectionsGrowth rt connectionsData timeRange w)
  = growth_loop rt (growth_fuel startDate endDate)
      (Js.sort (by_connection_date rt)
         (filter (fun conn => Js.truthy (connected_on conn))
            (snapshot_rows connectionsData)))
      endDate startDate 0.
Proof. reflexivity. Qed.

Lemma growth_fuel_enough (startDate endDate : Z) :
  (endDate - startDate
   < Z.of_nat (S (Z.to_nat ((endDate - startDate) / msPerDay))) * msPerDay)%Z.
Proof.
  rewrite Nat2Z.inj_succ.
  destruct (Z.lt_ge_cases (endDate - startDate) 0) as [Hneg|Hpos].
  - assert (0 <= Z.of_nat (Z.to_nat ((endDate - startDate) / msPerDay)))%Z by lia.
    unfold msPerDay in *; nia.
  - assert (Hq : (0 <= (endDate - startDate) / msPerDay)%Z)
      by (apply Z.div_pos; unfold msPerDay; lia).
    rewrite Z2Nat.id by exact Hq.
    pose proof (Z.mod_pos_bound (endDate - startDate) msPerDay) as Hm.
    pose proof (Z.div_mod (endDate - startDate) msPerDay) as Hd.
    unfold msPerDay in *; lia.
Qed.

(** The growth series is always produced. *)
Lemma growth_loop_returns (rt : Runtime) connectionsData timeRange w :
  exists l, fst (calculateConnectionsGrowth rt connectionsData timeRange w) = Some l.
Proof.
  rewrite growth_run; cbv zeta; unfold growth_fuel.
  edestruct growth_loop_total as (l & Hl & _); [apply growth_fuel_enough|].
  exists l; exact Hl.
Qed.

(** When both [new Date()] calls read the same instant the series has one
    entry more than the range has days. *)
Lemma growth_entry_count_steady (rt : Runtime) connectionsData timeRange w :
  clock rt (S (tick w)) = clock rt (tick w) ->
  exists l,
    fst (calculateConnectionsGrowth rt connectionsData timeRange w) = Some l
    /\ List.length l = S (days_of_range timeRange).
Proof.
  intros Hclock; rewrite growth_run; cbv zeta; unfold growth_fuel.
  edestruct growth_loop_total as (l & Hl & Hlen); [apply growth_fuel_enough|].
  exists l; split; [exact Hl|].
  rewrite Hclock, setDate_back in Hlen.
  set (t := clock rt (tick w)) in *; set (n := Z.of_nat (days_of_range timeRange)) in *.
  assert (Hn : (0 <= n)%Z) by (subst n; lia).
  destruct (Z.leb_spec (t - n * msPerDay) t) as [_|Hgt];
    [|unfold msPerDay in Hgt; lia].
  replace (t - (t - n * msPerDay))%Z with (0 + n * msPerDay)%Z in Hlen by ring.
  rewrite Z.div_add in Hlen by (unfold msPerDay; lia).
  simpl in Hlen; lia.
Qed.

(** When the second call reads a later instant of the same day the series
    has one entry per day of the range, and stops the day before today. *)
Lemma growth_entry_count_late (rt : Runtime) connectionsData timeRange w :
  dayOf rt (clock rt (S (tick w))) = dayOf rt (clock rt (tick w)) ->
  (clock rt (tick w) < clock rt (S (tick w)))%Z ->
  exists l,
    fst (calculateConnectionsGrowth rt connectionsData timeRange w) = Some l
    /\ List.length l = days_of_range timeRange.
Proof.
  intros Hday Hlate; rewrite growth_run; cbv zeta; unfold growth_fuel.
  edestruct growth_loop_total as (l & Hl & Hlen); [apply growth_fuel_enough|].
  exists l; split; [exact Hl|].
  unfold setDate, getDate in Hlen; rewrite Hday in Hlen.
  set (t1 := clock rt (tick w)) in *; set (t2 := clock rt (S (tick w))) in *.
  set (n := Z.of_nat (days_of_range timeRange)) in *.
  set (dom := dayOfMonth rt (dayOf rt t1)) in *.
  assert (Hn : (1 <= n)%Z).
  { subst n; destruct (days_of_range_values timeRange) as (_ & _ & _ & [H|[H|H]]);
      rewrite H; lia. }
  assert (Hnear : (t2 - t1 < msPerDay)%Z).
  { unfold dayOf in Hday.
    pose proof (Z.div_mod (t1 + tzOffset rt) msPerDay) as D1.
    pose proof (Z.div_mod (t2 + tzOffset rt) msPerDay) as D2.
    pose proof (Z.mod_pos_bound (t1 + tzOffset rt) msPerDay) as M1.
    pose proof (Z.mod_pos_bound (t2 + tzOffset rt) msPerDay) as M2.
    rewrite Hday in D2; unfold msPerDay in *; lia. }
  replace (t2 + (dom - n - dom) * msPerDay)%Z with (t2 - n * msPerDay)%Z in Hlen by ring.
  destruct (Z.leb_spec (t2 - n * msPerDay) t1) as [_|Hgt];
    [|unfold msPerDay in *; lia].
  replace (t1 - (t2 - n * msPerDay))%Z
    with ((t1 - t2 + msPerDay) + (n - 1) * msPerDay)%Z in Hlen by ring.
  rewrite Z.div_add in Hlen by (unfold msPerDay; lia).
  rewrite Z.div_small in Hlen by (unfold msPerDay in *; lia).
  lia.
Qed.

(** C1, at the failing input.  With the clock at 2024-03-15 12:00 UTC, no
    connections data and the range ["7d"], the growth series has eight
    entries, Mar 8 to Mar 15, where the range has seven days. *)
Theorem connections_growth_7d_has_8_entries :
  days_of_range "7d" = 7%nat
  /\ option_map (map GrowthPoint.date)
       (fst (calculateConnectionsGrowth (offline noon_2024_03_15) None "7d" world0))
     = Some ["Mar 8"; "Mar 9"; "Mar 10"; "Mar 11"; "Mar 12"; "Mar 13";
             "Mar 14"; "Mar 15"]
  /\ option_map (@List.length _)
       (fst (calculateConnectionsGrowth (offline noon_2024_03_15) None "7d" world0))
     = Some 8%nat.
Proof. split; [reflexivity|]; split; vm_compute; reflexivity. Qed.

(* ================================================================== *)
(** * Messages sent and received                                      *)
(* ================================================================== *)

Lemma count_message_date (uid : option string) (e : Event) (d : MessageDay.t) :
  MessageDay.date (count_message uid e d) = MessageDay.date d.
Proof. unfold count_message; destruct (same_id (actor e) uid); reflexivity. Qed.

Lemma messages_run (rt : Runtime) changelogData w :
  let events := changelog_elements changelogData in
  fst (calculateMessagesSentReceived rt changelogData w)
  = map (message_point rt)
      (fold_left
         (bucket_step MessageDay.date (locale_label rt)
            (count_message (currentUserId_of events)))
         (filter (recent_message (message_cutoff rt w)) events)
         (fst (date_range rt (empty_message_day rt) 30
                 {| tick := S (tick w); requests := requests w |}))).
Proof.
  unfold calculateMessagesSentReceived, bind, ret, now; cbv zeta.
  destruct (date_range rt (empty_message_day rt) 30
              {| tick := S (tick w); requests := requests w |}); reflexivity.
Qed.

(** The message series has thirty entries. *)
Lemma messages_entry_count (rt : Runtime) changelogData w :
  List.length (fst (calculateMessagesSentReceived rt changelogData w)) = 30%nat.
Proof.
  rewrite messages_run; cbv zeta; rewrite length_map.
  rewrite <- (length_map MessageDay.date), bucket_fold_keys
    by apply count_message_date.
  rewrite length_map; apply date_range_length.
Qed.

Lemma message_range_days (rt : Runtime) w today :
  same_day rt today (S (tick w)) 30 ->
  map MessageDay.date
    (fst (date_range rt (empty_message_day rt) 30
            {| tick := S (tick w); requests := requests w |}))
  = map (formatDefault rt) (days_until today 30).
Proof.
  intros Hday.
  change (empty_message_day rt)
    with (fun t => (fun day => {| MessageDay.date := formatDefault rt day;
                                  MessageDay.sent := 0; MessageDay.received := 0 |})
                     (dayOf rt t)).
  rewrite (@date_range_days _ rt _ 30
             {| tick := S (tick w); requests := requests w |} today Hday), map_map.
  reflexivity.
Qed.

Lemma message_keys_days (rt : Runtime) w today :
  same_day rt today (S (tick w)) 30 ->
  message_keys rt w = map (formatDefault rt) (days_until today 30).
Proof. apply message_range_days. Qed.

(** Its dates are the thirty days that end today when the default date
    string parses back to its own day. *)
Lemma messages_dates (rt : Runtime) changelogData w today :
  same_day rt today (S (tick w)) 30 ->
  (forall day, option_map (dayOf rt) (parseDate rt (formatDefault rt day)) = Some day) ->
  map MessageDay.date (fst (calculateMessagesSentReceived rt changelogData w))
  = map (formatShort rt) (days_until today 30).
Proof.
  intros Hday Hparse; rewrite messages_run; cbv zeta; rewrite map_map.
  rewrite <- (map_map MessageDay.date
                (fun s => toShortDateString rt (parseDate rt s))).
  rewrite bucket_fold_keys by apply count_message_date.
  rewrite (message_range_days _ Hday), map_map.
  apply map_ext; intros day; unfold toShortDateString.
  specialize (Hparse day); destruct (parseDate rt (formatDefault rt day));
    [injection Hparse as ->; reflexivity | discriminate].
Qed.


Lemma count_where_filter (A : Type) (p q : A -> bool) (l : list A) :
  count_where p (filter q l) = count_where (fun x => q x && p x) l.
Proof.
  unfold count_where; f_equal.
  induction l as [|x l IH]; simpl; [reflexivity|].
  destruct (q x); simpl; [destruct (p x)|]; rewrite IH; reflexivity.
Qed.


(** Routing by an injective label is routing by day. *)
Lemma route_injective (f : Z -> string) (days : list Z) (x : Z) (i : nat) :
  (forall a b, f a = f b -> a = b) -> NoDup days ->
  (routed_to (map f days) i (f x) = true <-> nth_error days i = Some x).
Proof.
  intros Hinj; revert i; induction days as [|y days IH]; intros i Hnd.
  - unfold routed_to; simpl; destruct i; split; discriminate.
  - inversion_clear Hnd as [|? ? Hy Hnd']; unfold routed_to; simpl.
    destruct (String.eqb_spec (f y) (f x)) as [E|Hne].
    + apply Hinj in E; subst y.
      destruct i as [|i]; simpl; [tauto|].
      split; [discriminate|]; intros H; apply nth_error_In in H; tauto.
    + destruct i as [|i]; simpl.
      * destruct (route (map f days) (f x)); simpl;
          split; try discriminate; intros [= ->]; congruence.
      * rewrite <- (IH i Hnd'); unfold routed_to.
        destruct (route (map f days) (f x)); simpl; tauto.
Qed.

Lemma days_until_nth (today : Z) (n i : nat) :
  (i < n)%nat ->
  nth_error (days_until today n) i = Some (today - Z.of_nat (n - 1 - i))%Z.
Proof.
  intros Hi; unfold days_until; rewrite nth_error_map.
  rewrite nth_error_seq; destruct (Nat.ltb_spec i n); [reflexivity | lia].
Qed.

Lemma days_until_NoDup (today : Z) (n : nat) : NoDup (days_until today n).
Proof.
  unfold days_until; apply Finite.Injective_map_NoDup_in; [|apply seq_NoDup].
  intros a b Ha Hb E; apply in_seq in Ha, Hb; lia.
Qed.

(** The first event with an owner names the current user. *)
Lemma currentUserId_first_owner (events : list Event) (uid : string) :
  currentUserId_of events = Some uid <->
  exists pre e post,
    events = pre ++ e :: post
    /\ Forall (fun x => Js.truthy (owner x) = false) pre
    /\ owner e = Some uid /\ uid <> "".
Proof.
  unfold currentUserId_of; induction events as [|x events IH]; simpl.
  - split; [discriminate | intros (pre & e & post & H & _); destruct pre; discriminate].
  - destruct (Js.truthy (owner x)) eqn:Hx.
    + split.
      * intros Ho; exists [], x, events; repeat split; [constructor | exact Ho |].
        intros ->; rewrite Ho in Hx; discriminate.
      * intros (pre & e & post & E & Hpre & Ho & _).
        destruct pre as [|y pre]; simpl in E; injection E as <- _; [exact Ho|].
        inversion Hpre; congruence.
    + rewrite IH; split.
      * intros (pre & e & post & -> & Hpre & Ho & Hne).
        exists (x :: pre), e, post; repeat split; auto.
      * intros (pre & e & post & E & Hpre & Ho & Hne).
        destruct pre as [|y pre]; simpl in E; injection E as <- ->.
        -- rewrite Ho in Hx; simpl in Hx.
           destruct (String.eqb_spec uid ""); [contradiction | discriminate].
        -- exists pre, e, post; inversion Hpre; repeat split; auto.
Qed.

(** Under a formatter that tells days apart and a clock that stays within
    one day, a message lands in bucket [i] exactly when its local day is
    the [i]-th of the thirty days that end today. *)
Lemma message_routing_by_day (rt : Runtime) w today i :
  (i < 30)%nat ->
  same_day rt today (S (tick w)) 30 ->
  (forall a b, formatDefault rt a = formatDefault rt b -> a = b) ->
  forall e,
    routed_to (message_keys rt w) i (locale_label rt e) = true
    <-> dayOf rt (capturedAt e) = (today - Z.of_nat (29 - i))%Z.
Proof.
  intros Hi Hday Hinj e.
  rewrite (message_keys_days _ Hday); unfold locale_label, toLocaleDateString.
  rewrite route_injective by (exact Hinj || apply days_until_NoDup).
  rewrite days_until_nth by exact Hi.
  replace (30 - 1 - i)%nat with (29 - i)%nat by lia.
  split; [intros [= <-]; reflexivity | intros ->; reflexivity].
Qed.




(* ================================================================== *)
(** * The request handler                                             *)
(* ================================================================== *)

Lemma truthy_false (o : option string) :
  Js.truthy o = false <-> o = None \/ o = Some "".
Proof.
  destruct o as [s|]; simpl.
  - destruct (String.eqb_spec s ""); simpl.
    + subst; split; [right; reflexivity | reflexivity].
    + split; [discriminate | intros [H|[= H]]; [discriminate | contradiction]].
  - split; [left; reflexivity | reflexivity].
Qed.

Lemma bind_run (A B : Type) (c : M A) (k : A -> M B) (w : World) :
  bind c k w = k (fst (c w)) (snd (c w)).
Proof. unfold bind; destruct (c w); reflexivity. Qed.

(** One call of [fetchLinkedInData] issues one request and leaves the
    clock alone. *)
Lemma fetch_world (A : Type)
    (fetch : string -> list (string * string) -> FetchResult A)
    (authorization endpoint : string) (domain : option string)
    (extraParams : string) (w : World) :
  snd (fetchLinkedInData fetch authorization endpoint domain extraParams w)
  = {| tick := tick w;
       requests := requests w
         ++ [ {| call_url := request_url endpoint domain extraParams;
                 call_headers := request_headers authorization |} ] |}.
Proof. reflexivity. Qed.

Lemma trend_world (rt : Runtime) changelogData timeRange w :
  snd (calculatePostsEngagementsTrend rt changelogData timeRange w)
  = {| tick := tick w + days_of_range timeRange; requests := requests w |}.
Proof.
  unfold calculatePostsEngagementsTrend, bind, ret.
  rewrite date_range_run; reflexivity.
Qed.

Lemma growth_world (rt : Runtime) connectionsData timeRange w :
  snd (calculateConnectionsGrowth rt connectionsData timeRange w)
  = {| tick := S (S (tick w)); requests := requests w |}.
Proof. reflexivity. Qed.

Lemma messages_world (rt : Runtime) changelogData w :
  snd (calculateMessagesSentReceived rt changelogData w)
  = {| tick := S (tick w) + 30; requests := requests w |}.
Proof.
  unfold calculateMessagesSentReceived, bind, ret, now.
  rewrite date_range_run; reflexivity.
Qed.

(** Without a token the handler answers at once: no request goes
    upstream and the clock is not read. *)
Lemma handler_unauthorized (rt : Runtime) (event : Request.t) (w : World) :
  Request.httpMethod event <> "OPTIONS" ->
  Js.truthy (field "authorization" (Request.headers event)) = false ->
  handler rt event w = (unauthorized, w).
Proof.
  intros Hm Ha; unfold handler.
  destruct (String.eqb_spec (Request.httpMethod event) "OPTIONS"); [contradiction|].
  cbv zeta; rewrite Ha; reflexivity.
Qed.

(** With a token the six upstream requests are issued, in order and with
    the token, and the answer is the analytics object with status 200. *)
Lemma handler_authorized (rt : Runtime) (event : Request.t) (w : World) :
  Request.httpMethod event <> "OPTIONS" ->
  Js.truthy (field "authorization" (Request.headers event)) = true ->
  exists fields w',
    handler rt event w
    = ({| Response.statusCode := 200;
          Response.headers :=
            [ ("Content-Type", "application/json");
              ("Access-Control-Allow-Origin", "*");
              ("Access-Control-Allow-Headers", "Content-Type, Authorization") ];
          Response.body := Some (JObj fields) |}, w')
    /\ map fst fields = analytics_fields
    /\ map call_url (requests w') = map call_url (requests w) ++ upstream_urls.
Proof.
  intros Hm Ha; unfold handler.
  destruct (String.eqb_spec (Request.httpMethod event) "OPTIONS"); [contradiction|].
  cbv zeta; rewrite Ha; cbn [negb].
  set (token := Js.or_default _ _).
  set (range := match Request.queryStringParameters event with
                | Some q => _ | None => _ end).
  repeat (rewrite bind_run; cbv beta).
  rewrite !fetch_world, trend_world, growth_world, messages_world.
  unfold ret, now; cbn [tick requests].
  eexists; eexists; split; [reflexivity|]; split; [reflexivity|].
  cbn [snd requests]; rewrite !map_app, <- !app_assoc; reflexivity.
Qed.

(** C6, as amended.  For a request that is not OPTIONS the handler answers
    401 with the body [{error: "No authorization token"}] if and only if
    the authorization header is absent or empty; it then issues no
    upstream request and runs no aggregation (the clock is not read).
    Otherwise it issues the six upstream requests and answers 200. *)
Theorem unauthorized_iff_no_token (rt : Runtime) (event : Request.t) (w : World) :
  Request.httpMethod event <> "OPTIONS" ->
  let authorization := field "authorization" (Request.headers event) in
  let response := fst (handler rt event w) in
  let w' := snd (handler rt event w) in
  ((Response.statusCode response = 401%Z
    /\ Response.body response
       = Some (JObj [("error", JStr "No authorization token")]))
   <-> (authorization = None \/ authorization = Some ""))
  /\ (Response.statusCode response = 401%Z -> w' = w)
  /\ (Response.statusCode response <> 401%Z ->
      Response.statusCode response = 200%Z
      /\ map call_url (requests w') = map call_url (requests w) ++ upstream_urls).
Proof.
  intros Hm authorization response w'.
  destruct (Js.truthy authorization) eqn:Ha.
  - destruct (handler_authorized rt event w Hm Ha) as (fields & w1 & E & _ & Hu).
    subst response w'; rewrite E; simpl.
    split; [|split].
    + split; [intros [H _]; discriminate|].
      intros H; apply truthy_false in H; congruence.
    + discriminate.
    + intros _; split; [reflexivity | exact Hu].
  - pose proof (handler_unauthorized rt event w Hm Ha) as E.
    subst response w'; rewrite E; simpl.
    split; [|split].
    + split; [intros _; apply truthy_false, Ha | intros _; split; reflexivity].
    + reflexivity.
    + intros H; contradiction H; reflexivity.
Qed.

Lemma unauthorized_iff_no_token_witness :
  handler (offline noon_2024_03_15) (get_request [("accept", "*/*")] (Some "7d")) world0
    = (unauthorized, world0)
  /\ (Response.statusCode
        (fst (handler (offline noon_2024_03_15)
                (get_request [("authorization", "Bearer abc")] (Some "7d")) world0))
      = 200%Z).
Proof.
  split; [reflexivity|].
  destruct (@unauthorized_iff_no_token (offline noon_2024_03_15)
              (get_request [("authorization", "Bearer abc")] (Some "7d")) world0)
    as (_ & _ & H).
  - discriminate.
  - apply H; vm_compute; discriminate.
Defined.

(** C6 as stated fails: an authorization header that is present with an
    empty value is answered with 401 as well. *)
Lemma empty_token_is_unauthorized :
  let event := get_request [("authorization", "")] None in
  Request.httpMethod event <> "OPTIONS"
  /\ field "authorization" (Request.headers event) = Some ""
  /\ handler (offline noon_2024_03_15) event world0 = (unauthorized, world0).
Proof. split; [discriminate|]; split; reflexivity. Qed.

(* ================================================================== *)
(** * Missing upstream data                                           *)
(* ================================================================== *)

Lemma changelog_posts_filter changelogData :
  changelog_posts changelogData
  = filter is_post_create (changelog_elements changelogData).
Proof.
  unfold changelog_posts, changelog_elements.
  destruct changelogData as [[[es|]]|]; reflexivity.
Qed.







(* ================================================================== *)
(** * Further properties of the ranked outputs                        *)
(* ================================================================== *)

Lemma NoDup_firstn_of (A : Type) (n : nat) (l : list A) :
  NoDup l -> NoDup (firstn n l).
Proof.
  intros H; revert n; induction H as [|x l Hx Hnd IH]; intros [|n]; simpl;
    try constructor.
  - intros Hin; apply Hx; eapply in_firstn; eassumption.
  - apply IH.
Qed.

Lemma sorted_app_le (A : Type) (R : A -> A -> Prop) (l1 l2 : list A) :
  StronglySorted R (l1 ++ l2) ->
  forall a b, In a l1 -> In b l2 -> R a b.
Proof.
  induction l1 as [|x l1 IH]; simpl; intros Hs a b Ha Hb; [contradiction|].
  inversion_clear Hs as [|? ? Hs' Hx].
  destruct Ha as [<-|Ha].
  - rewrite Forall_forall in Hx; apply Hx, in_or_app; right; exact Hb.
  - eapply IH; eassumption.
Qed.

Lemma top10_keys_NoDup (o : Js.Obj Z) :
  NoDup (map fst o) -> NoDup (map fst (top10 o)).
Proof.
  intros Hnd; unfold top10; rewrite <- firstn_map; apply NoDup_firstn_of.
  eapply Permutation_NoDup; [|exact Hnd].
  apply Permutation_map, Permutation_sym.
  eapply perm_trans; [apply sort_perm | apply entries_perm].
Qed.

(** A name left out of the ten is no more frequent than any of them. *)
Lemma top10_best (names : list string) (o : Js.Obj Z) :
  tallied names o ->
  forall t, In t names ->
    In t (map fst (top10 o))
    \/ (List.length (top10 o) = 10%nat
        /\ forall e, In e (top10 o) -> (occurrences t names <= snd e)%Z).
Proof.
  intros (Hnd & Hcnt & Hall & _) t Ht.
  apply Hall, in_map_iff in Ht; destruct Ht as ([t' c] & Et & Hin); simpl in Et; subst t'.
  destruct (Hcnt _ _ Hin) as [Hc _].
  set (s := Js.sort by_count_desc (Js.entries o)).
  assert (Hs : In (t, c) s) by (apply sort_In, entries_In, Hin).
  assert (Hsorted : StronglySorted (fun x y => (by_count_desc x y <= 0)%Z) s)
    by (apply sort_sorted; [apply by_count_desc_total | apply by_count_desc_trans]).
  rewrite <- (firstn_skipn 10 s) in Hs, Hsorted.
  apply in_app_or in Hs; destruct Hs as [Hs|Hs].
  - left; change t with (fst (t, c)); apply in_map, Hs.
  - right; split.
    + unfold top10; fold s; rewrite length_firstn.
      assert (List.length (skipn 10 s) <> 0%nat) by (destruct (skipn 10 s); [contradiction | discriminate]).
      rewrite length_skipn in H; lia.
    + intros e He; pose proof (@sorted_app_le _ _ _ _ Hsorted _ _ He Hs) as Hle.
      unfold by_count_desc in Hle; simpl in Hle; lia.
Qed.

Lemma top10_whole (o : Js.Obj Z) :
  (List.length (top10 o) < 10)%nat -> Permutation (top10 o) o.
Proof.
  unfold top10; intros H; rewrite length_firstn in H.
  rewrite firstn_all2 by lia.
  eapply perm_trans; [apply sort_perm | apply entries_perm].
Qed.

Lemma total_perm (l l' : list Z) : Permutation l l' -> total l = total l'.
Proof.
  induction 1; simpl; try lia.
Qed.

Lemma tally_total (o : Js.Obj Z) (k : string) :
  total (map snd (tally o k)) = (total (map snd o) + 1)%Z.
Proof.
  unfold tally; induction o as [|[k' v'] o IH]; simpl; [reflexivity|].
  destruct (String.eqb k k'); simpl.
  - destruct (Z.eqb_spec v' 0); lia.
  - rewrite IH; lia.
Qed.

Lemma tally_fold_total (names : list string) :
  forall o,
    total (map snd (fold_left tally names o))
    = (total (map snd o) + Z_length names)%Z.
Proof.
  induction names as [|k names IH]; intros o; simpl.
  - rewrite Z_length_nil; lia.
  - rewrite IH, tally_total, Z_length_cons; lia.
Qed.

Lemma occurrences_map (A : Type) (g : A -> string) (k : string) (l : list A) :
  occurrences k (map g l) = count_where (fun x => String.eqb k (g x)) l.
Proof.
  unfold occurrences; induction l as [|x l IH]; [reflexivity|].
  simpl map; rewrite !count_where_cons, IH; reflexivity.
Qed.

Lemma audience_list_table (f : string) connectionsData :
  In f audience_fields ->
  audience_list f (calculateAudienceDistribution connectionsData)
  = map ranked (top10 (audience_table f (snapshot_rows connectionsData))).
Proof.
  intros [<-|[<-|[<-|[]]]]; reflexivity.
Qed.

Lemma audience_table_fold (f : string) (rows : list Row) :
  audience_table f rows = fold_left tally (map (audience_key f) rows) [].
Proof.
  unfold audience_table; generalize (@nil (string * Z)).
  induction rows as [|c l IH]; intros o; simpl; [reflexivity | apply IH].
Qed.

Lemma map_ranked_name (l : list (string * Z)) :
  map RankedEntry.name (map ranked l) = map fst l.
Proof. rewrite map_map; apply map_ext; reflexivity. Qed.

Lemma map_ranked_value (l : list (string * Z)) :
  map RankedEntry.value (map ranked l) = map snd l.
Proof. rewrite map_map; apply map_ext; reflexivity. Qed.

Lemma map_hashtag_name (l : list (string * Z)) :
  map HashtagCount.hashtag (map hashtag_count l) = map fst l.
Proof. rewrite map_map; apply map_ext; reflexivity. Qed.

(** X16.  The hashtags reported are pairwise distinct, and a hashtag that is
    not reported occurs no more often than any reported one, of which
    there are then ten. *)
Theorem top_hashtags_are_the_most_frequent postsData changelogData :
  let tags := calculateTopHashtags postsData changelogData in
  NoDup (map HashtagCount.hashtag tags)
  /\ forall t, In t (all_hashtags postsData changelogData) ->
       In t (map HashtagCount.hashtag tags)
       \/ (List.length tags = 10%nat
           /\ forall e, In e tags ->
                (occurrences t (all_hashtags postsData changelogData)
                 <= HashtagCount.count e)%Z).
Proof.
  intros tags; subst tags; unfold calculateTopHashtags.
  pose proof (hashtag_table_tallied postsData changelogData) as Ht.
  rewrite map_hashtag_name; split.
  - apply top10_keys_NoDup, Ht.
  - intros t Hin; destruct (@top10_best _ _ Ht t Hin) as [H|[Hlen Hle]].
    + left; exact H.
    + right; split; [rewrite length_map; exact Hlen|].
      intros e He; apply in_map_iff in He; destruct He as (p & <- & Hp).
      apply Hle, Hp.
Qed.

Lemma top_hashtags_are_the_most_frequent_witness :
  map HashtagCount.hashtag (calculateTopHashtags tagged_posts tagged_changelog)
    = ["#rocq"; "#proofs"]
  /\ In "#proofs"
       (map HashtagCount.hashtag (calculateTopHashtags tagged_posts tagged_changelog)).
Proof.
  split; [reflexivity|].
  destruct (top_hashtags_are_the_most_frequent tagged_posts tagged_changelog)
    as [_ H].
  destruct (H "#proofs") as [Hin|[Hlen _]].
  - vm_compute; tauto.
  - exact Hin.
  - vm_compute in Hlen; discriminate Hlen.
Defined.

(** X17.  Each audience list reports, for a name, the number of connections
    filed under it -- connections without the field, or with an empty one,
    under ["Unknown"] -- with pairwise distinct names; a name left out is
    no more frequent than any of the ten reported; and when fewer than ten
    names are reported the counts add up to the number of connections. *)
Theorem audience_counts_connections connectionsData (f : string) :
  In f audience_fields ->
  Forall Js.plain_key (audience_names f connectionsData) ->
  let rows := snapshot_rows connectionsData in
  let out := audience_list f (calculateAudienceDistribution connectionsData) in
  NoDup (map RankedEntry.name out)
  /\ (forall e, In e out ->
        RankedEntry.value e = rows_with f (RankedEntry.name e) rows
        /\ (0 < RankedEntry.value e)%Z)
  /\ (forall conn, In conn rows ->
        In (audience_key f conn) (map RankedEntry.name out)
        \/ (List.length out = 10%nat
            /\ forall e, In e out ->
                 (rows_with f (audience_key f conn) rows <= RankedEntry.value e)%Z))
  /\ ((List.length out < 10)%nat ->
      total (map RankedEntry.value out) = Z_length rows).
Proof.
  intros Hf _ rows out; subst out; rewrite (@audience_list_table _ connectionsData Hf); fold rows.
  pose proof (audience_table_tallied f rows) as Ht.
  rewrite map_ranked_name, map_ranked_value.
  split; [apply top10_keys_NoDup, Ht|]; split; [|split].
  - intros e He; apply in_map_iff in He; destruct He as (p & <- & Hp); simpl.
    destruct (@top10_counts _ _ _ Ht Hp) as [Hc Hin].
    unfold rows_with; rewrite <- occurrences_map, <- Hc; split; [reflexivity|].
    rewrite Hc; apply occurrences_pos, Hin.
  - intros conn Hconn.
    destruct (@top10_best _ _ Ht (audience_key f conn)) as [H|[Hlen Hle]].
    + apply in_map, Hconn.
    + left; exact H.
    + right; split; [rewrite length_map; exact Hlen|].
      intros e He; apply in_map_iff in He; destruct He as (p & <- & Hp); simpl.
      unfold rows_with; rewrite <- occurrences_map; apply Hle, Hp.
  - rewrite length_map; intros Hlen.
    rewrite (@total_perm _ _ (Permutation_map snd (@top10_whole _ Hlen))).
    rewrite audience_table_fold, tally_fold_total; simpl.
    unfold Z_length; rewrite length_map; lia.
Qed.

Lemma audience_counts_connections_witness :
  Audience.industries (calculateAudienceDistribution plain_connections)
    = [ {| RankedEntry.name := "Software"; RankedEntry.value := 2 |};
        {| RankedEntry.name := "Unknown"; RankedEntry.value := 1 |} ]
  /\ total (map RankedEntry.value
              (Audience.industries (calculateAudienceDistribution plain_connections)))
     = 3%Z.
Proof.
  split; [reflexivity|].
  destruct (@audience_counts_connections plain_connections "Industry")
    as (_ & _ & _ & H).
  - left; reflexivity.
  - apply plain_connections_keys; left; reflexivity.
  - apply H; vm_compute; lia.
Defined.

(* ================================================================== *)
(** * Further properties of the engagement ranking                    *)
(* ================================================================== *)

Lemma string_length_append (a b : string) :
  String.length (a ++ b)%string = (String.length a + String.length b)%nat.
Proof. induction a as [|c a IH]; simpl; [reflexivity | rewrite IH; reflexivity]. Qed.

Lemma take_length (n : nat) (s : string) :
  String.length (Js.take n s) = Nat.min n (String.length s).
Proof.
  revert s; induction n as [|n IH]; intros [|c s]; simpl; try reflexivity.
  rewrite IH; reflexivity.
Qed.

Lemma take_all (n : nat) (s : string) :
  (String.length s <= n)%nat -> Js.take n s = s.
Proof.
  revert s; induction n as [|n IH]; intros [|c s]; simpl; intros H;
    try reflexivity; try lia.
  rewrite IH by lia; reflexivity.
Qed.

Lemma string_append_empty (s : string) : (s ++ "")%string = s.
Proof. induction s as [|c s IH]; simpl; [reflexivity | rewrite IH; reflexivity]. Qed.

Lemma In_set_weak (V : Type) (o : Js.Obj V) (k : string) (v : V) (e : string * V) :
  In e (Js.set k v o) -> e = (k, v) \/ In e o.
Proof.
  induction o as [|[k0 v0] o IH]; simpl.
  - intros [<-|[]]; left; reflexivity.
  - destruct (String.eqb_spec k k0) as [->|Hne]; simpl.
    + intros [<-|H]; [left; reflexivity | right; right; exact H].
    + intros [<-|H]; [right; left; reflexivity|].
      destruct (IH H) as [->|H']; [left; reflexivity | right; right; exact H'].
Qed.

Lemma In_update_weak (V : Type) (o : Js.Obj V) (k : string) (f : V -> V)
    (e : string * V) :
  In e (Js.update k f o) ->
  In e o \/ exists v0, In (fst e, v0) o /\ snd e = f v0.
Proof.
  induction o as [|[k0 v0] o IH]; simpl; [tauto|].
  destruct (String.eqb k k0); simpl.
  - intros [<-|H]; [right; exists v0; split; [left|]; reflexivity | left; right; exact H].
  - intros [<-|H]; [left; left; reflexivity|].
    destruct (IH H) as [H'|(v1 & H1 & E)]; [left; right; exact H'|].
    right; exists v1; split; [right; exact H1 | exact E].
Qed.

Lemma seed_fold_seeded (events posts : list Event) :
  forall m,
    (forall p, In p posts -> In p events /\ is_post_create p = true) ->
    Forall (fun e => seeded_from events (snd e)) m ->
    Forall (fun e => seeded_from events (snd e)) (fold_left seed_post posts m).
Proof.
  induction posts as [|p posts IH]; intros m Hp Hm; simpl; [exact Hm|].
  apply IH; [intros q Hq; apply Hp; right; exact Hq|].
  apply Forall_forall; intros e He; unfold seed_post in He.
  apply In_set_weak in He; destruct He as [->|He].
  - destruct (Hp p (or_introl eq_refl)) as [Hin Hc].
    exists p; simpl; repeat split; assumption.
  - rewrite Forall_forall in Hm; apply Hm, He.
Qed.

Lemma count_engagement_seeded (events : list Event)
    (m : Js.Obj PostEngagement.t) (e : Event) :
  Forall (fun x => seeded_from events (snd x)) m ->
  Forall (fun x => seeded_from events (snd x)) (count_engagement m e).
Proof.
  intros Hm.
  assert (Hupd : forall id f,
    (forall v, seeded_from events v -> seeded_from events (f v)) ->
    Forall (fun x => seeded_from events (snd x)) (Js.update id f m)).
  { intros id f Hf; apply Forall_forall; intros x Hx.
    rewrite Forall_forall in Hm.
    apply In_update_weak in Hx; destruct Hx as [Hx|(v0 & H0 & ->)].
    - apply Hm, Hx.
    - apply Hf, (Hm _ H0). }
  unfold count_engagement.
  destruct (activity_object e) as [id|]; [|exact Hm].
  destruct (negb (String.eqb id "")); [|exact Hm].
  destruct (Js.get id m); [|exact Hm].
  repeat match goal with |- context [if ?b then _ else _] => destruct b end;
    try exact Hm; apply Hupd; intros v (p & H); exists p; exact H.
Qed.

Lemma count_fold_seeded (events l : list Event) :
  forall m,
    Forall (fun x => seeded_from events (snd x)) m ->
    Forall (fun x => seeded_from events (snd x)) (fold_left count_engagement l m).
Proof.
  induction l as [|e l IH]; intros m Hm; simpl; [exact Hm|].
  apply IH, count_engagement_seeded, Hm.
Qed.

Lemma engagement_table_seeded changelogData :
  Forall (fun x => seeded_from (changelog_elements changelogData) (snd x))
    (engagement_table changelogData).
Proof.
  unfold engagement_table.
  apply count_fold_seeded, seed_fold_seeded; [|constructor].
  intros p Hp; apply filter_In in Hp; exact Hp.
Qed.

Lemma summaries_ids (m : Js.Obj PostEngagement.t) :
  (forall k v, In (k, v) m -> PostEngagement.postId v = k) ->
  map PostSummary.postId (map summarize (map snd m)) = map fst m.
Proof.
  intros H; rewrite !map_map; apply map_ext_in; intros [k v] Hin; simpl.
  apply H, Hin.
Qed.

(** X18.  The ranking lists each post once, and a post that is left out has no
    more engagement than any of the ten that are listed. *)
Theorem engagement_ranking_is_the_top changelogData :
  let events := changelog_elements changelogData in
  let out := calculateEngagementPerPost changelogData in
  plain_ids events ->
  NoDup (map PostSummary.postId out)
  /\ forall p, In p events -> is_post_create p = true ->
       In (resourceId p) (map PostSummary.postId out)
       \/ (List.length out = 10%nat
           /\ forall s, In s out ->
                (credited_total (resourceId p) events
                 <= PostSummary.totalEngagement s)%Z).
Proof.
  intros events out _.
  destruct (engagement_table_joined changelogData) as [[Hnd Hv] Hkeys].
  fold events in Hv, Hkeys.
  set (table := engagement_table changelogData) in *.
  set (s := Js.sort by_engagement_desc (map summarize (Js.values table))).
  assert (Hentries : forall k v, In (k, v) (Js.entries table) ->
            PostEngagement.postId v = k).
  { intros k v H; apply (proj1 (entries_In _ _)) in H; apply (Hv _ _ H). }
  assert (Hids : Permutation (map PostSummary.postId s) (map fst table)).
  { eapply perm_trans; [apply Permutation_map, sort_perm|].
    unfold Js.values; rewrite (summaries_ids _ Hentries).
    apply Permutation_map, entries_perm. }
  assert (Hout : out = firstn 10 s) by reflexivity.
  split.
  - rewrite Hout, <- firstn_map; apply NoDup_firstn_of.
    eapply Permutation_NoDup; [apply Permutation_sym, Hids | exact Hnd].
  - intros p Hp Hc.
    assert (Hk : In (resourceId p) (map fst table))
      by (apply Hkeys; exists p; repeat split; assumption).
    apply in_map_iff in Hk; destruct Hk as ([k v] & Ek & Hin); simpl in Ek; subst k.
    destruct (Hv _ _ Hin) as (Eid & El & Ec & Es).
    assert (Hs : In (summarize v) s).
    { apply sort_In, in_map, values_In; exists (resourceId p); exact Hin. }
    assert (Hsorted : StronglySorted (fun x y => (by_engagement_desc x y <= 0)%Z) s)
      by (apply sort_sorted;
          [apply by_engagement_desc_total | apply by_engagement_desc_trans]).
    rewrite <- (firstn_skipn 10 s) in Hs, Hsorted.
    apply in_app_or in Hs; destruct Hs as [Hs|Hs].
    + left; rewrite Hout.
      replace (resourceId p) with (PostSummary.postId (summarize v))
        by (simpl; exact Eid).
      apply in_map, Hs.
    + right; split.
      * rewrite Hout, length_firstn.
        assert (List.length (skipn 10 s) <> 0%nat)
          by (destruct (skipn 10 s); [contradiction | discriminate]).
        rewrite length_skipn in H; lia.
      * intros x Hx; rewrite Hout in Hx.
        pose proof (@sorted_app_le _ _ _ _ Hsorted _ _ Hx Hs) as Hle.
        unfold by_engagement_desc in Hle; simpl in Hle.
        unfold credited_total; rewrite <- El, <- Ec, <- Es; lia.
Qed.

Lemma engagement_ranking_is_the_top_witness :
  map PostSummary.postId
    (calculateEngagementPerPost (changelog_of liked_post_changelog))
  = ["urn:li:share:1"].
Proof.
  destruct (@engagement_ranking_is_the_top (changelog_of liked_post_changelog)
              liked_post_plain_ids) as [_ H].
  destruct (H (post_event "urn:li:share:1" noon_2024_03_15 (commentary "Hello #rocq")))
    as [Hin|[Hlen _]].
  - left; reflexivity.
  - reflexivity.
  - reflexivity.
  - vm_compute in Hlen; discriminate Hlen.
Defined.

(** X19.  Each summary carries the identifier, the capture time and the text of
    a creation event of its post; the text is ["Post content"] when the
    post has no commentary, is kept whole up to 50 characters, and is cut
    to its first 50 characters followed by ["..."] beyond that. *)
Theorem engagement_summary_content changelogData (s : PostSummary.t) :
  let events := changelog_elements changelogData in
  plain_ids events ->
  In s (calculateEngagementPerPost changelogData) ->
  (String.length (PostSummary.content s) <= 53)%nat
  /\ exists p,
       In p events /\ is_post_create p = true
       /\ PostSummary.postId s = resourceId p
       /\ PostSummary.createdAt s = capturedAt p
       /\ ((String.length (post_text p) <= 50)%nat ->
           PostSummary.content s = post_text p)
       /\ ((50 < String.length (post_text p))%nat ->
           PostSummary.content s = (Js.take 50 (post_text p) ++ "...")%string).
Proof.
  intros events _ Hs; unfold calculateEngagementPerPost in Hs.
  apply in_firstn in Hs; apply (proj1 (sort_In _ _ _)) in Hs.
  apply in_map_iff in Hs; destruct Hs as (v & <- & Hin).
  apply values_In in Hin; destruct Hin as (k & Hin).
  pose proof (engagement_table_seeded changelogData) as Hseed.
  rewrite Forall_forall in Hseed.
  destruct (Hseed _ Hin) as (p & Hp & Hc & Eid & Etext & Etime).
  cbn [snd] in Eid, Etext, Etime; unfold summarize.
  cbn [PostSummary.content PostSummary.postId PostSummary.createdAt].
  split.
  - rewrite string_length_append, take_length.
    pose proof (Nat.le_min_l 50 (String.length (PostEngagement.content v))) as Hmin.
    destruct (Nat.ltb 50 (String.length (PostEngagement.content v)));
      cbn [String.length]; lia.
  - exists p; repeat split; try assumption; rewrite Etext; intros Hlen.
    + destruct (Nat.ltb_spec 50 (String.length (post_text p))); [lia|].
      rewrite take_all by exact Hlen; apply string_append_empty.
    + destruct (Nat.ltb_spec 50 (String.length (post_text p))); [reflexivity | lia].
Qed.

Lemma long_post_plain_ids : plain_ids long_post_changelog.
Proof.
  unfold plain_ids, long_post_changelog.
  repeat constructor; simpl; try apply plain_keyb_sound; reflexivity.
Qed.

Lemma engagement_summary_content_witness :
  map PostSummary.content
    (calculateEngagementPerPost (changelog_of long_post_changelog))
  = [ "01234567890123456789012345678901234567890123456789..."; "Post content" ]
  /\ (String.length "01234567890123456789012345678901234567890123456789..."
      <= 53)%nat.
Proof.
  split; [reflexivity|].
  assert (Hin : In {| PostSummary.postId := "urn:li:share:4";
                      PostSummary.content :=
                        "01234567890123456789012345678901234567890123456789...";
                      PostSummary.likes := 0; PostSummary.comments := 0;
                      PostSummary.shares := 0;
                      PostSummary.createdAt := noon_2024_03_15;
                      PostSummary.totalEngagement := 0 |}
                 (calculateEngagementPerPost (changelog_of long_post_changelog)))
    by (left; reflexivity).
  exact (proj1 (@engagement_summary_content (changelog_of long_post_changelog) _
                  long_post_plain_ids Hin)).
Defined.

(* ================================================================== *)
(** * Further properties of the day series                            *)
(* ================================================================== *)

Lemma offline_same_day (lo n : nat) :
  same_day (offline noon_2024_03_15) 19797 lo n.
Proof. intros k _; vm_compute; reflexivity. Qed.






(** ** Events without a bucket, order of events, totals *)

Lemma count_where_perm (A : Type) (p : A -> bool) (l l' : list A) :
  Permutation l l' -> count_where p l = count_where p l'.
Proof.
  induction 1 as [|x l l' _ IH|x y l|l l' l'' _ IH1 _ IH2].
  - reflexivity.
  - rewrite !count_where_cons, IH; reflexivity.
  - rewrite !count_where_cons; lia.
  - rewrite IH1; exact IH2.
Qed.

Lemma total_indicator (A : Type) (p : A -> bool) (l : list A) :
  total (map (fun x => if p x then 1 else 0)%Z l) = count_where p l.
Proof.
  induction l as [|x l IH]; [reflexivity|].
  simpl; rewrite count_where_cons, IH; lia.
Qed.

Lemma has_label_route (labels : list string) (label : string) :
  has_label labels label = false <-> route labels label = None.
Proof.
  induction labels as [|k labels IH]; simpl; [tauto|].
  rewrite (String.eqb_sym label k).
  destruct (String.eqb k label); simpl.
  - split; discriminate.
  - rewrite IH; destruct (route labels label); simpl; split; congruence.
Qed.

Section BucketTotals.
Variables (A : Type) (key : A -> string).
Variable label_of : Event -> string.
Variable g : Event -> A -> A.
Hypothesis g_key : forall e x, key (g e x) = key x.

Lemma bump_day_absent (label : string) (f : A -> A) (l : list A) :
  has_label (map key l) label = false -> bump_day key label f l = l.
Proof.
  induction l as [|x l IH]; simpl; [reflexivity|].
  rewrite (String.eqb_sym label (key x)).
  destruct (String.eqb (key x) label); simpl; [discriminate|].
  intros H; rewrite IH by exact H; reflexivity.
Qed.

Lemma bump_day_same (label : string) (f : A -> A) (l : list A) :
  (forall x, f x = x) -> bump_day key label f l = l.
Proof.
  intros Hf; induction l as [|x l IH]; simpl; [reflexivity|].
  destruct (String.eqb (key x) label); [rewrite Hf | rewrite IH]; reflexivity.
Qed.

(** Events that find no bucket, or that change no bucket, can be dropped. *)
Lemma bucket_fold_filter (keep : Event -> bool) (events : list Event) :
  forall l,
    (forall e, In e events -> keep e = false ->
       has_label (map key l) (label_of e) = false \/ forall x, g e x = x) ->
    fold_left (bucket_step key label_of g) (filter keep events) l
    = fold_left (bucket_step key label_of g) events l.
Proof.
  induction events as [|e events IH]; intros l H; simpl; [reflexivity|].
  assert (Hrest : forall l', map key l' = map key l ->
            forall e', In e' events -> keep e' = false ->
              has_label (map key l') (label_of e') = false
              \/ forall x, g e' x = x).
  { intros l' E e' He' Hk; rewrite E; apply H; [right; exact He' | exact Hk]. }
  destruct (keep e) eqn:Hk; simpl.
  - apply IH, Hrest; unfold bucket_step; apply bump_day_keys, g_key.
  - assert (E : bucket_step key label_of g l e = l).
    { unfold bucket_step.
      destruct (H e (or_introl eq_refl) Hk) as [Habs|Hid];
        [apply bump_day_absent, Habs | apply bump_day_same, Hid]. }
    rewrite E; apply IH, Hrest; reflexivity.
Qed.

Variable m : A -> Z.
Variable delta : Event -> Z.
Hypothesis g_delta : forall e x, m (g e x) = (m x + delta e)%Z.

Lemma bump_day_total (e : Event) (l : list A) :
  total (map m (bump_day key (label_of e) (g e) l))
  = (total (map m l)
     + if has_label (map key l) (label_of e) then delta e else 0)%Z.
Proof.
  induction l as [|x l IH]; simpl; [reflexivity|].
  rewrite (String.eqb_sym (label_of e) (key x)).
  destruct (String.eqb (key x) (label_of e)); simpl.
  - rewrite g_delta; lia.
  - rewrite IH; lia.
Qed.

(** Every event with a bucket adds its [delta] to the series, once. *)
Lemma bucket_fold_total (events : list Event) :
  forall l,
    total (map m (fold_left (bucket_step key label_of g) events l))
    = (total (map m l)
       + total (map (fun e => if has_label (map key l) (label_of e)
                              then delta e else 0) events))%Z.
Proof.
  induction events as [|e events IH]; intros l; simpl; [lia|].
  rewrite IH; unfold bucket_step; rewrite bump_day_total.
  rewrite bump_day_keys by apply g_key; lia.
Qed.
End BucketTotals.

Lemma day_bucket_eta (a b : DayBucket.t) :
  DayBucket.date a = DayBucket.date b -> DayBucket.posts a = DayBucket.posts b ->
  DayBucket.likes a = DayBucket.likes b ->
  DayBucket.comments a = DayBucket.comments b ->
  DayBucket.shares a = DayBucket.shares b -> a = b.
Proof. destruct a, b; simpl; intros; subst; reflexivity. Qed.

Lemma count_activity_none (e : Event) :
  trend_kind e = false -> forall d, count_activity e d = d.
Proof.
  unfold trend_kind, count_activity; intros H d.
  apply orb_false_iff in H; destruct H as [H Hs].
  apply orb_false_iff in H; destruct H as [H Hc].
  apply orb_false_iff in H; destruct H as [Hp Hl].
  rewrite Hp, Hl, Hc, Hs; reflexivity.
Qed.

Lemma trend_keys_run (rt : Runtime) changelogData timeRange w :
  fst (calculatePostsEngagementsTrend rt changelogData timeRange w)
  = map trend_point
      (fold_left (bucket_step DayBucket.date (short_label rt) count_activity)
         (changelog_elements changelogData)
         (fst (date_range rt (empty_day rt) (days_of_range timeRange) w)))
  /\ snd (calculatePostsEngagementsTrend rt changelogData timeRange w)
     = snd (date_range rt (empty_day rt) (days_of_range timeRange) w).
Proof.
  split; [apply trend_run|].
  unfold calculatePostsEngagementsTrend, bind, ret.
  destruct (date_range rt (empty_day rt) (days_of_range timeRange) w); reflexivity.
Qed.

(** X3.  The trend only looks at post, like, comment and share CREATE
    events whose day label is the label of one of its buckets: dropping
    every other event -- other resources, other methods, days outside the
    range -- changes nothing. *)
Theorem trend_ignores_other_events (rt : Runtime) changelogData timeRange w :
  let events := changelog_elements changelogData in
  let keys := trend_keys rt timeRange w in
  let counted := fun e => trend_kind e && has_label keys (short_label rt e) in
  calculatePostsEngagementsTrend rt (changelog_of (filter counted events))
    timeRange w
  = calculatePostsEngagementsTrend rt changelogData timeRange w.
Proof.
  intros events keys counted.
  apply injective_projections.
  - rewrite !(proj1 (trend_keys_run _ _ _ _)); f_equal.
    change (changelog_elements (changelog_of (filter counted events)))
      with (filter counted events).
    fold events; apply bucket_fold_filter; [apply count_activity_date|].
    intros e _ Hk; unfold counted in Hk.
    apply andb_false_iff in Hk; destruct Hk as [Hk|Hk].
    + right; apply count_activity_none, Hk.
    + left; exact Hk.
  - rewrite !(proj2 (trend_keys_run _ _ _ _)); reflexivity.
Qed.

Lemma trend_ignores_other_events_witness :
  fst (calculatePostsEngagementsTrend (offline noon_2024_03_15)
         (changelog_of anniversary_changelog) "7d" world0)
  = fst (calculatePostsEngagementsTrend (offline noon_2024_03_15)
           (changelog_of (firstn 3 anniversary_changelog)) "7d" world0).
Proof.
  rewrite <- (trend_ignores_other_events (offline noon_2024_03_15)
                (changelog_of anniversary_changelog) "7d" world0).
  vm_compute; reflexivity.
Defined.

(** X4.  The trend does not depend on the order of the changelog: two
    changelogs with the same events give the same series. *)
Theorem trend_order_independent (rt : Runtime) changelogData changelogData'
    timeRange w :
  Permutation (changelog_elements changelogData)
    (changelog_elements changelogData') ->
  fst (calculatePostsEngagementsTrend rt changelogData timeRange w)
  = fst (calculatePostsEngagementsTrend rt changelogData' timeRange w).
Proof.
  intros Hperm; rewrite !trend_run; f_equal.
  set (range := fst (date_range rt (empty_day rt) (days_of_range timeRange) w)).
  apply nth_error_ext; intros i.
  rewrite !bucket_fold_nth by apply count_activity_date.
  destruct (nth_error range i) as [d|]; [|reflexivity]; simpl; f_equal.
  destruct (day_bucket_fold rt (map DayBucket.date range) i
              (changelog_elements changelogData) d) as (D1 & P1 & L1 & C1 & S1).
  destruct (day_bucket_fold rt (map DayBucket.date range) i
              (changelog_elements changelogData') d) as (D2 & P2 & L2 & C2 & S2).
  unfold day_events in *.
  apply day_bucket_eta;
    [ rewrite D1, D2 | rewrite P1, P2 | rewrite L1, L2 | rewrite C1, C2
    | rewrite S1, S2 ];
    try reflexivity; f_equal; apply count_where_perm, Hperm.
Qed.

Lemma trend_order_independent_witness :
  fst (calculatePostsEngagementsTrend (offline noon_2024_03_15)
         (changelog_of anniversary_changelog) "7d" world0)
  = fst (calculatePostsEngagementsTrend (offline noon_2024_03_15)
           (changelog_of (rev anniversary_changelog)) "7d" world0).
Proof.
  apply trend_order_independent; simpl changelog_elements.
  apply Permutation_rev.
Defined.

(** X5.  Summed over the series, the posts are the post CREATE events
    whose day label is the label of a bucket, and the total engagement the
    like, comment and share CREATE events with such a label: every such
    event is counted once, in one bucket. *)
Theorem trend_totals (rt : Runtime) changelogData timeRange w :
  let events := changelog_elements changelogData in
  let keys := trend_keys rt timeRange w in
  let out := fst (calculatePostsEngagementsTrend rt changelogData timeRange w) in
  total (map TrendPoint.posts out)
    = count_where (fun e => has_label keys (short_label rt e)
                            && is_create "ugcPosts" e) events
  /\ total (map TrendPoint.totalEngagement out)
     = count_where (fun e => has_label keys (short_label rt e)
                             && engagement_kind e) events.
Proof.
  intros events keys out; subst out; rewrite trend_run; fold events.
  set (range := fst (date_range rt (empty_day rt) (days_of_range timeRange) w)).
  assert (Hzero : forall f : DayBucket.t -> Z,
            (forall t, f (empty_day rt t) = 0%Z) -> total (map f range) = 0%Z).
  { intros f Hf; subst range; rewrite date_range_run; cbn [fst]; rewrite map_map.
    induction (seq 0 (days_of_range timeRange)) as [|j l IH]; simpl;
      [reflexivity | rewrite Hf, IH; reflexivity]. }
  rewrite !map_map; split.
  - change (fun x => TrendPoint.posts (trend_point x)) with DayBucket.posts.
    rewrite (@bucket_fold_total _ DayBucket.date (short_label rt) count_activity
               count_activity_date DayBucket.posts
               (fun e => if is_create "ugcPosts" e then 1 else 0)%Z).
    + rewrite Hzero by reflexivity; rewrite Z.add_0_l.
      rewrite <- total_indicator; f_equal; apply map_ext; intros e.
      fold keys; unfold trend_keys; fold range.
      destruct (has_label _ _), (is_create "ugcPosts" e); reflexivity.
    + intros e x; unfold count_activity; split_kinds e; simpl; lia.
  - change (fun x => TrendPoint.totalEngagement (trend_point x))
      with (fun d => DayBucket.likes d + DayBucket.comments d + DayBucket.shares d)%Z.
    rewrite (@bucket_fold_total _ DayBucket.date (short_label rt) count_activity
               count_activity_date
               (fun d => DayBucket.likes d + DayBucket.comments d + DayBucket.shares d)%Z
               (fun e => if engagement_kind e then 1 else 0)%Z).
    + rewrite Hzero by reflexivity; rewrite Z.add_0_l.
      rewrite <- total_indicator; f_equal; apply map_ext; intros e.
      fold keys; unfold trend_keys; fold range.
      destruct (has_label _ _), (engagement_kind e); reflexivity.
    + intros e x; unfold count_activity, engagement_kind; split_kinds e; simpl; lia.
Qed.

Lemma total_map_zero (A : Type) (f : A -> Z) (l : list A) :
  (forall x, f x = 0%Z) -> total (map f l) = 0%Z.
Proof.
  intros H; induction l as [|x l IH]; [reflexivity|].
  cbn [map total fold_right]; fold (total (map f l)); rewrite H, IH; reflexivity.
Qed.

(** X6.  Summed over the message series, sent plus received is the number
    of ["messages"] events captured within the last 30 days whose date
    string is the key of a bucket: every such message is counted once,
    the others not at all. *)
Theorem messages_totals (rt : Runtime) changelogData w :
  let events := changelog_elements changelogData in
  let out := fst (calculateMessagesSentReceived rt changelogData w) in
  total (map (fun d => MessageDay.sent d + MessageDay.received d)%Z out)
  = count_where
      (fun e => recent_message (message_cutoff rt w) e
                && has_label (message_keys rt w) (locale_label rt e)) events.
Proof.
  intros events out; subst out; rewrite messages_run; cbv zeta; fold events.
  unfold message_keys.
  remember (fst (date_range rt (empty_message_day rt) 30
                   {| tick := S (tick w); requests := requests w |}))
    as range eqn:Erange.
  rewrite map_map.
  change (fun x => (MessageDay.sent (message_point rt x)
                    + MessageDay.received (message_point rt x))%Z)
    with (fun d => MessageDay.sent d + MessageDay.received d)%Z.
  rewrite (@bucket_fold_total _ MessageDay.date (locale_label rt)
             (count_message (currentUserId_of events))
             (count_message_date (currentUserId_of events))
             (fun d => MessageDay.sent d + MessageDay.received d)%Z
             (fun _ => 1%Z)).
  - assert (Hzero : total (map (fun d => MessageDay.sent d + MessageDay.received d)%Z
                             range) = 0%Z).
    { rewrite Erange, date_range_run; cbn [fst]; rewrite map_map.
      apply total_map_zero; intros j; reflexivity. }
    rewrite Hzero, Z.add_0_l, total_indicator, count_where_filter; reflexivity.
  - intros e x; unfold count_message.
    destruct (same_id (actor e) (currentUserId_of events)); simpl; lia.
Qed.

Lemma route_by_day (f : Z -> string) (days : list Z) (x : Z) (i : nat) :
  NoDup days ->
  (forall y, In y days -> f y = f x -> y = x) ->
  (routed_to (map f days) i (f x) = true <-> nth_error days i = Some x).
Proof.
  revert i; induction days as [|y days IH]; intros i Hnd Hinj.
  - unfold routed_to; simpl; destruct i; split; discriminate.
  - inversion_clear Hnd as [|? ? Hy Hnd']; unfold routed_to; simpl.
    destruct (String.eqb_spec (f y) (f x)) as [E|Hne].
    + apply Hinj in E; [subst y | left; reflexivity].
      destruct i as [|i]; simpl; [tauto|].
      split; [discriminate|]; intros H; apply nth_error_In in H; tauto.
    + assert (Hinj' : forall z, In z days -> f z = f x -> z = x)
        by (intros z Hz; apply Hinj; right; exact Hz).
      destruct i as [|i]; simpl.
      * destruct (route (map f days) (f x)); simpl;
          split; try discriminate; intros [= ->]; congruence.
      * rewrite <- (IH i Hnd' Hinj'); unfold routed_to.
        destruct (route (map f days) (f x)); simpl; tauto.
Qed.

(** X7.  When the clock stays within one local day and no other of the
    thirty days shares the date string of a message's capture day, the
    message is looked up in bucket [i] exactly when its local capture day
    is day [i] of the thirty days that end today. *)
Theorem message_bucket_of_day (rt : Runtime) w today (i : nat) (e : Event) :
  (i < 30)%nat ->
  same_day rt today (S (tick w)) 30 ->
  (forall y, In y (days_until today 30) ->
     formatDefault rt y = formatDefault rt (dayOf rt (capturedAt e)) ->
     y = dayOf rt (capturedAt e)) ->
  (routed_to (message_keys rt w) i (locale_label rt e) = true
   <-> dayOf rt (capturedAt e) = (today - Z.of_nat (29 - i))%Z).
Proof.
  intros Hi Hday Hinj.
  rewrite (message_keys_days _ Hday); unfold locale_label, toLocaleDateString.
  rewrite route_by_day by (exact Hinj || apply days_until_NoDup).
  rewrite days_until_nth by exact Hi.
  replace (30 - 1 - i)%nat with (29 - i)%nat by lia.
  split; [intros [= <-]; reflexivity | intros ->; reflexivity].
Qed.

Lemma message_bucket_of_day_witness :
  routed_to (message_keys (offline noon_2024_03_15) world0) 28
    (locale_label (offline noon_2024_03_15)
       (message_event "urn:li:msg:3" (Some peer) (noon_2024_03_15 - msPerDay)))
  = true.
Proof.
  apply (@message_bucket_of_day (offline noon_2024_03_15) world0 19797 28
           (message_event "urn:li:msg:3" (Some peer) (noon_2024_03_15 - msPerDay))).
  - lia.
  - apply offline_same_day.
  - intros y Hin H; vm_compute in Hin.
    repeat (destruct Hin as [<-|Hin];
            [vm_compute in H; first [reflexivity | discriminate H]|]).
    contradiction.
  - vm_compute; reflexivity.
Defined.

(** X8.  The current user is the owner of the first event whose owner is
    a non-empty string, whatever that event is; there is none exactly when
    no event has such an owner. *)
Theorem current_user_inference (events : list Event) :
  (forall uid,
     currentUserId_of events = Some uid <->
     exists pre e post,
       events = pre ++ e :: post
       /\ Forall (fun x => Js.truthy (owner x) = false) pre
       /\ owner e = Some uid /\ uid <> "")
  /\ (currentUserId_of events = None <->
      Forall (fun x => Js.truthy (owner x) = false) events).
Proof.
  split; [intros uid; apply currentUserId_first_owner|].
  unfold currentUserId_of; induction events as [|x events IH]; simpl.
  - split; [constructor | reflexivity].
  - destruct (Js.truthy (owner x)) eqn:Hx.
    + split.
      * intros Ho; rewrite Ho in Hx; discriminate.
      * intros H; inversion H; congruence.
    + rewrite IH; split.
      * intros H; constructor; assumption.
      * intros H; inversion H; assumption.
Qed.

Lemma current_user_inference_witness :
  currentUserId_of
    [ message_event "urn:li:msg:0" (Some peer) noon_2024_03_15 ;
      reaction_event "socialActions/likes" "urn:li:like:1" "urn:li:share:1"
        noon_2024_03_15 ]
  = Some me.
Proof.
  apply (proj1 (current_user_inference _)).
  exists [], (message_event "urn:li:msg:0" (Some peer) noon_2024_03_15),
    [reaction_event "socialActions/likes" "urn:li:like:1" "urn:li:share:1"
       noon_2024_03_15].
  repeat split; [constructor | discriminate].
Defined.

(* ================================================================== *)
(** * Further properties of the connections growth                    *)
(* ================================================================== *)

Lemma growth_loop_perm (rt : Runtime) (fuel : nat) (s s' : list Row) endDate :
  Permutation s s' ->
  forall d c,
    growth_loop rt fuel s endDate d c = growth_loop rt fuel s' endDate d c.
Proof.
  intros Hperm; induction fuel as [|fuel IH]; intros d c; [reflexivity|].
  rewrite !growth_loop_S; cbv zeta.
  assert (E : forall q : Row -> bool,
            Z_length (filter q s) = Z_length (filter q s'))
    by (intros q; apply (count_where_perm q Hperm)).
  rewrite E, IH; reflexivity.
Qed.

(** What the loop yields from the day [d] on with [c] connections so far:
    one entry per round, dated [d], [d + 1 day], ..., each with the number
    of connections of its day and the running total. *)
Lemma growth_loop_entries (rt : Runtime) (sorted : list Row) endDate (fuel : nat) :
  forall d c l,
    growth_loop rt fuel sorted endDate d c = Some l ->
    map GrowthPoint.totalConnections l
      = prefix_sums c (map GrowthPoint.newConnections l)
    /\ forall i p, nth_error l i = Some p ->
         let day := (d + Z.of_nat i * msPerDay)%Z in
         GrowthPoint.date p = toShortDateString rt (Some day)
         /\ GrowthPoint.newConnections p
            = count_where (fun conn =>
                String.eqb (toLocaleDateString rt (connection_date rt conn))
                  (toLocaleDateString rt (Some day))) sorted.
Proof.
  induction fuel as [|fuel IH]; intros d c l; [discriminate|].
  rewrite growth_loop_S; destruct (d <=? endDate)%Z.
  - cbv zeta; rewrite setDate_next.
    destruct (growth_loop rt fuel sorted endDate (d + msPerDay)%Z _)
      as [rest|] eqn:E; [|discriminate].
    intros [= <-]; destruct (IH _ _ _ E) as [Hsum Hnth]; split.
    + simpl; rewrite Hsum; reflexivity.
    + intros [|i] p Hp; simpl in Hp.
      * injection Hp as <-; cbv zeta.
        cbn [GrowthPoint.date GrowthPoint.newConnections Z.of_nat].
        rewrite Z.mul_0_l, Z.add_0_r; split; reflexivity.
      * destruct (Hnth i p Hp) as [Hd Hn]; cbv zeta in Hd, Hn |- *.
        replace (d + Z.of_nat (S i) * msPerDay)%Z
          with (d + msPerDay + Z.of_nat i * msPerDay)%Z by lia.
        split; assumption.
  - intros [= <-]; split; [reflexivity|]; intros [|i] p Hp; discriminate.
Qed.

(** X9.  The growth loop always ends and returns a series.  Entry [i] is
    dated [i] days after the first day, reports as new connections the
    number of connections that carry a date ("Connected On", else
    [connectedOn]) whose date string is that day's, and the total
    connections are the running sums of the new connections. *)
Theorem growth_running_totals (rt : Runtime) connectionsData timeRange w :
  exists l,
    fst (calculateConnectionsGrowth rt connectionsData timeRange w) = Some l
    /\ map GrowthPoint.totalConnections l
       = prefix_sums 0 (map GrowthPoint.newConnections l)
    /\ forall i p, nth_error l i = Some p ->
         let day := (growth_start rt timeRange w + Z.of_nat i * msPerDay)%Z in
         GrowthPoint.date p = toShortDateString rt (Some day)
         /\ GrowthPoint.newConnections p
            = count_where (connected_on_day rt day) (snapshot_rows connectionsData)
         /\ (0 <= GrowthPoint.newConnections p)%Z.
Proof.
  destruct (growth_loop_returns rt connectionsData timeRange w) as (l & Hl).
  exists l; split; [exact Hl|].
  rewrite growth_run in Hl; cbv zeta in Hl.
  fold (growth_start rt timeRange w) in Hl.
  destruct (growth_loop_entries _ _ _ _ _ _ Hl) as [Hsum Hnth].
  split; [exact Hsum|].
  intros i p Hp; destruct (Hnth i p Hp) as [Hd Hn]; cbv zeta in Hd, Hn |- *.
  split; [exact Hd|].
  assert (E : GrowthPoint.newConnections p
              = count_where
                  (connected_on_day rt
                     (growth_start rt timeRange w + Z.of_nat i * msPerDay))
                  (snapshot_rows connectionsData)).
  { rewrite Hn, (count_where_perm _ (sort_perm _ _)), count_where_filter.
    reflexivity. }
  split; [exact E | rewrite E; apply count_where_nonneg].
Qed.

Lemma growth_running_totals_witness :
  option_map (map GrowthPoint.totalConnections)
    (fst (calculateConnectionsGrowth (offline noon_2024_03_15) dated_connections
            "7d" world0))
  = Some [0; 0; 1; 1; 1; 1; 3; 3]%Z.
Proof.
  destruct (growth_running_totals (offline noon_2024_03_15) dated_connections
              "7d" world0) as (l & Hl & Hsum & _).
  rewrite Hl; simpl; rewrite Hsum; f_equal.
  assert (E : fst (calculateConnectionsGrowth (offline noon_2024_03_15)
                     dated_connections "7d" world0)
              = Some l) by exact Hl.
  vm_compute in E; injection E as <-; reflexivity.
Defined.

(** X10.  The growth series does not depend on the order of the
    connection rows. *)
Theorem growth_order_independent (rt : Runtime) connectionsData connectionsData'
    timeRange w :
  Permutation (snapshot_rows connectionsData) (snapshot_rows connectionsData') ->
  fst (calculateConnectionsGrowth rt connectionsData timeRange w)
  = fst (calculateConnectionsGrowth rt connectionsData' timeRange w).
Proof.
  intros Hperm; rewrite !growth_run; cbv zeta.
  apply growth_loop_perm.
  eapply perm_trans; [apply sort_perm|].
  eapply perm_trans; [|apply Permutation_sym, sort_perm].
  clear - Hperm; induction Hperm as [|x l l' _ IH|x y l|l l' l'' _ IH1 _ IH2];
    simpl.
  - apply perm_nil.
  - destruct (Js.truthy (connected_on x)); [apply perm_skip|]; exact IH.
  - destruct (Js.truthy (connected_on x)), (Js.truthy (connected_on y));
      try apply Permutation_refl; apply perm_swap.
  - eapply perm_trans; eassumption.
Qed.

Lemma growth_order_independent_witness :
  fst (calculateConnectionsGrowth (offline noon_2024_03_15) dated_connections
         "7d" world0)
  = fst (calculateConnectionsGrowth (offline noon_2024_03_15)
           (snapshot_of (rev (snapshot_rows dated_connections))) "7d" world0).
Proof.
  apply growth_order_independent; apply Permutation_rev.
Defined.

(** X11.  When both [new Date()] calls of the growth series read the
    same instant, the series has one entry for each day from [days] days
    before today to today: one more than the range has days. *)
Theorem growth_series_days (rt : Runtime) connectionsData timeRange w :
  clock rt (S (tick w)) = clock rt (tick w) ->
  let today := dayOf rt (clock rt (tick w)) in
  exists l,
    fst (calculateConnectionsGrowth rt connectionsData timeRange w) = Some l
    /\ List.length l = S (days_of_range timeRange)
    /\ map GrowthPoint.date l
       = map (formatShort rt) (days_until today (S (days_of_range timeRange))).
Proof.
  intros Hclock today.
  destruct (growth_entry_count_steady rt connectionsData timeRange w Hclock)
    as (l & Hl & Hlen).
  exists l; split; [exact Hl|]; split; [exact Hlen|].
  rewrite growth_run in Hl; cbv zeta in Hl.
  destruct (growth_loop_entries _ _ _ _ _ _ Hl) as [_ Hnth].
  apply nth_error_ext; intros i.
  rewrite !nth_error_map.
  destruct (nth_error l i) as [p|] eqn:Hp.
  - assert (Hi : (i < S (days_of_range timeRange))%nat)
      by (rewrite <- Hlen; apply nth_error_Some; congruence).
    rewrite days_until_nth by exact Hi; simpl.
    destruct (Hnth i p Hp) as [Hd _]; cbv zeta in Hd; rewrite Hd.
    unfold toShortDateString; do 2 f_equal.
    rewrite Hclock, setDate_back, dayOf_shift.
    replace (clock rt (tick w) - Z.of_nat (days_of_range timeRange) * msPerDay)%Z
      with (clock rt (tick w)
            + (- Z.of_nat (days_of_range timeRange)) * msPerDay)%Z by ring.
    rewrite dayOf_shift; subst today; lia.
  - apply nth_error_None in Hp.
    assert (Hnone : nth_error (days_until today (S (days_of_range timeRange))) i
                    = None).
    { apply nth_error_None; unfold days_until.
      rewrite length_map, length_seq; lia. }
    rewrite Hnone; reflexivity.
Qed.

Lemma growth_series_days_witness :
  option_map (map GrowthPoint.date)
    (fst (calculateConnectionsGrowth (offline noon_2024_03_15) dated_connections
            "30d" world0))
  = Some (map en_US_short (days_until 19797 31)).
Proof.
  destruct (@growth_series_days (offline noon_2024_03_15) dated_connections
              "30d" world0 eq_refl) as (l & Hl & _ & Hd).
  rewrite Hl; simpl; f_equal; exact Hd.
Defined.

(* ================================================================== *)
(** * Further properties of the handler                               *)
(* ================================================================== *)

Lemma fetch_result (A : Type)
    (fetch : string -> list (string * string) -> FetchResult A)
    (authorization endpoint : string) (domain : option string)
    (extraParams : string) (w : World) :
  fst (fetchLinkedInData fetch authorization endpoint domain extraParams w)
  = fetched (fetch (request_url endpoint domain extraParams)
               (request_headers authorization)).
Proof. reflexivity. Qed.

Lemma token_truthy (o : option string) :
  Js.truthy o = true <-> exists token, o = Some token /\ token <> "".
Proof.
  destruct o as [s|]; simpl.
  - destruct (String.eqb_spec s ""); simpl; split.
    + discriminate.
    + intros (t & [= ->] & H); contradiction.
    + intros _; exists s; split; [reflexivity | assumption].
    + reflexivity.
  - split; [discriminate | intros (t & H & _); discriminate].
Qed.

(** An authorized run, step by step: the six requests first, then the
    aggregators on the answers. *)
Lemma handler_run (rt : Runtime) (event : Request.t) (w : World) (token : string) :
  Request.httpMethod event <> "OPTIONS" ->
  field "authorization" (Request.headers event) = Some token ->
  token <> "" ->
  handler rt event w
  = (ok_response (fst (analytics_run rt token (requested_range event) w)),
     snd (analytics_run rt token (requested_range event) w)).
Proof.
  intros Hm Ha Ht; unfold handler.
  destruct (String.eqb_spec (Request.httpMethod event) "OPTIONS"); [contradiction|].
  cbv zeta; rewrite Ha.
  assert (Htr : Js.truthy (Some token) = true)
    by (simpl; destruct (String.eqb_spec token ""); [contradiction | reflexivity]).
  assert (Hor : Js.or_default (Some token) "" = token)
    by (simpl; destruct (String.eqb_spec token ""); [contradiction | reflexivity]).
  rewrite Htr, Hor; cbn [negb]; fold (requested_range event).
  repeat (rewrite bind_run; cbv beta).
  rewrite !fetch_result, !fetch_world; cbn [tick requests].
  fold (changelog_answer rt token) (snapshot_answer rt token "CONNECTIONS")
    (snapshot_answer rt token "MEMBER_SHARE_INFO").
  match goal with
  | |- context [calculatePostsEngagementsTrend rt _ _ ?W] =>
      replace W with (after_requests token w)
        by (unfold after_requests; f_equal; rewrite <- !app_assoc; reflexivity)
  end.
  reflexivity.
Qed.

(** X12.  A request with a token makes the handler issue exactly six
    upstream requests, in a fixed order -- the profile, connections and
    posts snapshots, the changelog with [count=200], the skills and
    positions snapshots -- each carrying the token verbatim as
    [Authorization] and the API version 202312; it then reads the clock
    once per trend bucket and 34 times more. *)
Theorem upstream_requests_carry_token (rt : Runtime) (event : Request.t)
    (w : World) (token : string) :
  Request.httpMethod event <> "OPTIONS" ->
  field "authorization" (Request.headers event) = Some token ->
  token <> "" ->
  let w' := snd (handler rt event w) in
  requests w'
    = requests w
      ++ map (fun url =>
                {| call_url := url;
                   call_headers := [ ("Authorization", token);
                                     ("LinkedIn-Version", "202312") ] |})
           upstream_urls
  /\ tick w' = (tick w + days_of_range (requested_range event) + 34)%nat.
Proof.
  intros Hm Ha Ht w'; subst w'; rewrite (handler_run rt event w Hm Ha Ht).
  unfold analytics_run; cbv zeta; cbn [snd tick requests].
  rewrite messages_world, growth_world, trend_world.
  unfold after_requests; cbn [tick requests].
  split; [reflexivity | lia].
Qed.

Lemma upstream_requests_carry_token_witness :
  map call_url
    (requests (snd (handler (offline noon_2024_03_15) token_request world0)))
  = upstream_urls
  /\ tick (snd (handler (offline noon_2024_03_15) token_request world0)) = 41%nat.
Proof.
  destruct (@upstream_requests_carry_token (offline noon_2024_03_15) token_request
              world0 "Bearer abc") as [Hr Ht].
  - discriminate.
  - reflexivity.
  - discriminate.
  - rewrite Hr, Ht; split; reflexivity.
Defined.

Lemma json_field_get (k : string) (fields : list (string * Json)) :
  json_get k (JObj fields) = json_field k fields.
Proof. reflexivity. Qed.

(** X13.  The analytics object of an authorized run is computed from the
    answers to three of the requests: the post types and the engagement
    ranking from the changelog, the top hashtags from the posts snapshot
    and the changelog, the audience from the connections snapshot.  It
    echoes the requested range (["30d"] when none is given), carries the
    static score table, a trend of one entry per day of the range and a
    message series of thirty entries. *)
Theorem response_is_computed_from_answers (rt : Runtime) (event : Request.t)
    (w : World) (token : string) :
  Request.httpMethod event <> "OPTIONS" ->
  field "authorization" (Request.headers event) = Some token ->
  token <> "" ->
  let log := changelog_answer rt token in
  let connections := snapshot_answer rt token "CONNECTIONS" in
  let posts := snapshot_answer rt token "MEMBER_SHARE_INFO" in
  let range := requested_range event in
  exists body trend messages,
    Response.body (fst (handler rt event w)) = Some body
    /\ json_get "postTypesBreakdown" body
       = Some (JArr (map json_of_ranked (calculatePostTypesBreakdown log)))
    /\ json_get "engagementPerPost" body
       = Some (JArr (map json_of_summary (calculateEngagementPerPost log)))
    /\ json_get "topHashtags" body
       = Some (JArr (map json_of_hashtag (calculateTopHashtags posts log)))
    /\ json_get "audienceDistribution" body
       = Some (json_of_audience (calculateAudienceDistribution connections))
    /\ json_get "timeRange" body = Some (JStr range)
    /\ json_get "scoreImpacts" body = Some getScoreImpacts
    /\ json_get "postsEngagementsTrend" body = Some (JArr trend)
    /\ List.length trend = days_of_range range
    /\ json_get "messagesSentReceived" body = Some (JArr messages)
    /\ List.length messages = 30%nat.
Proof.
  intros Hm Ha Ht log connections posts range.
  rewrite (handler_run rt event w Hm Ha Ht).
  unfold analytics_run; cbv zeta; cbn [fst ok_response Response.body].
  eexists; eexists; eexists; split; [reflexivity|].
  rewrite !json_field_get.
  repeat (split; [reflexivity|]).
  split; [rewrite length_map; apply trend_entry_count|].
  split; [reflexivity|].
  rewrite length_map; apply messages_entry_count.
Qed.

Lemma response_is_computed_from_answers_witness :
  option_map (json_get "timeRange")
    (Response.body (fst (handler changelog_down token_request world0)))
  = Some (Some (JStr "7d")).
Proof.
  destruct (@response_is_computed_from_answers changelog_down token_request
              world0 "Bearer abc")
    as (body & trend & messages & Hb & _ & _ & _ & _ & Hr & _).
  - discriminate.
  - reflexivity.
  - discriminate.
  - rewrite Hb; simpl; rewrite Hr; reflexivity.
Defined.

Lemma handler_options (rt : Runtime) (event : Request.t) (w : World) :
  Request.httpMethod event = "OPTIONS" -> handler rt event w = (preflight, w).
Proof.
  intros Hm; unfold handler; rewrite Hm, String.eqb_refl; reflexivity.
Qed.

Lemma handler_without_token (rt rt' : Runtime) (event : Request.t) (w : World) :
  Request.httpMethod event = "OPTIONS"
  \/ Js.truthy (field "authorization" (Request.headers event)) = false ->
  handler rt event w = handler rt' event w.
Proof.
  intros H.
  destruct (String.eqb_spec (Request.httpMethod event) "OPTIONS") as [Hm|Hm].
  - rewrite !handler_options by exact Hm; reflexivity.
  - destruct H as [H|Ha]; [contradiction|].
    rewrite !handler_unauthorized by assumption; reflexivity.
Qed.

Section OtherSnapshots.
Variable rt : Runtime.
Variable answers : string -> list (string * string) -> FetchResult Snapshot.t.

Lemma date_range_other (A : Type) (mk mk' : Z -> A) (n : nat) :
  (forall t, mk t = mk' t) ->
  forall w, date_range (with_snapshots rt answers) mk n w = date_range rt mk' n w.
Proof.
  intros Hmk; induction n as [|n IH]; intros w; [reflexivity|].
  simpl date_range; unfold bind.
  change (now (with_snapshots rt answers) w) with (now rt w).
  destruct (now rt w) as [t w1]; rewrite IH.
  destruct (date_range rt mk' n w1) as [rest w2].
  unfold ret; rewrite Hmk; reflexivity.
Qed.

Lemma trend_other changelogData timeRange w :
  calculatePostsEngagementsTrend (with_snapshots rt answers) changelogData timeRange w
  = calculatePostsEngagementsTrend rt changelogData timeRange w.
Proof.
  unfold calculatePostsEngagementsTrend, bind.
  rewrite (date_range_other (empty_day (with_snapshots rt answers)) (empty_day rt))
    by reflexivity.
  reflexivity.
Qed.

Lemma messages_other changelogData w :
  calculateMessagesSentReceived (with_snapshots rt answers) changelogData w
  = calculateMessagesSentReceived rt changelogData w.
Proof.
  apply injective_projections; [|rewrite !messages_world; reflexivity].
  rewrite !messages_run; cbv zeta.
  rewrite (date_range_other (empty_message_day (with_snapshots rt answers))
             (empty_message_day rt)) by reflexivity.
  generalize (fst (date_range rt (empty_message_day rt) 30
                     {| tick := S (tick w); requests := requests w |})).
  intros range; reflexivity.
Qed.

Lemma growth_loop_other (fuel : nat) (sorted : list Row) endDate :
  forall d c,
    growth_loop (with_snapshots rt answers) fuel sorted endDate d c
    = growth_loop rt fuel sorted endDate d c.
Proof.
  induction fuel as [|fuel IH]; intros d c; [reflexivity|].
  rewrite !growth_loop_S; cbv zeta; rewrite IH; reflexivity.
Qed.

Lemma growth_other connectionsData timeRange w :
  calculateConnectionsGrowth (with_snapshots rt answers) connectionsData timeRange w
  = calculateConnectionsGrowth rt connectionsData timeRange w.
Proof.
  apply injective_projections; [|rewrite !growth_world; reflexivity].
  rewrite !growth_run; cbv zeta; rewrite growth_loop_other; reflexivity.
Qed.
End OtherSnapshots.

(** X14.  The answers to the profile, skills and positions requests are
    never used: two runtimes that differ only in what those three requests
    return give the same response and the same upstream requests. *)
Theorem unused_snapshots (rt : Runtime)
    (answers : string -> list (string * string) -> FetchResult Snapshot.t)
    (event : Request.t) (w : World) :
  (forall domain headers,
     In domain ["CONNECTIONS"; "MEMBER_SHARE_INFO"] ->
     answers (request_url "linkedin-snapshot" (Some domain) "") headers
     = fetchSnapshot rt (request_url "linkedin-snapshot" (Some domain) "") headers) ->
  handler (with_snapshots rt answers) event w = handler rt event w.
Proof.
  intros Hsame.
  destruct (String.eqb_spec (Request.httpMethod event) "OPTIONS") as [Hm|Hm];
    [apply handler_without_token; left; exact Hm|].
  destruct (Js.truthy (field "authorization" (Request.headers event))) eqn:Ha;
    [|apply handler_without_token; right; exact Ha].
  apply token_truthy in Ha; destruct Ha as (token & Ha & Ht).
  rewrite !(handler_run _ event w Hm Ha Ht).
  assert (Hlog : changelog_answer (with_snapshots rt answers) token
                 = changelog_answer rt token) by reflexivity.
  assert (Hsnap : forall domain, In domain ["CONNECTIONS"; "MEMBER_SHARE_INFO"] ->
            snapshot_answer (with_snapshots rt answers) token domain
            = snapshot_answer rt token domain).
  { intros domain Hd; unfold snapshot_answer.
    cbn [fetchSnapshot with_snapshots]; rewrite (Hsame _ _ Hd); reflexivity. }
  unfold analytics_run; cbv zeta.
  rewrite Hlog, !Hsnap by (simpl; tauto).
  rewrite !trend_other, !growth_other, !messages_other.
  reflexivity.
Qed.

Lemma unused_snapshots_witness :
  handler
    (with_snapshots changelog_down
       (fun url headers =>
          if String.eqb url "/.netlify/functions/linkedin-snapshot?domain=PROFILE"
          then HttpJson {| Snapshot.elements := None |}
          else fetchSnapshot changelog_down url headers))
    token_request world0
  = handler changelog_down token_request world0.
Proof.
  apply unused_snapshots.
  intros domain headers [<-|[<-|[]]]; reflexivity.
Defined.

(** X15.  A failed request costs only what is computed from it.  When
    the changelog request fails, the post types and the engagement ranking
    of the response are empty lists while the audience is still computed
    from the connections; when the connections request fails, the three
    audience lists are empty; when both the posts and the changelog
    requests fail, so is the list of hashtags. *)
Theorem failed_request_degrades_its_outputs (rt : Runtime) (event : Request.t)
    (w : World) (token : string) :
  Request.httpMethod event <> "OPTIONS" ->
  field "authorization" (Request.headers event) = Some token ->
  token <> "" ->
  exists body,
    Response.body (fst (handler rt event w)) = Some body
    /\ Response.statusCode (fst (handler rt event w)) = 200%Z
    /\ (changelog_answer rt token = None ->
        json_get "postTypesBreakdown" body = Some (JArr [])
        /\ json_get "engagementPerPost" body = Some (JArr [])
        /\ json_get "audienceDistribution" body
           = Some (json_of_audience
                     (calculateAudienceDistribution
                        (snapshot_answer rt token "CONNECTIONS")))
        /\ (snapshot_answer rt token "MEMBER_SHARE_INFO" = None ->
            json_get "topHashtags" body = Some (JArr [])))
    /\ (snapshot_answer rt token "CONNECTIONS" = None ->
        json_get "audienceDistribution" body
        = Some (JObj [ ("industries", JArr []); ("positions", JArr []);
                       ("locations", JArr []) ])).
Proof.
  intros Hm Ha Ht.
  rewrite (handler_run rt event w Hm Ha Ht).
  unfold analytics_run; cbv zeta; cbn [fst ok_response Response.body Response.statusCode].
  eexists; split; [reflexivity|]; split; [reflexivity|].
  rewrite !json_field_get; split.
  - intros ->; repeat split; intros ->; reflexivity.
  - intros ->; reflexivity.
Qed.

Lemma failed_request_degrades_its_outputs_witness :
  option_map (json_get "audienceDistribution")
    (Response.body (fst (handler changelog_down token_request world0)))
  = Some (Some (json_of_audience (calculateAudienceDistribution plain_connections)))
  /\ option_map (json_get "postTypesBreakdown")
       (Response.body (fst (handler changelog_down token_request world0)))
     = Some (Some (JArr [])).
Proof.
  destruct (@failed_request_degrades_its_outputs changelog_down token_request
              world0 "Bearer abc") as (body & Hb & _ & Hlog & _).
  - discriminate.
  - reflexivity.
  - discriminate.
  - destruct (Hlog eq_refl) as (Hp & _ & Haud & _).
    rewrite Hb; simpl; rewrite Hp, Haud; split; reflexivity.
Defined.

(** X20.  One call of [fetchLinkedInData] issues exactly one request and
    does not read the clock.  With a non-empty domain of word characters
    (which need no escaping) and no extra parameters the request goes to
    [/.netlify/functions/<endpoint>?domain=<domain>], without a domain (or
    with an empty one) to [/.netlify/functions/<endpoint>]; it carries the
    authorization value and the API version.  The call returns the parsed
    body when the answer is a success with a readable body and [null] for a
    network error, a status that is not ok or an unreadable body. *)
Theorem fetch_issues_one_request (A : Type)
    (fetch : string -> list (string * string) -> FetchResult A)
    (authorization endpoint : string) (domain : option string) (w : World) :
  (forall d, domain = Some d -> all_word d = true) ->
  let url :=
    match domain with
    | Some d =>
        if String.eqb d "" then ("/.netlify/functions/" ++ endpoint)%string
        else ("/.netlify/functions/" ++ endpoint ++ "?domain=" ++ d)%string
    | None => ("/.netlify/functions/" ++ endpoint)%string
    end in
  let headers := [("Authorization", authorization); ("LinkedIn-Version", "202312")] in
  let run := fetchLinkedInData fetch authorization endpoint domain "" w in
  snd run = {| tick := tick w;
               requests := requests w
                 ++ [ {| call_url := url; call_headers := headers |} ] |}
  /\ (forall payload, fst run = Some payload <-> fetch url headers = HttpJson payload)
  /\ (fst run = None <->
      fetch url headers = NetworkError
      \/ (exists status, fetch url headers = HttpError status)
      \/ fetch url headers = HttpBadBody).
Proof.
  intros _ url headers run.
  assert (Hurl : request_url endpoint domain "" = url).
  { subst url; unfold request_url; cbv zeta.
    destruct domain as [d|]; [destruct (String.eqb_spec d "")|];
      cbn [app params_toString map fst snd String.concat String.eqb];
      reflexivity. }
  subst run; rewrite fetch_world, fetch_result, Hurl.
  change (request_headers authorization) with headers.
  split; [reflexivity|].
  destruct (fetch url headers) as [|status|payload|]; simpl; split.
  - intros p; split; discriminate.
  - split; [intros _; left; reflexivity | reflexivity].
  - intros p; split; discriminate.
  - split; [intros _; right; left; exists status; reflexivity | reflexivity].
  - intros p; split; intros [= ->]; reflexivity.
  - split; [discriminate | intros [H|[(s & H)|H]]; discriminate].
  - intros p; split; discriminate.
  - split; [intros _; right; right; reflexivity | reflexivity].
Qed.

Lemma fetch_issues_one_request_witness :
  map call_url
    (requests
       (snd (fetchLinkedInData (fetchSnapshot changelog_down) "Bearer abc"
               "linkedin-snapshot" (Some "CONNECTIONS") "" world0)))
  = ["/.netlify/functions/linkedin-snapshot?domain=CONNECTIONS"]
  /\ fst (fetchLinkedInData (fetchSnapshot changelog_down) "Bearer abc"
            "linkedin-snapshot" (Some "SKILLS") "" world0) = None.
Proof.
  split.
  - rewrite (proj1 (@fetch_issues_one_request _ (fetchSnapshot changelog_down)
                      "Bearer abc" "linkedin-snapshot" (Some "CONNECTIONS") world0
                      (fun d E => ltac:(injection E as <-; reflexivity)))).
    reflexivity.
  - apply (proj2 (proj2 (@fetch_issues_one_request _ (fetchSnapshot changelog_down)
                           "Bearer abc" "linkedin-snapshot" (Some "SKILLS") world0
                           (fun d E => ltac:(injection E as <-; reflexivity))))).
    right; left; exists 404%Z; reflexivity.
Defined.

(** X21.  The post-type breakdown depends on the post CREATE events
    only, and not on their order: two changelogs with the same post
    creations give the same breakdown, whatever else they contain. *)
Theorem breakdown_counts_posts_only changelogData changelogData' :
  Permutation (filter is_post_create (changelog_elements changelogData))
    (filter is_post_create (changelog_elements changelogData')) ->
  calculatePostTypesBreakdown changelogData
  = calculatePostTypesBreakdown changelogData'.
Proof.
  intros Hperm; rewrite !breakdown_table, !changelog_posts_filter.
  do 2 f_equal; apply map_ext; intros ty; f_equal.
  apply count_where_perm, Hperm.
Qed.

Lemma breakdown_counts_posts_only_witness :
  calculatePostTypesBreakdown mixed_changelog
  = calculatePostTypesBreakdown
      (changelog_of (rev (filter is_post_create (changelog_elements mixed_changelog)))).
Proof.
  apply breakdown_counts_posts_only.
  vm_compute.
  match goal with |- Permutation ?l _ => apply (Permutation_rev l) end.
Defined.
